(** * rxjs-spy: the notification dispatcher and the snapshot plugin

    A shallow embedding of [SnapshotPlugin] (snapshot-plugin.ts: the
    bounded value history, the walk of the subscription graph,
    [snapshotAll] and the two lookups built on it) and of [SpyCore] (the
    class that replaces [Observable.prototype.subscribe] and dispatches
    every lifecycle notification to the plugins under a tick, with its
    registry of plugins and its teardown), with the properties the
    specification states of them (C1 to C10) and further properties of
    the code (X1 to X21).

    Part I holds the definitions, Part II the properties.

    Conventions.
    - A JavaScript object is identified by a natural number; the fields
      of the objects of a class are field maps of the state.
    - A JavaScript [number] that holds a count or a tick is an integer
      of [Z]: such numbers are exact below 2^53, and the development is
      about that range.  The increment of the tick is modelled with its
      rounding at 2^53 ([SpyCore.increment]).
    - [Date.now()] is an input of the method that reads it.
    - A JavaScript [Map] is an association list in insertion order.
    - A function that recurses along the graph takes a bound on the
      depth of the recursion ([fuel]); that it returns is then a
      theorem about enough fuel. *)

From Stdlib Require Import String.
From Stdlib Require Import ZArith List Lia Bool Arith PeanoNat.
From Stdlib Require Import Sorted Permutation.
Import ListNotations.
Open Scope Z_scope.

Set Implicit Arguments.

(* ================================================================== *)
(** * JavaScript [Map]: insertion-ordered association lists            *)
(* ================================================================== *)

Section JsMap.
Context {K V : Type}.
Variable eqb : K -> K -> bool.

(** [map.get(k)]: [None] stands for [undefined]. *)
Fixpoint mget (k : K) (m : list (K * V)) : option V :=
  match m with
  | [] => None
  | (k', v) :: m' => if eqb k k' then Some v else mget k m'
  end.

(** [map.set(k, v)]: an existing key keeps its position, a new key is
    appended. *)
Fixpoint mset (k : K) (v : V) (m : list (K * V)) : list (K * V) :=
  match m with
  | [] => [(k, v)]
  | (k', v') :: m' =>
      if eqb k k' then (k, v) :: m' else (k', v') :: mset k v m'
  end.

(** [map.delete(k)]. *)
Fixpoint mdelete (k : K) (m : list (K * V)) : list (K * V) :=
  match m with
  | [] => []
  | (k', v') :: m' =>
      if eqb k k' then m' else (k', v') :: mdelete k m'
  end.

Definition mkeys (m : list (K * V)) : list K := map fst m.
End JsMap.

(** Keys that may be [undefined] ([ref.subscription] before the
    subscribe action has returned). *)
Definition opt_eqb (a b : option nat) : bool :=
  match a, b with
  | None, None => true
  | Some x, Some y => Nat.eqb x y
  | _, _ => false
  end.

(** Field maps: [upd f k v] is [f] with the field of object [k] set. *)
Definition upd {A : Type} (f : nat -> A) (k : nat) (v : A) : nat -> A :=
  fun k' => if Nat.eqb k' k then v else f k'.

(** A call either returns or throws the [TypeError] of a property access
    on [undefined]; [OutOfFuel] is the recursion bound of the model, not
    a behaviour of the program. *)
Inductive result (A : Type) : Type :=
| Ok (a : A)
| TypeError
| OutOfFuel.
Arguments Ok {A} a.
Arguments TypeError {A}.
Arguments OutOfFuel {A}.

Definition rbind {A B : Type} (r : result A) (k : A -> result B) : result B :=
  match r with
  | Ok a => k a
  | TypeError => TypeError
  | OutOfFuel => OutOfFuel
  end.

(** [xs.forEach(f)] for a callback that updates an accumulated state and
    may throw. *)
Fixpoint rforEach {A S : Type} (f : A -> S -> result S) (xs : list A) (s : S)
  : result S :=
  match xs with
  | [] => Ok s
  | x :: xs' => rbind (f x s) (rforEach f xs')
  end.

(* ================================================================== *)
(** * snapshot-plugin.ts: data                                         *)
(* ================================================================== *)

(** Identities of the host's objects. *)
Definition Ref := nat.            (* a SubscriptionRef object *)
Definition ObservableId := nat.   (* an Observable *)
Definition SubscriberId := nat.   (* a Subscriber *)
Definition SubscriptionId := nat. (* a Subscription *)
Definition GraphRefAddr := nat.   (* a GraphRef object *)
Definition PromiseId := nat.      (* a Promise *)

(** [{ tick, timestamp, value }], an element of [values]. *)
Module ValueEntry.
Record t {Value : Type} := mk {
  tick : Z;
  timestamp : Z;
  value : Value
}.
Arguments t : clear implicits.
End ValueEntry.

(** [interface SnapshotRef]. *)
Module SnapshotRef.
Record t {Value : Type} := mk {
  complete : bool;
  error : Value;
  tick : Z;
  timestamp : Z;
  unsubscribed : bool;
  values : list (ValueEntry.t Value);
  valuesFlushed : Z
}.
Arguments t : clear implicits.
End SnapshotRef.

(** [interface SubscriptionRef], with the fields [coreSubscribe_] gives
    the object it creates.  [subscription] is [undefined] until the
    subscribe action has returned. *)
Module SubscriptionRef.
Record t := mk {
  observable : ObservableId;
  subscriber : SubscriberId;
  subscription : option SubscriptionId;
  timestamp : Z;
  unsubscribed : bool
}.
End SubscriptionRef.

(** Modelled from the spec: [interface GraphRef] of graph-plugin.ts,
    which is not among the sources.  A subscription's node carries its
    [sink], its [rootSink], the subscriptions it consumes from
    ([sources]) and those added later ([merges]), each edge list with
    the count of the edges flushed from it, and the sentinel whose
    [sources] are the top-level subscriptions; these are the fields that
    snapshot-plugin.ts reads. *)
Module GraphRef.
Record t := mk {
  merges : list Ref;
  mergesFlushed : Z;
  rootSink : option Ref;
  sentinel : GraphRefAddr;
  sink : option Ref;
  sources : list Ref;
  sourcesFlushed : Z
}.
End GraphRef.

(** The state the plugin works on: its own fields ([keptValues_],
    [sentinel_], and the tick of [spy_]) and the objects it reaches
    through a [SubscriptionRef]. *)
Module State.
Record t {Value : Type} := mk {
  keptValues_ : Z;
  sentinel_ : option GraphRefAddr;
  spy_tick : Z;                                   (* this.spy_.tick *)
  refs : Ref -> SubscriptionRef.t;                (* the ref's fields *)
  graphRefSymbol : Ref -> option GraphRefAddr;    (* ref[graphRefSymbol] *)
  graphRefs : GraphRefAddr -> GraphRef.t;         (* GraphRef objects *)
  snapshotRefSymbol : Ref -> option (SnapshotRef.t Value)
}.
Arguments t : clear implicits.
End State.

Section SnapshotPluginModel.
Context {Value : Type}.
Variable undefined : Value.

Local Abbreviation State := (State.t Value).
Local Abbreviation SnapshotRef := (SnapshotRef.t Value).

Definition with_snapshotRefSymbol (st : State)
    (f : Ref -> option SnapshotRef) : State :=
  State.mk (State.keptValues_ st) (State.sentinel_ st) (State.spy_tick st)
           (State.refs st) (State.graphRefSymbol st) (State.graphRefs st)
           f.

Definition with_sentinel_ (st : State) (s : option GraphRefAddr) : State :=
  State.mk (State.keptValues_ st) s (State.spy_tick st)
           (State.refs st) (State.graphRefSymbol st) (State.graphRefs st)
           (State.snapshotRefSymbol st).

Definition with_spy_tick (st : State) (t : Z) : State :=
  State.mk (State.keptValues_ st) (State.sentinel_ st) t
           (State.refs st) (State.graphRefSymbol st) (State.graphRefs st)
           (State.snapshotRefSymbol st).

(** [getSnapshotRef(ref)]. *)
Definition getSnapshotRef (st : State) (ref : Ref) : option SnapshotRef :=
  State.snapshotRefSymbol st ref.

(** [setSnapshotRef(ref, value)]. *)
Definition setSnapshotRef (st : State) (ref : Ref) (v : SnapshotRef) : State :=
  with_snapshotRefSymbol st (upd (State.snapshotRefSymbol st) ref (Some v)).

(** Modelled from the spec: [getGraphRef(ref)] of graph-plugin.ts, the
    lookup of the graph node kept for a subscription, [undefined] when
    graphing is not enabled. *)
Definition getGraphRef (st : State) (ref : Ref) : option GraphRef.t :=
  option_map (State.graphRefs st) (State.graphRefSymbol st ref).

(** The constructor: [keptValues = 4] unless the option is given. *)
Definition new_SnapshotPlugin (st : State) (keptValues : option Z) : State :=
  State.mk (match keptValues with Some k => k | None => 4 end)
           None (State.spy_tick st)
           (State.refs st) (State.graphRefSymbol st) (State.graphRefs st)
           (State.snapshotRefSymbol st).

Definition afterUnsubscribe (ref : Ref) (st : State) : result State :=
  match getSnapshotRef st ref with
  | None => TypeError
  | Some s =>
      Ok (setSnapshotRef st ref
            (SnapshotRef.mk (SnapshotRef.complete s) (SnapshotRef.error s)
               (State.spy_tick st) (SnapshotRef.timestamp s)
               true
               (SnapshotRef.values s) (SnapshotRef.valuesFlushed s)))
  end.

Definition beforeComplete (ref : Ref) (st : State) : result State :=
  match getSnapshotRef st ref with
  | None => TypeError
  | Some s =>
      Ok (setSnapshotRef st ref
            (SnapshotRef.mk true (SnapshotRef.error s)
               (State.spy_tick st) (SnapshotRef.timestamp s)
               (SnapshotRef.unsubscribed s)
               (SnapshotRef.values s) (SnapshotRef.valuesFlushed s)))
  end.

Definition beforeError (ref : Ref) (error : Value) (st : State)
  : result State :=
  match getSnapshotRef st ref with
  | None => TypeError
  | Some s =>
      Ok (setSnapshotRef st ref
            (SnapshotRef.mk (SnapshotRef.complete s) error
               (State.spy_tick st) (SnapshotRef.timestamp s)
               (SnapshotRef.unsubscribed s)
               (SnapshotRef.values s) (SnapshotRef.valuesFlushed s)))
  end.

(** [beforeNext]: push the value, then drop the oldest entries beyond
    [keptValues_] and count them.  [splice(0, count)] removes the
    first [count] entries, all of them when there are fewer. *)
Definition beforeNext (ref : Ref) (value : Value) (now : Z) (st : State)
  : result State :=
  let tick := State.spy_tick st in
  match getSnapshotRef st ref with
  | None => TypeError
  | Some s =>
      let pushed := SnapshotRef.values s ++ [ValueEntry.mk tick now value] in
      let count := Z.of_nat (length pushed) - State.keptValues_ st in
      Ok (setSnapshotRef st ref
            (if 0 <? count
             then SnapshotRef.mk (SnapshotRef.complete s) (SnapshotRef.error s)
                    tick (SnapshotRef.timestamp s) (SnapshotRef.unsubscribed s)
                    (skipn (Z.to_nat count) pushed)
                    (SnapshotRef.valuesFlushed s + count)
             else SnapshotRef.mk (SnapshotRef.complete s) (SnapshotRef.error s)
                    tick (SnapshotRef.timestamp s) (SnapshotRef.unsubscribed s)
                    pushed
                    (SnapshotRef.valuesFlushed s)))
  end.

(** [beforeSubscribe]: a fresh SnapshotRef on the ref; the sentinel is
    taken from the ref's GraphRef when graphing is enabled (otherwise a
    warning is printed and [sentinel_] is left as it is). *)
Definition beforeSubscribe (ref : Ref) (now : Z) (st : State) : result State :=
  let st1 :=
    setSnapshotRef st ref
      (SnapshotRef.mk false undefined (State.spy_tick st) now false [] 0) in
  match getGraphRef st1 ref with
  | Some graphRef => Ok (with_sentinel_ st1 (Some (GraphRef.sentinel graphRef)))
  | None => Ok st1
  end.

(** The lifecycle events a subscription's ref goes through after its
    [beforeSubscribe], each with the tick the dispatcher gave it. *)
Inductive Event : Type :=
  | ENext (tick : Z) (now : Z) (value : Value)
  | EError (tick : Z) (error : Value)
  | EComplete (tick : Z)
  | EUnsubscribe (tick : Z).

Definition deliver (ref : Ref) (e : Event) (st : State) : result State :=
  match e with
  | ENext t now v => beforeNext ref v now (with_spy_tick st t)
  | EError t err => beforeError ref err (with_spy_tick st t)
  | EComplete t => beforeComplete ref (with_spy_tick st t)
  | EUnsubscribe t => afterUnsubscribe ref (with_spy_tick st t)
  end.

(** The values of the next-events among [es], in delivery order. *)
Fixpoint nexts (es : list Event) : list Value :=
  match es with
  | [] => []
  | ENext _ _ v :: es' => v :: nexts es'
  | _ :: es' => nexts es'
  end.

(** The last [n] elements of a list. *)
Definition lastn {A : Type} (n : nat) (l : list A) : list A :=
  skipn (length l - n) l.

(** What the history of a ref must look like after the values [h] have
  been delivered to it under the bound [kept]. *)
Definition history_of (kept : Z) (h : list Value) (s : SnapshotRef) : Prop :=
  map (@ValueEntry.value Value) (SnapshotRef.values s)
  = lastn (Z.to_nat kept) h /\
  SnapshotRef.valuesFlushed s + Z.of_nat (length (SnapshotRef.values s))
  = Z.of_nat (length h).

End SnapshotPluginModel.

(** ** Concrete inputs: values are natural numbers, [undefined] is 0 *)

(** A plugin with the default bound, before any subscription. *)
Definition empty_state : State.t nat :=
  new_SnapshotPlugin
    (State.mk 0 None 0
       (fun _ => SubscriptionRef.mk 0%nat 0%nat None 0 false)
       (fun _ => None)
       (fun _ => GraphRef.mk [] 0 None 0%nat None [] 0)
       (fun _ => None))
    None.

(** Six next-events, at ticks 2 to 7, carrying the values 11 to 16. *)
Definition six_nexts : list (@Event nat) :=
  [ENext 2 100 11%nat; ENext 3 101 12%nat; ENext 4 102 13%nat;
   ENext 5 103 14%nat; ENext 6 104 15%nat; ENext 7 105 16%nat].

(* ================================================================== *)
(** * snapshot-plugin.ts: the graph walk and [snapshotAll]             *)
(* ================================================================== *)

(** Within one snapshot, the SubscriptionSnapshot object made for the
    ref [r] is designated by [r]; [None] is [undefined]. *)
Definition Handle := option Ref.

(** [Map<Subscription, SubscriptionSnapshot>]: the key is a Subscription
    (or [undefined]), the value a reference to a snapshot object. *)
Definition SubscriptionMap := list (option SubscriptionId * Handle).

(** [interface SubscriptionSnapshot]. *)
Module SubscriptionSnapshot.
Record t {Value : Type} := mk {
  complete : bool;
  error : Value;
  id : String.string;
  merges : SubscriptionMap;
  mergesFlushed : Z;
  observable : ObservableId;
  rootSink : Handle;
  sink : Handle;
  sourceMapsResolved : PromiseId;
  sources : SubscriptionMap;
  sourcesFlushed : Z;
  stackTrace : list String.string;
  subscriber : SubscriberId;
  subscription : option SubscriptionId;
  tick : Z;
  timestamp : Z;
  unsubscribed : bool
}.
Arguments t : clear implicits.
End SubscriptionSnapshot.

(** [interface ObservableSnapshot]. *)
Module ObservableSnapshot.
Record t := mk {
  id : String.string;
  observable : ObservableId;
  path : String.string;
  subscriptions : SubscriptionMap;
  tag : option String.string;
  tick : Z;
  type : String.string
}.
End ObservableSnapshot.

(** [interface SubscriberSnapshot]. *)
Module SubscriberSnapshot.
Record t {Value : Type} := mk {
  id : String.string;
  subscriber : SubscriberId;
  subscriptions : SubscriptionMap;
  tick : Z;
  values : list (ValueEntry.t Value);
  valuesFlushed : Z
}.
Arguments t : clear implicits.
End SubscriberSnapshot.

(** [interface Snapshot].  [objects] holds the SubscriptionSnapshot
    objects the maps refer to, in the order of their creation;
    [sourceMapsResolved] is the list of promises the aggregate promise
    waits for; [address] is the identity of the returned object. *)
Module Snapshot.
Record t {Value : Type} := mk {
  observables : list (ObservableId * ObservableSnapshot.t);
  sourceMapsResolved : list PromiseId;
  subscribers : list (SubscriberId * SubscriberSnapshot.t Value);
  subscriptions : SubscriptionMap;
  tick : Z;
  objects : list (Ref * SubscriptionSnapshot.t Value);
  address : nat
}.
Arguments t : clear implicits.
End Snapshot.

(** Modelled from the spec: the lookups of identify.ts, match.ts,
    util.ts and stack-trace-plugin.ts that [snapshotAll] calls, none of
    which is among the sources.  An identity is assigned on first sight
    and stable afterwards; [coreSubscribe_] identifies the observable,
    the subscriber and the ref before any plugin sees them, so that
    [identify] only reads here.  The tag, the inferred path and type,
    and the stack trace with its promise are opaque to the plugin. *)
Module Lookups.
Record t := mk {
  identify_ref : Ref -> String.string;
  identify_subscriber : SubscriberId -> String.string;
  identify_observable : ObservableId -> String.string;
  inferPath : ObservableId -> String.string;
  inferType : ObservableId -> String.string;
  read : ObservableId -> option String.string;
  getStackTrace : Ref -> list String.string;
  getSourceMapsResolved : Ref -> PromiseId
}.
End Lookups.

(** The map filled by the walk, and the refs on which
    [addSubscriptionRefs_] has been called so far, in call order (the
    latter is kept for the proofs only). *)
Module Walk.
Record t := mk {
  map : list (Ref * bool);
  calls : list Ref
}.
End Walk.

Section SnapshotAll.
Context {Value : Type}.
Variable lookups : Lookups.t.

Local Abbreviation State := (State.t Value).

(** [addSubscriptionRefs_(ref, map)].  [fuel] bounds the depth of the
    recursion, which the program does not bound. *)
Fixpoint addSubscriptionRefs_ (st : State) (fuel : nat) (ref : Ref)
    (w : Walk.t) : result Walk.t :=
  match fuel with
  | O => OutOfFuel
  | S fuel' =>
      let w1 := Walk.mk (mset Nat.eqb ref true (Walk.map w))
                        (Walk.calls w ++ [ref]) in
      match getGraphRef st ref with
      | None => TypeError
      | Some graphRef =>
          rbind (rforEach (addSubscriptionRefs_ st fuel')
                          (GraphRef.merges graphRef) w1)
                (rforEach (addSubscriptionRefs_ st fuel')
                          (GraphRef.sources graphRef))
      end
  end.

(** [getSubscriptionRefs_()]: the walk from the sources of the sentinel,
    none when no subscription has been seen with graphing enabled. *)
Definition getSubscriptionRefs_ (st : State) (fuel : nat) : result Walk.t :=
  match State.sentinel_ st with
  | Some sentinel_ =>
      rforEach (addSubscriptionRefs_ st fuel)
               (GraphRef.sources (State.graphRefs st sentinel_))
               (Walk.mk [] [])
  | None => Ok (Walk.mk [] [])
  end.

(** The maps and objects under construction in [snapshotAll]. *)
Record Building := mkBuilding {
  b_observables : list (ObservableId * ObservableSnapshot.t);
  b_promises : list PromiseId;
  b_subscribers : list (SubscriberId * SubscriberSnapshot.t Value);
  b_subscriptions : SubscriptionMap;
  b_objects : list (Ref * SubscriptionSnapshot.t Value)
}.

(** The body of the first [subscriptionRefs.forEach]: the snapshot
    object of [ref], entered under its subscription, its subscriber and
    its observable. *)
Definition snapshot_ref (st : State) (ref : Ref) (b : Building)
  : result Building :=
  let observable := SubscriptionRef.observable (State.refs st ref) in
  let subscriber := SubscriptionRef.subscriber (State.refs st ref) in
  let subscription := SubscriptionRef.subscription (State.refs st ref) in
  match getGraphRef st ref with
  | None => TypeError
  | Some graphRef =>
  match getSnapshotRef st ref with
  | None => TypeError
  | Some snapshotRef =>
      let tick := SnapshotRef.tick snapshotRef in
      let sourceMapsResolved := Lookups.getSourceMapsResolved lookups ref in
      let subscriptionSnapshot :=
        SubscriptionSnapshot.mk
          (SnapshotRef.complete snapshotRef)
          (SnapshotRef.error snapshotRef)
          (Lookups.identify_ref lookups ref)
          []
          (GraphRef.mergesFlushed graphRef)
          observable
          None
          None
          sourceMapsResolved
          []
          (GraphRef.sourcesFlushed graphRef)
          (Lookups.getStackTrace lookups ref)
          subscriber
          subscription
          tick
          (SnapshotRef.timestamp snapshotRef)
          (SnapshotRef.unsubscribed snapshotRef) in
      let subscriberSnapshot :=
        match mget Nat.eqb subscriber (b_subscribers b) with
        | Some s => s
        | None =>
            SubscriberSnapshot.mk
              (Lookups.identify_subscriber lookups subscriber)
              subscriber [] tick [] 0
        end in
      let observableSnapshot :=
        match mget Nat.eqb observable (b_observables b) with
        | Some o => o
        | None =>
            ObservableSnapshot.mk
              (Lookups.identify_observable lookups observable)
              observable
              (Lookups.inferPath lookups observable)
              []
              (Lookups.read lookups observable)
              tick
              (Lookups.inferType lookups observable)
        end in
      Ok (mkBuilding
            (mset Nat.eqb observable
               (ObservableSnapshot.mk
                  (ObservableSnapshot.id observableSnapshot)
                  (ObservableSnapshot.observable observableSnapshot)
                  (ObservableSnapshot.path observableSnapshot)
                  (mset opt_eqb subscription (Some ref)
                     (ObservableSnapshot.subscriptions observableSnapshot))
                  (ObservableSnapshot.tag observableSnapshot)
                  (Z.max (ObservableSnapshot.tick observableSnapshot) tick)
                  (ObservableSnapshot.type observableSnapshot))
               (b_observables b))
            (b_promises b ++ [sourceMapsResolved])
            (mset Nat.eqb subscriber
               (SubscriberSnapshot.mk
                  (SubscriberSnapshot.id subscriberSnapshot)
                  (SubscriberSnapshot.subscriber subscriberSnapshot)
                  (mset opt_eqb subscription (Some ref)
                     (SubscriberSnapshot.subscriptions subscriberSnapshot))
                  (Z.max (SubscriberSnapshot.tick subscriberSnapshot) tick)
                  (SubscriberSnapshot.values subscriberSnapshot
                     ++ SnapshotRef.values snapshotRef)
                  (SubscriberSnapshot.valuesFlushed subscriberSnapshot
                     + SnapshotRef.valuesFlushed snapshotRef))
               (b_subscribers b))
            (mset opt_eqb subscription (Some ref) (b_subscriptions b))
            (b_objects b ++ [(ref, subscriptionSnapshot)]))
  end
  end.

(** Writing a field of the snapshot object behind a handle; a write
    through [undefined] throws. *)
Definition get_object (h : Handle)
    (objects : list (Ref * SubscriptionSnapshot.t Value))
  : option (SubscriptionSnapshot.t Value) :=
  match h with
  | Some r => mget Nat.eqb r objects
  | None => None
  end.

Definition put_object (r : Ref) (o : SubscriptionSnapshot.t Value)
    (objects : list (Ref * SubscriptionSnapshot.t Value))
  : list (Ref * SubscriptionSnapshot.t Value) :=
  mset Nat.eqb r o objects.

(** [refs.forEach((x) => map.set(x.subscription,
    subscriptions.get(x.subscription)))], the copying of an edge list
    of the graph into a map of a snapshot object. *)
Definition link_edges (st : State) (subscriptions : SubscriptionMap)
    (edges : list Ref) (m : SubscriptionMap) : SubscriptionMap :=
  fold_left
    (fun acc x =>
       let key := SubscriptionRef.subscription (State.refs st x) in
       mset opt_eqb key
            (match mget opt_eqb key subscriptions with
             | Some h => h
             | None => None
             end)
            acc)
    edges m.

(** The body of the second [subscriptionRefs.forEach]: the edges of the
    snapshot object found under the ref's subscription.  Were that
    object [undefined], the first write through it would throw; the
    first [forEach] has entered one for every ref walked here. *)
Definition link_ref (st : State) (ref : Ref) (b : Building) : result Building :=
  match getGraphRef st ref with
  | None => TypeError
  | Some graphRef =>
      let lookup (r : Ref) : Handle :=
        match mget opt_eqb (SubscriptionRef.subscription (State.refs st r))
                   (b_subscriptions b) with
        | Some h => h
        | None => None
        end in
      match lookup ref, get_object (lookup ref) (b_objects b) with
      | Some target, Some o =>
          let o' :=
            SubscriptionSnapshot.mk
              (SubscriptionSnapshot.complete o)
              (SubscriptionSnapshot.error o)
              (SubscriptionSnapshot.id o)
              (link_edges st (b_subscriptions b)
                 (GraphRef.merges graphRef) (SubscriptionSnapshot.merges o))
              (SubscriptionSnapshot.mergesFlushed o)
              (SubscriptionSnapshot.observable o)
              (match GraphRef.rootSink graphRef with
               | Some r => lookup r
               | None => SubscriptionSnapshot.rootSink o
               end)
              (match GraphRef.sink graphRef with
               | Some r => lookup r
               | None => SubscriptionSnapshot.sink o
               end)
              (SubscriptionSnapshot.sourceMapsResolved o)
              (link_edges st (b_subscriptions b)
                 (GraphRef.sources graphRef) (SubscriptionSnapshot.sources o))
              (SubscriptionSnapshot.sourcesFlushed o)
              (SubscriptionSnapshot.stackTrace o)
              (SubscriptionSnapshot.subscriber o)
              (SubscriptionSnapshot.subscription o)
              (SubscriptionSnapshot.tick o)
              (SubscriptionSnapshot.timestamp o)
              (SubscriptionSnapshot.unsubscribed o) in
          Ok (mkBuilding (b_observables b) (b_promises b)
                (b_subscribers b) (b_subscriptions b)
                (put_object target o' (b_objects b)))
      | _, _ =>
          match GraphRef.sink graphRef, GraphRef.rootSink graphRef,
                GraphRef.merges graphRef, GraphRef.sources graphRef with
          | None, None, [], [] => Ok b
          | _, _, _, _ => TypeError
          end
      end
  end.

(** [values.sort((a, b) => a.tick - b.tick)]: ascending in the tick,
    entries of equal tick keeping their order. *)
Fixpoint insert_by_tick (x : ValueEntry.t Value) (l : list (ValueEntry.t Value))
  : list (ValueEntry.t Value) :=
  match l with
  | [] => [x]
  | y :: l' =>
      if ValueEntry.tick x <? ValueEntry.tick y
      then x :: y :: l'
      else y :: insert_by_tick x l'
  end.

Definition sort_by_tick (l : list (ValueEntry.t Value))
  : list (ValueEntry.t Value) :=
  fold_left (fun acc x => insert_by_tick x acc) l [].

Definition sort_values (s : SubscriberSnapshot.t Value)
  : SubscriberSnapshot.t Value :=
  SubscriberSnapshot.mk
    (SubscriberSnapshot.id s) (SubscriberSnapshot.subscriber s)
    (SubscriberSnapshot.subscriptions s) (SubscriberSnapshot.tick s)
    (sort_by_tick (SubscriberSnapshot.values s))
    (SubscriberSnapshot.valuesFlushed s).

(** [map.forEach((value, key) => { if (stale(value)) map.delete(key) })]:
    the entries are visited in order and a stale one is deleted from the
    map being walked. *)
Definition delete_stale {K V : Type} (eqb : K -> K -> bool)
    (stale : V -> bool) (m : list (K * V)) : list (K * V) :=
  fold_left
    (fun acc kv => if stale (snd kv) then mdelete eqb (fst kv) acc else acc)
    m m.

(** [value.tick <= since.tick] for a subscription entry: the tick is read
    from the snapshot object; on [undefined] the read would throw, which
    cannot happen for the handles entered by [snapshot_ref]. *)
Definition subscription_stale (sinceTick : Z)
    (objects : list (Ref * SubscriptionSnapshot.t Value)) (h : Handle) : bool :=
  match get_object h objects with
  | Some o => SubscriptionSnapshot.tick o <=? sinceTick
  | None => false
  end.

(** [snapshotAll({ since })].  [heap] is the number of Snapshot objects
    created so far; the returned object takes the next identity. *)
Definition snapshotAll (fuel : nat) (since : option (Snapshot.t Value))
    (st : State) (heap : nat) : result (Snapshot.t Value * nat) :=
  rbind (getSubscriptionRefs_ st fuel) (fun w =>
  let subscriptionRefs := mkeys (Walk.map w) in
  rbind (rforEach (snapshot_ref st) subscriptionRefs
                  (mkBuilding [] [] [] [] [])) (fun b1 =>
  rbind (rforEach (link_ref st) subscriptionRefs b1) (fun b2 =>
  let subscribers :=
    map (fun kv => (fst kv, sort_values (snd kv))) (b_subscribers b2) in
  let observables := b_observables b2 in
  let subscriptions := b_subscriptions b2 in
  let tick := State.spy_tick st in
  match since with
  | Some s =>
      let sinceTick := Snapshot.tick s in
      Ok (Snapshot.mk
            (delete_stale Nat.eqb
               (fun v => ObservableSnapshot.tick v <=? sinceTick) observables)
            (b_promises b2)
            (delete_stale Nat.eqb
               (fun v => SubscriberSnapshot.tick v <=? sinceTick) subscribers)
            (delete_stale opt_eqb
               (subscription_stale sinceTick (b_objects b2)) subscriptions)
            tick (b_objects b2) heap,
          S heap)
  | None =>
      Ok (Snapshot.mk observables (b_promises b2) subscribers subscriptions
            tick (b_objects b2) heap,
          S heap)
  end))).

(** ** The shape of the graph *)

(** The refs that [addSubscriptionRefs_] recurses into from [r]. *)
Definition children (st : State) (r : Ref) : list Ref :=
  match getGraphRef st r with
  | Some g => GraphRef.merges g ++ GraphRef.sources g
  | None => []
  end.

(** [descendant st r x]: [x] is [r] or is reached from [r] along
    [merges] and [sources]. *)
Inductive descendant (st : State) : Ref -> Ref -> Prop :=
| descendant_refl r : descendant st r r
| descendant_step r c x :
    In c (children st r) -> descendant st c x -> descendant st r x.

(** The top-level subscriptions: the sources of the sentinel. *)
Definition roots (st : State) : list Ref :=
  match State.sentinel_ st with
  | Some a => GraphRef.sources (State.graphRefs st a)
  | None => []
  end.

(** The subscriptions reachable from the sentinel. *)
Definition reachable (st : State) (x : Ref) : Prop :=
  exists r, In r (roots st) /\ descendant st r x.

(** An acyclic graph in which graphing covers every ref that the walk
    meets: [rank] decreases along every edge. *)
Definition well_formed (st : State) (rank : Ref -> nat) : Prop :=
  (forall r c, In c (children st r) -> (rank c < rank r)%nat) /\
  (forall x, reachable st x -> getGraphRef st x <> None).

(** [walk_extend w l]: the walk [w] after calls on the refs [l]. *)
Definition walk_extend (w : Walk.t) (l : list Ref) : Walk.t :=
  Walk.mk (fold_left (fun m r => mset Nat.eqb r true m) l (Walk.map w))
          (Walk.calls w ++ l).

End SnapshotAll.

(** The maps under construction have distinct keys, and every handle
    entered under a subscription designates a snapshot object. *)
Definition building_ok {Value : Type} (b : @Building Value) : Prop :=
  NoDup (mkeys (b_observables b)) /\
  NoDup (mkeys (b_subscribers b)) /\
  NoDup (mkeys (b_subscriptions b)) /\
  (forall k h, In (k, h) (b_subscriptions b) ->
     exists r, h = Some r /\ In r (mkeys (b_objects b))).

(** ** A diamond: 1 consumes 2 and 3, which both consume 4 *)

Definition diamond_state : State.t nat :=
  State.mk 4 (Some 0%nat) 9
    (fun r => SubscriptionRef.mk (10 + r)%nat (20 + r)%nat (Some (30 + r)%nat)
                                 0 false)
    (fun r => if (1 <=? r)%nat && (r <=? 4)%nat then Some r else None)
    (fun a =>
       match a with
       | 0%nat => GraphRef.mk [] 0 None 0%nat None [1%nat] 0
       | 1%nat => GraphRef.mk [] 0 None 0%nat None [2%nat; 3%nat] 0
       | 2%nat => GraphRef.mk [] 0 (Some 1%nat) 0%nat (Some 1%nat) [4%nat] 0
       | 3%nat => GraphRef.mk [] 0 (Some 1%nat) 0%nat (Some 1%nat) [4%nat] 0
       | _ => GraphRef.mk [] 0 (Some 1%nat) 0%nat (Some 3%nat) [] 0
       end)
    (fun r => Some (SnapshotRef.mk false 0%nat (Z.of_nat r) 0 false [] 0)).

Definition diamond_rank (r : Ref) : nat :=
  match r with
  | 1%nat => 3%nat
  | 2%nat => 2%nat
  | 3%nat => 2%nat
  | 4%nat => 1%nat
  | _ => 0%nat
  end.

(** ** Snapshots of the diamond *)

Definition diamond_lookups : Lookups.t :=
  Lookups.mk (fun _ => String.EmptyString) (fun _ => String.EmptyString)
             (fun _ => String.EmptyString) (fun _ => String.EmptyString)
             (fun _ => String.EmptyString) (fun _ => None)
             (fun _ => []) (fun r => (40 + r)%nat).

(** A snapshot taken at tick 2, before any subscription. *)
Definition earlier_snapshot : Snapshot.t nat :=
  Snapshot.mk [] [] [] [] 2 [] 0%nat.

Definition returned_snapshot (r : result (Snapshot.t nat * nat))
  : Snapshot.t nat :=
  match r with
  | Ok (s, _) => s
  | _ => Snapshot.mk [] [] [] [] 0 [] 0%nat
  end.

Definition diamond_first : Snapshot.t nat :=
  Eval vm_compute in
    returned_snapshot (snapshotAll diamond_lookups 4 None diamond_state 0).

Definition diamond_since : Snapshot.t nat :=
  Eval vm_compute in
    returned_snapshot
      (snapshotAll diamond_lookups 4 (Some earlier_snapshot) diamond_state 1).

(* ================================================================== *)
(** * spy-core.ts: the dispatcher                                      *)
(* ================================================================== *)

Module SpyCore.

Definition SpyId := nat.   (* a SpyCore instance *)

(** [++tick_] on the JavaScript number [tick_].  The counter is 0 after
    the constructor and nothing but [++] writes it, so it is an integer
    between 0 and 2^53; below 2^53 the sum is exact, and at 2^53 the sum
    2^53 + 1 is not a number of the format and is rounded back to 2^53:
    the counter stays where it is. *)
Definition increment (t : Z) : Z := if t <? 2 ^ 53 then t + 1 else t.
Arguments increment : simpl never.

(** The two functions [Observable.prototype.subscribe] is bound to. *)
Inductive Subscribe : Type :=
| observableSubscribe    (* the original, saved at module load *)
| coreSubscribe_.        (* SpyCore.coreSubscribe_ *)

Section Model.
Context {Plugin Value Tracked Host : Type}.

(** What a [throw] carries: an [Error] made by the core, or any value
    thrown by a callback or by the host. *)
Inductive Exn : Type :=
| Error (message : String.string)
| Raised (v : Value).

Inductive Outcome (A : Type) : Type :=
| Return (a : A)
| Throw (e : Exn).
Arguments Return {A} a.
Arguments Throw {A} e.

(** The places of a dispatch at which an observation is taken. *)
Inductive Point : Type :=
| BeforeCallback (plugin : Plugin)
| Action
| AfterCallback (plugin : Plugin).

(** What a probe sees when the callback or action it wraps is entered:
    [batch] is the label given to the dispatch by whoever placed the
    probe. *)
Record Observation := mkObservation {
  batch : nat;
  point : Point;
  seen_tick : Z;
  seen_unsubscribed : bool
}.

(** The state of the program: the static [SpyCore.spy_], the patched
    method, the fields of every SpyCore instance, the flags of every
    subscription made through [coreSubscribe_], the console, the state
    of the plugins ([tracked]) and of the host library ([host]).
    [observations] is written by probes only; it is not a part of the
    program.  ([defaultLogger_], [pluginsSubject_] -- which always
    holds [plugins_] -- [undos_] and [teardown_] play no part in the
    dispatch and are left out.) *)
Record World := mkWorld {
  spy_ : option SpyId;
  subscribe : Subscribe;
  instances : nat;
  tick_ : SpyId -> Z;
  plugins_ : SpyId -> list Plugin;
  ref_unsubscribed : Ref -> bool;
  postLetObserver_unsubscribed : Ref -> bool;
  console : list String.string;
  observations : list Observation;
  tracked : Tracked;
  host : Host
}.

Definition set_spy_ (v : option SpyId) (w : World) : World :=
  mkWorld v (subscribe w) (instances w) (tick_ w) (plugins_ w)
    (ref_unsubscribed w) (postLetObserver_unsubscribed w) (console w)
    (observations w) (tracked w) (host w).

Definition set_subscribe (v : Subscribe) (w : World) : World :=
  mkWorld (spy_ w) v (instances w) (tick_ w) (plugins_ w)
    (ref_unsubscribed w) (postLetObserver_unsubscribed w) (console w)
    (observations w) (tracked w) (host w).

Definition set_instances (v : nat) (w : World) : World :=
  mkWorld (spy_ w) (subscribe w) v (tick_ w) (plugins_ w)
    (ref_unsubscribed w) (postLetObserver_unsubscribed w) (console w)
    (observations w) (tracked w) (host w).

Definition set_tick_ (s : SpyId) (v : Z) (w : World) : World :=
  mkWorld (spy_ w) (subscribe w) (instances w) (upd (tick_ w) s v) (plugins_ w)
    (ref_unsubscribed w) (postLetObserver_unsubscribed w) (console w)
    (observations w) (tracked w) (host w).

Definition set_plugins_ (s : SpyId) (v : list Plugin) (w : World) : World :=
  mkWorld (spy_ w) (subscribe w) (instances w) (tick_ w) (upd (plugins_ w) s v)
    (ref_unsubscribed w) (postLetObserver_unsubscribed w) (console w)
    (observations w) (tracked w) (host w).

Definition set_ref_unsubscribed (ref : Ref) (v : bool) (w : World) : World :=
  mkWorld (spy_ w) (subscribe w) (instances w) (tick_ w) (plugins_ w)
    (upd (ref_unsubscribed w) ref v) (postLetObserver_unsubscribed w)
    (console w) (observations w) (tracked w) (host w).

Definition set_postLetObserver_unsubscribed (ref : Ref) (v : bool) (w : World)
  : World :=
  mkWorld (spy_ w) (subscribe w) (instances w) (tick_ w) (plugins_ w)
    (ref_unsubscribed w) (upd (postLetObserver_unsubscribed w) ref v)
    (console w) (observations w) (tracked w) (host w).

Definition set_console (v : list String.string) (w : World) : World :=
  mkWorld (spy_ w) (subscribe w) (instances w) (tick_ w) (plugins_ w)
    (ref_unsubscribed w) (postLetObserver_unsubscribed w) v
    (observations w) (tracked w) (host w).

Definition set_observations (v : list Observation) (w : World) : World :=
  mkWorld (spy_ w) (subscribe w) (instances w) (tick_ w) (plugins_ w)
    (ref_unsubscribed w) (postLetObserver_unsubscribed w) (console w)
    v (tracked w) (host w).

Definition set_host (v : Host) (w : World) : World :=
  mkWorld (spy_ w) (subscribe w) (instances w) (tick_ w) (plugins_ w)
    (ref_unsubscribed w) (postLetObserver_unsubscribed w) (console w)
    (observations w) (tracked w) v.

(** ** Computations that read and write the world and may throw *)

Definition M (A : Type) : Type := World -> Outcome A * World.

Definition ret {A : Type} (a : A) : M A := fun w => (Return a, w).

Definition throw {A : Type} (e : Exn) : M A := fun w => (Throw e, w).

Definition bind {A B : Type} (c : M A) (k : A -> M B) : M B :=
  fun w =>
    match c w with
    | (Return a, w') => k a w'
    | (Throw e, w') => (Throw e, w')
    end.

Definition seq {A B : Type} (c : M A) (k : M B) : M B :=
  bind c (fun _ => k).

Definition gets {A : Type} (f : World -> A) : M A := fun w => (Return (f w), w).

Definition modify (f : World -> World) : M unit := fun w => (Return tt, f w).

(** [try { body } catch (error) { handler } finally { finalizer }]: the
    outcome of the body, or of the handler when the body throws, stands
    unless the finalizer throws. *)
Definition try_catch_finally {A : Type} (body : M A) (handler : Exn -> M A)
    (finalizer : M unit) : M A :=
  fun w =>
    let (o, w1) :=
      match body w with
      | (Return a, w') => (Return a, w')
      | (Throw e, w') => handler e w'
      end in
    match finalizer w1 with
    | (Return _, w2) => (o, w2)
    | (Throw e, w2) => (Throw e, w2)
    end.

(** [array.forEach(callback)] over the elements the array has when the
    call begins. *)
Fixpoint forEach {A : Type} (xs : list A) (callback : A -> M unit) : M unit :=
  match xs with
  | [] => ret tt
  | x :: xs' => seq (callback x) (forEach xs' callback)
  end.

(** ** [class SpyCore] *)

(** The options of the constructor that the model reads.
    [defaultPlugins] is [false] exactly when the option is [false]. *)
Record Options := mkOptions {
  warning : bool;
  defaultPlugins : bool
}.

(** The five plugins the constructor creates for an instance, and what
    the installation of the detector hook and of [window.rxSpy] does to
    the host; neither is defined in this file of the program. *)
Variable default_plugins : SpyId -> list Plugin.
Variable install : SpyId -> Host -> Host.

(** [new SpyCore(options)].  The new instance is [instances w]. *)
Definition new_SpyCore (options : Options) : M SpyId :=
  fun w =>
    match spy_ w with
    | Some _ =>
        (Throw
           (Error "Already spying on Observable.prototype.subscribe."%string),
         w)
    | None =>
        let this := instances w in
        let w1 :=
          if warning options
          then set_console
                 (console w
                    ++ ["Spying on Observable.prototype.subscribe."%string])
                 w
          else w in
        let w2 := set_subscribe coreSubscribe_ (set_spy_ (Some this) w1) in
        let w3 :=
          set_plugins_ this
            (if defaultPlugins options then default_plugins this else []) w2 in
        let w4 := set_tick_ this 0 w3 in
        let w5 := set_host (install this (host w4)) w4 in
        (Return this, set_instances (S this) w5)
    end.

(** [get tick()]. *)
Definition tick (this : SpyId) : M Z := gets (fun w => tick_ w this).

(** [ignore(block)]. *)
Definition ignore {R : Type} (this : SpyId) (block : M R) : M R :=
  seq (modify (set_spy_ None))
      (try_catch_finally block
         (fun error => throw error)
         (modify (set_spy_ (Some this)))).

(** ** [coreSubscribe_]: the dispatch of the lifecycle notifications *)

(** [notify_(before, block, after)] of the closure made for a
    subscription while [spy_] was the active instance. *)
Definition notify_ (spy_ : SpyId) (before : Plugin -> M unit) (block : M unit)
    (after : Plugin -> M unit) : M unit :=
  seq (modify (fun w => set_tick_ spy_ (increment (tick_ w spy_)) w))
 (bind (gets (fun w => plugins_ w spy_)) (fun plugins =>
  seq (forEach plugins before)
 (seq block
 (bind (gets (fun w => plugins_ w spy_)) (fun plugins' =>
  forEach plugins' after))))).

(** Modelled from the spec: [interface Plugin] of plugin.ts, which is not
    among the sources; a plugin implements a uniform notification
    interface, of which these are the callbacks that [coreSubscribe_]
    calls.  [methods p] are the methods of the plugin object [p]. *)
Record PluginMethods := mkPluginMethods {
  beforeComplete : Ref -> M unit;
  afterComplete : Ref -> M unit;
  beforeError : Ref -> Value -> M unit;
  afterError : Ref -> Value -> M unit;
  beforeNext : Ref -> Value -> M unit;
  afterNext : Ref -> Value -> M unit;
  beforeSubscribe : Ref -> M unit;
  afterSubscribe : Ref -> M unit;
  beforeUnsubscribe : Ref -> M unit;
  afterUnsubscribe : Ref -> M unit
}.

Variable methods : Plugin -> PluginMethods.

(** The subscriber's own handlers and the operations of the host library
    (rxjs) that the closures of [coreSubscribe_] call, as parameters. *)
Record Subscriber := mkSubscriber {
  subscriber_complete : M unit;
  subscriber_error : Value -> M unit;
  subscriber_next : Value -> M unit;
  postLetUnsubscribe : M unit;            (* Subscriber.prototype.unsubscribe *)
  pluginsSubscription_unsubscribe : M unit;
  observableSubscribe_call : M unit       (* observableSubscribe.call(...) *)
}.

(** [postLetObserver.complete]. *)
Definition postLetObserver_complete (spy_ : SpyId) (ref : Ref)
    (subscriber : Subscriber) : M unit :=
  notify_ spy_
    (fun plugin => beforeComplete (methods plugin) ref)
    (subscriber_complete subscriber)
    (fun plugin => afterComplete (methods plugin) ref).

(** [postLetObserver.error]; the warning about an error that is not an
    [Error] instance is not represented. *)
Definition postLetObserver_error (spy_ : SpyId) (ref : Ref)
    (subscriber : Subscriber) (error : Value) : M unit :=
  notify_ spy_
    (fun plugin => beforeError (methods plugin) ref error)
    (subscriber_error subscriber error)
    (fun plugin => afterError (methods plugin) ref error).

(** [postLetObserver.next]. *)
Definition postLetObserver_next (spy_ : SpyId) (ref : Ref)
    (subscriber : Subscriber) (value : Value) : M unit :=
  notify_ spy_
    (fun plugin => beforeNext (methods plugin) ref value)
    (subscriber_next subscriber value)
    (fun plugin => afterNext (methods plugin) ref value).

(** The action of the unsubscribe notification. *)
Definition unsubscribe_block (ref : Ref) (subscriber : Subscriber) : M unit :=
  seq (postLetUnsubscribe subscriber)
 (seq (pluginsSubscription_unsubscribe subscriber)
      (modify (set_ref_unsubscribed ref true))).

(** [postLetSubscriber.unsubscribe], as replaced by [coreSubscribe_],
    with the callbacks and the action given. *)
Definition unsubscribe_with (spy_ : SpyId) (ref : Ref)
    (before : Plugin -> M unit) (block : M unit) (after : Plugin -> M unit)
    (otherwise : M unit) : M unit :=
  bind (gets (fun w => postLetObserver_unsubscribed w ref)) (fun unsubscribed =>
  if negb unsubscribed
  then seq (modify (set_postLetObserver_unsubscribed ref true))
           (notify_ spy_ before block after)
  else otherwise).

Definition postLetSubscriber_unsubscribe (spy_ : SpyId) (ref : Ref)
    (subscriber : Subscriber) : M unit :=
  unsubscribe_with spy_ ref
    (fun plugin => beforeUnsubscribe (methods plugin) ref)
    (unsubscribe_block ref subscriber)
    (fun plugin => afterUnsubscribe (methods plugin) ref)
    (postLetUnsubscribe subscriber).


(** ** Probes *)

(** [probe spy ref k pt c]: record what is seen on entry, then run [c]. *)
Definition probe {A : Type} (spy_ : SpyId) (ref : Ref) (k : nat) (pt : Point)
    (c : M A) : M A :=
  fun w =>
    c (set_observations
         (observations w
            ++ [mkObservation k pt (tick_ w spy_) (ref_unsubscribed w ref)])
         w).

(** A dispatch with a probe on each callback and on the action. *)
Definition probed_before (spy_ : SpyId) (ref : Ref) (k : nat)
    (before : Plugin -> M unit) : Plugin -> M unit :=
  fun plugin => probe spy_ ref k (BeforeCallback plugin) (before plugin).

Definition probed_after (spy_ : SpyId) (ref : Ref) (k : nat)
    (after : Plugin -> M unit) : Plugin -> M unit :=
  fun plugin => probe spy_ ref k (AfterCallback plugin) (after plugin).

Definition probed_notify_ (spy_ : SpyId) (ref : Ref) (k : nat)
    (before : Plugin -> M unit) (block : M unit) (after : Plugin -> M unit)
  : M unit :=
  notify_ spy_
    (probed_before spy_ ref k before)
    (probe spy_ ref k Action block)
    (probed_after spy_ ref k after).

(** [postLetSubscriber.unsubscribe] with the same probes. *)
Definition probed_unsubscribe (spy_ : SpyId) (ref : Ref) (k : nat)
    (subscriber : Subscriber) : M unit :=
  unsubscribe_with spy_ ref
    (probed_before spy_ ref k
       (fun plugin => beforeUnsubscribe (methods plugin) ref))
    (probe spy_ ref k Action (unsubscribe_block ref subscriber))
    (probed_after spy_ ref k
       (fun plugin => afterUnsubscribe (methods plugin) ref))
    (postLetUnsubscribe subscriber).

(** ** Probes do not take part in the program *)

(** The world without its observations. *)
Definition erase (w : World) : World := set_observations [] w.

(** [sim c1 c2]: from worlds that differ in their observations at most,
    [c1] and [c2] have the same outcome and end in worlds that differ in
    their observations at most. *)
Definition sim {A : Type} (c1 c2 : M A) : Prop :=
  forall w1 w2,
    erase w1 = erase w2 ->
    fst (c1 w1) = fst (c2 w2) /\ erase (snd (c1 w1)) = erase (snd (c2 w2)).

(** [c] neither reads nor writes the observations. *)
Definition blind {A : Type} (c : M A) : Prop := sim c c.

(** ** What is assumed of a callback or of a host action *)

(** [c] leaves the part [f] of the world as it found it. *)
Definition preserves {X A : Type} (f : World -> X) (c : M A) : Prop :=
  forall w, f (snd (c w)) = f w.

(** [c] returns; [c] throws [e]. *)
Definition returns (c : M unit) : Prop := forall w, fst (c w) = Return tt.
Definition throws (e : Exn) (c : M unit) : Prop :=
  forall w, fst (c w) = Throw e.

(** [c] places no probe. *)
Definition silent {A : Type} (c : M A) : Prop := preserves observations c.

(** [c] neither plugs nor unplugs a plugin of the instance. *)
Definition keeps_plugins {A : Type} (spy_ : SpyId) (c : M A) : Prop :=
  preserves (fun w => plugins_ w spy_) c.


(** [c] does not write the [unsubscribed] field of the [postLetObserver]
    of [ref], which only the closures of its [coreSubscribe_] can
    reach. *)
Definition keeps_closure {A : Type} (ref : Ref) (c : M A) : Prop :=
  preserves (fun w => postLetObserver_unsubscribed w ref) c.



(** [c] acts on the host library only. *)
Definition host_only {A : Type} (c : M A) : Prop :=
  forall w, snd (c w) = set_host (host (snd (c w))) w.


(** A callback that returns, places no probe and leaves the plugin list
    alone. *)
Definition orderly (spy_ : SpyId) (c : M unit) : Prop :=
  returns c /\ silent c /\ keeps_plugins spy_ c.


(** ** Sequences of notifications *)

(** The three arguments of one call of [notify_], for the ref [n_ref]. *)
Record Notification := mkNotification {
  n_ref : Ref;
  n_before : Plugin -> M unit;
  n_block : M unit;
  n_after : Plugin -> M unit
}.



(** The notifications [ns] dispatched one after the other, probed under
    the labels [k], [k + 1], ...; a notification that throws does so
    into the host, which goes on. *)
Fixpoint dispatch_all (spy_ : SpyId) (k : nat) (ns : list Notification)
    (w : World) : World :=
  match ns with
  | [] => w
  | n :: ns' =>
      dispatch_all spy_ (S k) ns'
        (snd (probed_notify_ spy_ (n_ref n) k
                (n_before n) (n_block n) (n_after n) w))
  end.

End Model.

Arguments Return {Value A} a.
Arguments Throw {Value A} e.

End SpyCore.

(** ** A concrete program: two plugins that record their calls *)

Module Demo.
Import SpyCore.

(** Plugins and values are numbers; the plugins' state is the list of
    the calls they have recorded; the host's state counts the host
    actions performed. *)
Definition World : Type := @SpyCore.World nat (list nat) nat.
Definition M (A : Type) : Type := @SpyCore.M nat nat (list nat) nat A.

Definition set_tracked (v : list nat) (w : World) : World :=
  mkWorld (spy_ w) (subscribe w) (instances w) (tick_ w) (plugins_ w)
    (ref_unsubscribed w) (postLetObserver_unsubscribed w) (console w)
    (observations w) v (host w).

Definition world0 : World :=
  mkWorld None observableSubscribe 0%nat (fun _ => 0) (fun _ => [])
          (fun _ => false) (fun _ => false) [] [] [] 0%nat.

Definition plugins (s : SpyId) : list nat := [0%nat; 1%nat].
Definition install (s : SpyId) (h : nat) : nat := h.

(** The world after [new SpyCore()], whose instance is 0. *)
Definition world1 : World :=
  snd (new_SpyCore (Value := nat) plugins install (mkOptions false true)
         world0).

Definition host_step : M unit := modify (fun w => set_host (S (host w)) w).

Definition record (n : nat) : M unit :=
  modify (fun w => set_tracked (tracked w ++ [n]) w).

(** A subscriber each of whose handlers is one host action. *)
Definition subscriber : @Subscriber nat nat (list nat) nat :=
  mkSubscriber host_step (fun _ => host_step) (fun _ => host_step)
               host_step (ret tt) host_step.

(** Plugin [p] records [2 * p] in a before-callback and [2 * p + 1] in
    an after-callback. *)
Definition recording (p : nat) : @PluginMethods nat nat (list nat) nat :=
  mkPluginMethods
    (fun _ => record (2 * p)) (fun _ => record (2 * p + 1))
    (fun _ _ => record (2 * p)) (fun _ _ => record (2 * p + 1))
    (fun _ _ => record (2 * p)) (fun _ _ => record (2 * p + 1))
    (fun _ => record (2 * p)) (fun _ => record (2 * p + 1))
    (fun _ => record (2 * p)) (fun _ => record (2 * p + 1)).

(** The same plugins, but [beforeNext] and [beforeUnsubscribe] of plugin
    0 throw the value 7. *)
Definition failing (p : nat) : @PluginMethods nat nat (list nat) nat :=
  match p with
  | O =>
      mkPluginMethods
        (fun _ => record 0) (fun _ => record 1)
        (fun _ _ => record 0) (fun _ _ => record 1)
        (fun _ _ => throw (Raised 7%nat)) (fun _ _ => record 1)
        (fun _ => record 0) (fun _ => record 1)
        (fun _ => throw (Raised 7%nat)) (fun _ => record 1)
  | _ => recording p
  end.

(** The same plugins, but [afterNext] of plugin 0 throws the value 8. *)
Definition failing_after (p : nat) : @PluginMethods nat nat (list nat) nat :=
  match p with
  | O =>
      mkPluginMethods
        (fun _ => record 0) (fun _ => record 1)
        (fun _ _ => record 0) (fun _ _ => record 1)
        (fun _ _ => record 0) (fun _ _ => throw (Raised 8%nat))
        (fun _ => record 0) (fun _ => record 1)
        (fun _ => record 0) (fun _ => record 1)
  | _ => recording p
  end.

(** A next notification for ref 5, and a subscribe notification for ref
    6 whose action causes a complete notification for ref 5. *)
Definition next_5 : @Notification nat nat (list nat) nat :=
  mkNotification 5%nat
    (fun p => beforeNext (recording p) 5%nat 9%nat)
    (subscriber_next subscriber 9%nat)
    (fun p => afterNext (recording p) 5%nat 9%nat).

Definition subscribe_6 : @Notification nat nat (list nat) nat :=
  mkNotification 6%nat
    (fun p => beforeSubscribe (recording p) 6%nat)
    (postLetObserver_complete recording 0%nat 5%nat subscriber)
    (fun p => afterSubscribe (recording p) 6%nat).



End Demo.

(* ================================================================== *)
(** * snapshot-plugin.ts: the rest of the plugin                      *)
(* ================================================================== *)

Section SnapshotLookups.
Context {Value : Type}.
Variable lookups : Lookups.t.

Local Abbreviation State := (State.t Value).

(** The maps and the objects of [snapshotAll] as they stand after its
    two [subscriptionRefs.forEach], before the values are sorted and the
    [since] option is looked at. *)
Definition snapshot_building (st : State) (fuel : nat)
  : result (@Building Value) :=
  rbind (getSubscriptionRefs_ st fuel) (fun w =>
  rbind (rforEach (snapshot_ref lookups st) (mkeys (Walk.map w))
                  (mkBuilding [] [] [] [] []))
        (rforEach (link_ref st) (mkeys (Walk.map w)))).

(** [snapshotObservable(ref)]. *)
Definition snapshotObservable (fuel : nat) (ref : Ref) (st : State)
    (heap : nat) : result (option ObservableSnapshot.t * nat) :=
  rbind (snapshotAll lookups fuel None st heap) (fun r =>
  let (snapshot, heap') := r in
  Ok (mget Nat.eqb (SubscriptionRef.observable (State.refs st ref))
           (Snapshot.observables snapshot),
      heap')).

(** [snapshotSubscriber(ref)]. *)
Definition snapshotSubscriber (fuel : nat) (ref : Ref) (st : State)
    (heap : nat) : result (option (SubscriberSnapshot.t Value) * nat) :=
  rbind (snapshotAll lookups fuel None st heap) (fun r =>
  let (snapshot, heap') := r in
  Ok (mget Nat.eqb (SubscriptionRef.subscriber (State.refs st ref))
           (Snapshot.subscribers snapshot),
      heap')).

(** An entry of the [subscriptions] map is recent when the tick of the
    snapshot object it designates is above [sinceTick]. *)
Definition subscription_recent (sinceTick : Z)
    (objects : list (Ref * SubscriptionSnapshot.t Value)) (h : Handle) : bool :=
  match get_object h objects with
  | Some o => sinceTick <? SubscriptionSnapshot.tick o
  | None => true
  end.

(** The SnapshotRef of a ref as [snapshotAll] reads it. *)
Definition ref_tick (st : State) (r : Ref) : Z :=
  match getSnapshotRef st r with
  | Some s => SnapshotRef.tick s
  | None => 0
  end.

Definition ref_values (st : State) (r : Ref) : list (ValueEntry.t Value) :=
  match getSnapshotRef st r with
  | Some s => SnapshotRef.values s
  | None => []
  end.

Definition ref_valuesFlushed (st : State) (r : Ref) : Z :=
  match getSnapshotRef st r with
  | Some s => SnapshotRef.valuesFlushed s
  | None => 0
  end.

(** The refs among [rs] whose subscriber, or observable, is [k]. *)
Definition of_subscriber (st : State) (k : SubscriberId) (rs : list Ref)
  : list Ref :=
  filter (fun r => Nat.eqb (SubscriptionRef.subscriber (State.refs st r)) k) rs.

Definition of_observable (st : State) (k : ObservableId) (rs : list Ref)
  : list Ref :=
  filter (fun r => Nat.eqb (SubscriptionRef.observable (State.refs st r)) k) rs.

(** Ascending in the tick. *)
Definition sorted_by_tick (l : list (ValueEntry.t Value)) : Prop :=
  StronglySorted (fun a b => ValueEntry.tick a <= ValueEntry.tick b) l.

End SnapshotLookups.

Section SnapshotGroups.
Context {Value : Type}.
Variable lookups : Lookups.t.
Variable st : State.t Value.

(** What [snapshotAll] has accumulated in the SubscriberSnapshot of the
    subscriber [k] once the refs of [g], the refs of that subscriber,
    have been visited. *)
Definition subscriber_of_group (k : SubscriberId) (g : list Ref)
    (s : SubscriberSnapshot.t Value) : Prop :=
  g <> [] /\
  SubscriberSnapshot.subscriber s = k /\
  SubscriberSnapshot.id s = Lookups.identify_subscriber lookups k /\
  SubscriberSnapshot.valuesFlushed s
  = fold_right Z.add 0 (map (ref_valuesFlushed st) g) /\
  (exists r, In r g /\ SubscriberSnapshot.tick s = ref_tick st r) /\
  (forall r, In r g -> ref_tick st r <= SubscriberSnapshot.tick s) /\
  (forall key, In key (mkeys (SubscriberSnapshot.subscriptions s)) <->
     exists r, In r g /\ SubscriptionRef.subscription (State.refs st r) = key).

Definition subscribers_grouped (seen : list Ref) (b : @Building Value) : Prop :=
  forall k,
    match mget Nat.eqb k (b_subscribers b) with
    | Some s =>
        subscriber_of_group k (of_subscriber st k seen) s /\
        SubscriberSnapshot.values s
        = concat (map (ref_values st) (of_subscriber st k seen))
    | None => of_subscriber st k seen = []
    end.

(** The same for the ObservableSnapshot of the observable [k]. *)
Definition observable_of_group (k : ObservableId) (g : list Ref)
    (o : ObservableSnapshot.t) : Prop :=
  g <> [] /\
  ObservableSnapshot.observable o = k /\
  ObservableSnapshot.id o = Lookups.identify_observable lookups k /\
  ObservableSnapshot.path o = Lookups.inferPath lookups k /\
  ObservableSnapshot.tag o = Lookups.read lookups k /\
  ObservableSnapshot.type o = Lookups.inferType lookups k /\
  (exists r, In r g /\ ObservableSnapshot.tick o = ref_tick st r) /\
  (forall r, In r g -> ref_tick st r <= ObservableSnapshot.tick o) /\
  (forall key, In key (mkeys (ObservableSnapshot.subscriptions o)) <->
     exists r, In r g /\ SubscriptionRef.subscription (State.refs st r) = key).

Definition observables_grouped (seen : list Ref) (b : @Building Value) : Prop :=
  forall k,
    match mget Nat.eqb k (b_observables b) with
    | Some o => observable_of_group k (of_observable st k seen) o
    | None => of_observable st k seen = []
    end.

End SnapshotGroups.

(** ** One subscriber on two observables

    The subscriber 21 has subscribed to the observables 11 and 12; the
    ref 1 has seen the values of the ticks 3 and 5, the ref 2 the value
    of the tick 4, and each has flushed older ones. *)

Definition shared_state : State.t nat :=
  State.mk 4 (Some 0%nat) 9
    (fun r => SubscriptionRef.mk (10 + r)%nat 21%nat (Some (30 + r)%nat)
                                 0 false)
    (fun r => if (1 <=? r)%nat && (r <=? 2)%nat then Some r else None)
    (fun a =>
       match a with
       | 0%nat => GraphRef.mk [] 0 None 0%nat None [1%nat; 2%nat] 0
       | _ => GraphRef.mk [] 0 None 0%nat None [] 0
       end)
    (fun r =>
       match r with
       | 1%nat =>
           Some (SnapshotRef.mk false 0%nat 5 0 false
                   [ValueEntry.mk 3 0 7%nat; ValueEntry.mk 5 0 8%nat] 1)
       | _ =>
           Some (SnapshotRef.mk false 0%nat 4 0 false
                   [ValueEntry.mk 4 0 9%nat] 2)
       end).

Definition shared_first : Snapshot.t nat :=
  Eval vm_compute in
    returned_snapshot (snapshotAll diamond_lookups 2 None shared_state 0).

Definition shared_subscriber : SubscriberSnapshot.t nat :=
  Eval vm_compute in
    match mget Nat.eqb 21%nat (Snapshot.subscribers shared_first) with
    | Some s => s
    | None => SubscriberSnapshot.mk String.EmptyString 0%nat [] 0 [] 0
    end.

Definition shared_observable : ObservableSnapshot.t :=
  Eval vm_compute in
    match mget Nat.eqb 12%nat (Snapshot.observables shared_first) with
    | Some o => o
    | None =>
        ObservableSnapshot.mk String.EmptyString 0%nat String.EmptyString []
          None 0 String.EmptyString
    end.

(** ** The calls the dispatcher makes to the plugin *)

Section PluginCalls.
Context {Value : Type}.
Variable undefined : Value.

Local Abbreviation State := (State.t Value).

(** A call of the dispatcher to the plugin, with the tick of the spy at
    the time of the call: [beforeSubscribe(ref)], or one of the four
    notifications of [deliver]. *)
Inductive Call : Type :=
  | CSubscribe (ref : Ref) (tick : Z) (now : Z)
  | CEvent (ref : Ref) (e : @Event Value).

Definition call_ref (c : Call) : Ref :=
  match c with
  | CSubscribe r _ _ => r
  | CEvent r _ => r
  end.

Definition call (c : Call) (st : State) : result State :=
  match c with
  | CSubscribe ref t now => beforeSubscribe undefined ref now (with_spy_tick st t)
  | CEvent ref e => deliver ref e st
  end.

(** The calls of a run, in order; the first that throws ends the run. *)
Definition calls (cs : list Call) (st : State) : result State :=
  rforEach call cs st.

Definition concerns (r : Ref) (c : Call) : bool := Nat.eqb (call_ref c) r.

Definition event_tick (e : @Event Value) : Z :=
  match e with
  | ENext t _ _ => t
  | EError t _ => t
  | EComplete t => t
  | EUnsubscribe t => t
  end.

(** The entries of the next-events among [es], in delivery order. *)
Fixpoint entries (es : list (@Event Value)) : list (ValueEntry.t Value) :=
  match es with
  | [] => []
  | ENext t now v :: es' => ValueEntry.mk t now v :: entries es'
  | _ :: es' => entries es'
  end.

Definition is_complete (e : @Event Value) : bool :=
  match e with EComplete _ => true | _ => false end.

Definition is_unsubscribe (e : @Event Value) : bool :=
  match e with EUnsubscribe _ => true | _ => false end.

(** The error of the last error-event, [undefined] when there is none. *)
Definition last_error (es : list (@Event Value)) : Value :=
  fold_left (fun acc e => match e with EError _ err => err | _ => acc end)
            es undefined.

(** The tick of the last event, [t0] when there is none. *)
Definition last_tick (t0 : Z) (es : list (@Event Value)) : Z :=
  fold_left (fun _ e => event_tick e) es t0.

(** What the SnapshotRef of a subscription holds once the events [es]
    have been delivered to it. *)
Definition summary_of (kept t0 now : Z) (es : list (@Event Value))
    (s : SnapshotRef.t Value) : Prop :=
  SnapshotRef.timestamp s = now /\
  SnapshotRef.tick s = last_tick t0 es /\
  SnapshotRef.complete s = existsb is_complete es /\
  SnapshotRef.unsubscribed s = existsb is_unsubscribe es /\
  SnapshotRef.error s = last_error es /\
  SnapshotRef.values s = lastn (Z.to_nat kept) (entries es) /\
  SnapshotRef.valuesFlushed s + Z.of_nat (length (SnapshotRef.values s))
  = Z.of_nat (length (entries es)).

(** Every notification of a ref comes after a [beforeSubscribe] of that
    ref; [seen] holds the refs subscribed so far. *)
Fixpoint subscribed_first (seen : list Ref) (cs : list Call) : bool :=
  match cs with
  | [] => true
  | CSubscribe r _ _ :: cs' => subscribed_first (r :: seen) cs'
  | CEvent r _ :: cs' =>
      existsb (Nat.eqb r) seen && subscribed_first seen cs'
  end.

(** Two states that the calls about [r] cannot tell apart. *)
Definition same_for (r : Ref) (st1 st2 : State) : Prop :=
  getSnapshotRef st1 r = getSnapshotRef st2 r /\
  State.keptValues_ st1 = State.keptValues_ st2 /\
  State.graphRefSymbol st1 = State.graphRefSymbol st2 /\
  State.graphRefs st1 = State.graphRefs st2.

End PluginCalls.

(** Two subscriptions, 1 and 2, whose notifications interleave. *)
Definition interleaved_calls : list (@Call nat) :=
  [CSubscribe 1%nat 1 100; CSubscribe 2%nat 2 101;
   CEvent 1%nat (ENext 3 102 11%nat); CEvent 2%nat (ENext 4 103 21%nat);
   CEvent 1%nat (EError 5 13%nat); CEvent 2%nat (EComplete 6);
   CEvent 1%nat (EUnsubscribe 7)].

(** The state the plugin is constructed on: no graph plugin, no
    subscription yet. *)
Definition blank_state : State.t nat :=
  State.mk 0 None 0
    (fun _ => SubscriptionRef.mk 0%nat 0%nat None 0 false)
    (fun _ => None)
    (fun _ => GraphRef.mk [] 0 None 0%nat None [] 0)
    (fun _ => None).

Definition interleaved_result : State.t nat :=
  Eval vm_compute in
    match calls 0%nat interleaved_calls (new_SnapshotPlugin blank_state None) with
    | Ok st => st
    | _ => blank_state
    end.

(** Three notifications of the subscription 1 after its subscribe: two
    values with an error between them. *)
Definition three_events : list (@Event nat) :=
  [ENext 3 102 11%nat; EError 5 13%nat; ENext 6 104 12%nat].

(* ================================================================== *)
(** * spy-core.ts: the registry of plugins and the teardown           *)
(* ================================================================== *)

Module SpyLifecycle.
Import SpyCore.

(** The fields of a SpyCore instance that the dispatch does not read,
    [undos_] and [teardown_] (here: whether it is defined), kept in the
    host part of the world beside the state of the host library. *)
Record Fields {Plugin Library : Type} := mkFields {
  undos_ : SpyId -> list Plugin;
  teardown_ : SpyId -> bool;
  library : Library
}.
Arguments Fields : clear implicits.

Section Model.
Context {Plugin Value Tracked Library Ctor : Type}.

Local Abbreviation Host := (Fields Plugin Library).
Local Abbreviation World := (@SpyCore.World Plugin Tracked Host).
Local Abbreviation M := (@SpyCore.M Plugin Value Tracked Host).

Definition set_undos_ (s : SpyId) (v : list Plugin) (w : World) : World :=
  set_host (mkFields (upd (undos_ (host w)) s v) (teardown_ (host w))
                     (library (host w))) w.

Definition set_teardown_ (s : SpyId) (v : bool) (w : World) : World :=
  set_host (mkFields (undos_ (host w)) (upd (teardown_ (host w)) s v)
                     (library (host w))) w.

Definition set_library (v : Library) (w : World) : World :=
  set_host (mkFields (undos_ (host w)) (teardown_ (host w)) v) w.

(** What this file of the program does not define: the identity of
    plugin objects ([p === q]), [plugin instanceof ctor],
    [plugin.teardown()], the observers of [pluginsSubject_] (the
    [preLetObserver.let] of every live subscription), the installation
    of the detector hook and of [window.rxSpy] and their removal, and
    the five default plugins. *)
Variable plugin_eqb : Plugin -> Plugin -> bool.
Variable instanceOf : Plugin -> Ctor -> bool.
Variable plugin_teardown : Plugin -> M unit.
Variable pluginsSubject_next : SpyId -> list Plugin -> M unit.
Variable install_hooks : SpyId -> Library -> Library.
Variable remove_hooks : M unit.
Variable default_plugins : SpyId -> list Plugin.

(** The constructor, with [undos_ = []] and [teardown_] defined. *)
Definition install (this : SpyId) (h : Host) : Host :=
  mkFields (upd (undos_ h) this []) (upd (teardown_ h) this true)
           (install_hooks this (library h)).

Definition new_SpyCore (options : Options) : M SpyId :=
  SpyCore.new_SpyCore default_plugins install options.

(** [get undos()]. *)
Definition undos (this : SpyId) : M (list Plugin) :=
  gets (fun w => undos_ (host w) this).

(** [find(ctor)]. *)
Definition find (this : SpyId) (ctor : Ctor) : M (option Plugin) :=
  gets (fun w => List.find (fun plugin => instanceOf plugin ctor)
                           (plugins_ w this)).

(** [findAll(ctor?)]. *)
Definition findAll (this : SpyId) (ctor : option Ctor) : M (list Plugin) :=
  gets (fun w =>
          match ctor with
          | Some c => filter (fun plugin => instanceOf plugin c) (plugins_ w this)
          | None => plugins_ w this
          end).

(** [unplug(...plugins)]. *)
Definition unplug (this : SpyId) (plugins : list Plugin) : M unit :=
  forEach plugins (fun plugin =>
    seq (plugin_teardown plugin)
   (seq (modify (fun w =>
           set_plugins_ this
             (filter (fun p => negb (plugin_eqb p plugin)) (plugins_ w this)) w))
   (seq (bind (gets (fun w => plugins_ w this)) (pluginsSubject_next this))
        (modify (fun w =>
           set_undos_ this
             (filter (fun u => negb (plugin_eqb u plugin))
                     (undos_ (host w) this)) w))))).

(** [plug(...plugins)]; the Teardown it returns is the computation
    [unplug(...plugins)]. *)
Definition plug (this : SpyId) (plugins : list Plugin) : M (M unit) :=
  seq (modify (fun w => set_plugins_ this (plugins_ w this ++ plugins) w))
 (seq (bind (gets (fun w => plugins_ w this)) (pluginsSubject_next this))
 (seq (modify (fun w => set_undos_ this (undos_ (host w) this ++ plugins) w))
      (ret (unplug this plugins)))).

(** The function the constructor stores in [teardown_]. *)
Definition teardown_function (this : SpyId) : M unit :=
  seq remove_hooks
 (seq (bind (gets (fun w => plugins_ w this)) (fun plugins =>
         forEach plugins plugin_teardown))
 (seq (modify (set_plugins_ this []))
 (seq (bind (gets (fun w => plugins_ w this)) (pluginsSubject_next this))
 (seq (modify (set_undos_ this []))
 (seq (modify (set_spy_ None))
      (modify (set_subscribe observableSubscribe))))))).

(** [teardown()]. *)
Definition teardown (this : SpyId) : M unit :=
  bind (gets (fun w => teardown_ (host w) this)) (fun defined =>
  if defined
  then seq (teardown_function this) (modify (set_teardown_ this false))
  else ret tt).


(** ** What is assumed of a plugin's teardown or of a host action *)

(** [c] neither registers nor removes a plugin of the instance. *)
Definition keeps_registry {A : Type} (this : SpyId) (c : M A) : Prop :=
  forall w,
    plugins_ (snd (c w)) this = plugins_ w this /\
    undos_ (host (snd (c w))) this = undos_ (host w) this.

(** [c] returns and leaves the registry of the instance alone. *)
Definition tidy (this : SpyId) (c : M unit) : Prop :=
  returns c /\ keeps_registry this c.

(** [c] leaves the installation of the spy alone: the static [spy_], the
    binding of [subscribe] and the [teardown_] of the instance. *)
Definition keeps_installation {A : Type} (this : SpyId) (c : M A) : Prop :=
  forall w,
    spy_ (snd (c w)) = spy_ w /\
    subscribe (snd (c w)) = subscribe w /\
    teardown_ (host (snd (c w))) this = teardown_ (host w) this.

(** [remove ps l]: [l] without the elements that are among [ps]. *)
Definition remove_all (ps l : list Plugin) : list Plugin :=
  filter (fun p => negb (existsb (plugin_eqb p) ps)) l.

End Model.
End SpyLifecycle.

(** ** A concrete program *)

Module LifecycleDemo.
Import SpyCore.

(** Plugins, values and constructors are numbers: the plugin [p] is an
    instance of the constructor [p mod 2].  The plugins' state is the
    list of the calls they have recorded; the state of the host library
    counts the emissions of [pluginsSubject_]. *)
Definition Host : Type := SpyLifecycle.Fields nat nat.
Definition World : Type := @SpyCore.World nat (list nat) Host.
Definition M (A : Type) : Type := @SpyCore.M nat nat (list nat) Host A.

Definition set_tracked (v : list nat) (w : World) : World :=
  mkWorld (spy_ w) (subscribe w) (instances w) (tick_ w) (plugins_ w)
    (ref_unsubscribed w) (postLetObserver_unsubscribed w) (console w)
    (observations w) v (host w).

Definition record (n : nat) : M unit :=
  modify (fun w => set_tracked (tracked w ++ [n]) w).

Definition instanceOf (p c : nat) : bool := Nat.eqb (Nat.modulo p 2) c.

Definition plugin_teardown (p : nat) : M unit := record p.

(** The same, but the teardown of plugin 1 throws the value 7. *)
Definition failing_teardown (p : nat) : M unit :=
  match p with
  | 1%nat => throw (Raised 7%nat)
  | _ => record p
  end.

Definition pluginsSubject_next (s : SpyId) (ps : list nat) : M unit :=
  modify (fun w =>
            SpyLifecycle.set_library (S (SpyLifecycle.library (host w))) w).

Definition install_hooks (s : SpyId) (l : nat) : nat := l.
Definition remove_hooks : M unit := ret tt.
Definition default_plugins (s : SpyId) : list nat := [0%nat; 1%nat; 2%nat].

Definition world0 : World :=
  mkWorld None observableSubscribe 0%nat (fun _ => 0) (fun _ => [])
          (fun _ => false) (fun _ => false) [] [] []
          (SpyLifecycle.mkFields (fun _ => []) (fun _ => false) 0%nat).

(** The world after [new SpyCore()], whose instance is 0. *)
Definition world1 : World :=
  snd (SpyLifecycle.new_SpyCore (Value := nat) install_hooks default_plugins
         (mkOptions false true) world0).

End LifecycleDemo.

(** ** Forests *)

Section Forest.
Context {Value : Type}.

(** A graph in which no subscription is reached twice: the top-level
    subscriptions are distinct and are nobody's merge or source, no ref
    lists a merge or source twice, and no ref is a merge or source of
    two refs. *)
Definition forest (st : State.t Value) : Prop :=
  NoDup (roots st) /\
  (forall r, NoDup (children st r)) /\
  (forall r1 r2 c,
     In c (children st r1) -> In c (children st r2) -> r1 = r2) /\
  (forall r c, In c (roots st) -> ~ In c (children st r)).

End Forest.

(** The diamond without the edge from 3 to 4: 1 consumes 2 and 3, and 2
    consumes 4. *)
Definition tree_state : State.t nat :=
  State.mk 4 (Some 0%nat) 9
    (fun r => SubscriptionRef.mk (10 + r)%nat (20 + r)%nat (Some (30 + r)%nat)
                                 0 false)
    (fun r => if (1 <=? r)%nat && (r <=? 4)%nat then Some r else None)
    (fun a =>
       match a with
       | 0%nat => GraphRef.mk [] 0 None 0%nat None [1%nat] 0
       | 1%nat => GraphRef.mk [] 0 None 0%nat None [2%nat; 3%nat] 0
       | 2%nat => GraphRef.mk [] 0 (Some 1%nat) 0%nat (Some 1%nat) [4%nat] 0
       | 3%nat => GraphRef.mk [] 0 (Some 1%nat) 0%nat (Some 1%nat) [] 0
       | _ => GraphRef.mk [] 0 (Some 1%nat) 0%nat (Some 2%nat) [] 0
       end)
    (fun r => Some (SnapshotRef.mk false 0%nat (Z.of_nat r) 0 false [] 0)).

(** ** The edges of the snapshot objects *)

Section SnapshotEdges.
Context {Value : Type}.
Variable lookups : Lookups.t.
Variable st : State.t Value.

(** [ref.subscription]. *)
Definition subscription_of (r : Ref) : option SubscriptionId :=
  SubscriptionRef.subscription (State.refs st r).

(** Whether [x] is among the refs [rs]. *)
Definition collected (rs : list Ref) (x : Ref) : bool :=
  existsb (Nat.eqb x) rs.

(** What [subscriptions.get(x.subscription)] is once the refs [rs] have
    been entered: the snapshot object of [x], or [undefined]. *)
Definition handle_of (rs : list Ref) (x : Ref) : Handle :=
  if collected rs x then Some x else None.

(** The snapshot object [o] holds what the SnapshotRef [s], the
    GraphRef [g] and the lookups give for the ref [r]. *)
Definition describes (r : Ref) (g : GraphRef.t) (s : SnapshotRef.t Value)
    (o : SubscriptionSnapshot.t Value) : Prop :=
  SubscriptionSnapshot.complete o = SnapshotRef.complete s /\
  SubscriptionSnapshot.error o = SnapshotRef.error s /\
  SubscriptionSnapshot.id o = Lookups.identify_ref lookups r /\
  SubscriptionSnapshot.mergesFlushed o = GraphRef.mergesFlushed g /\
  SubscriptionSnapshot.observable o
  = SubscriptionRef.observable (State.refs st r) /\
  SubscriptionSnapshot.sourceMapsResolved o
  = Lookups.getSourceMapsResolved lookups r /\
  SubscriptionSnapshot.sourcesFlushed o = GraphRef.sourcesFlushed g /\
  SubscriptionSnapshot.stackTrace o = Lookups.getStackTrace lookups r /\
  SubscriptionSnapshot.subscriber o
  = SubscriptionRef.subscriber (State.refs st r) /\
  SubscriptionSnapshot.subscription o = subscription_of r /\
  SubscriptionSnapshot.tick o = SnapshotRef.tick s /\
  SubscriptionSnapshot.timestamp o = SnapshotRef.timestamp s /\
  SubscriptionSnapshot.unsubscribed o = SnapshotRef.unsubscribed s.

(** A snapshot object as the first [forEach] leaves it. *)
Definition unlinked (o : SubscriptionSnapshot.t Value) : Prop :=
  SubscriptionSnapshot.sink o = None /\
  SubscriptionSnapshot.rootSink o = None /\
  SubscriptionSnapshot.merges o = [] /\
  SubscriptionSnapshot.sources o = [].

(** The map [m] has the subscriptions of the refs [edges] as keys, each
    with the snapshot object of its ref. *)
Definition edges_linked (rs edges : list Ref) (m : SubscriptionMap) : Prop :=
  (forall x, In x edges ->
     mget opt_eqb (subscription_of x) m = Some (handle_of rs x)) /\
  (forall key, In key (mkeys m) ->
     exists x, In x edges /\ subscription_of x = key).

(** The edges of the snapshot object [o] are those of the GraphRef
    [g]. *)
Definition linked (rs : list Ref) (g : GraphRef.t)
    (o : SubscriptionSnapshot.t Value) : Prop :=
  SubscriptionSnapshot.sink o
  = match GraphRef.sink g with Some s => handle_of rs s | None => None end /\
  SubscriptionSnapshot.rootSink o
  = match GraphRef.rootSink g with Some s => handle_of rs s | None => None end /\
  edges_linked rs (GraphRef.merges g) (SubscriptionSnapshot.merges o) /\
  edges_linked rs (GraphRef.sources g) (SubscriptionSnapshot.sources o).

(** The [subscriptions] map once the refs [rs] have been entered. *)
Definition subscriptions_of (rs : list Ref) (m : SubscriptionMap) : Prop :=
  forall r,
    mget opt_eqb (subscription_of r) m
    = if collected rs r then Some (Some r) else None.

(** The snapshot objects once the refs [rs] have been entered and the
    edges of the refs [linked_refs] set. *)
Definition objects_state (rs linked_refs : list Ref)
    (objects : list (Ref * SubscriptionSnapshot.t Value)) : Prop :=
  forall r,
    if collected rs r
    then exists g s o,
           getGraphRef st r = Some g /\
           getSnapshotRef st r = Some s /\
           mget Nat.eqb r objects = Some o /\
           describes r g s o /\
           (if collected linked_refs r then linked rs g o else unlinked o)
    else mget Nat.eqb r objects = None.

End SnapshotEdges.

(* ================================================================== *)
(** * Part II: properties                                             *)
(* ================================================================== *)

Unset Implicit Arguments.

(** ** Bounded value history *)

Section ValueHistory.
Context {Value : Type}.
Variable undefined : Value.

Local Abbreviation State := (State.t Value).
Local Abbreviation SnapshotRef := (SnapshotRef.t Value).

Lemma upd_same {A : Type} (f : nat -> A) k v : upd f k v k = v.
Proof. unfold upd. now rewrite Nat.eqb_refl. Qed.

Lemma lastn_length {A : Type} (n : nat) (l : list A) :
  length (lastn n l) = Nat.min n (length l).
Proof. unfold lastn. rewrite length_skipn. lia. Qed.

(** Pushing one value and dropping the overflow keeps the last [n]. *)
Lemma lastn_snoc {A : Type} (n : nat) (h : list A) (v : A) :
  lastn n (h ++ [v]) =
  skipn (length (lastn n h ++ [v]) - n) (lastn n h ++ [v]).
Proof.
  unfold lastn.
  rewrite !length_app, length_skipn. cbn [length].
  destruct (Nat.le_gt_cases (length h) n) as [Hle | Hgt].
  - replace (length h - n)%nat with 0%nat by lia.
    cbn [skipn].
    replace (length h - 0 + 1 - n)%nat with (length h + 1 - n)%nat by lia.
    reflexivity.
  - replace (length h - (length h - n) + 1 - n)%nat with 1%nat by lia.
    replace (length h + 1 - n)%nat with (S (length h - n)) by lia.
    rewrite (skipn_app (S (length h - n)) h [v]).
    rewrite (skipn_app 1 (skipn (length h - n) h) [v]).
    rewrite skipn_skipn, length_skipn.
    replace (1 - (length h - (length h - n)))%nat with (1 - n)%nat by lia.
    replace (S (length h - n) - length h)%nat with (1 - n)%nat by lia.
    reflexivity.
Qed.

Lemma history_of_bound kept (h : list Value) (s : SnapshotRef) :
  0 <= kept -> history_of kept h s ->
  Z.of_nat (length (SnapshotRef.values s)) <= kept.
Proof.
  intros Hk [Hv _].
  apply (f_equal (@length Value)) in Hv.
  rewrite length_map, lastn_length in Hv. lia.
Qed.

Lemma beforeNext_history kept ref (v : Value) now (st : State) s h :
  0 <= kept ->
  State.keptValues_ st = kept ->
  getSnapshotRef st ref = Some s ->
  history_of kept h s ->
  exists st' s',
    beforeNext ref v now st = Ok st' /\
    State.keptValues_ st' = kept /\
    getSnapshotRef st' ref = Some s' /\
    history_of kept (h ++ [v]) s'.
Proof.
  intros Hk Hkept Hget Hinv.
  pose proof (history_of_bound _ _ _ Hk Hinv) as Hb.
  destruct Hinv as [Hv Hf].
  unfold beforeNext. rewrite Hget, Hkept.
  set (pushed := SnapshotRef.values s ++ _).
  assert (Hlen : length pushed = S (length (SnapshotRef.values s))).
  { unfold pushed. rewrite length_app. cbn. lia. }
  assert (Hmap : map (@ValueEntry.value Value) pushed
                 = lastn (Z.to_nat kept) h ++ [v]).
  { unfold pushed. rewrite map_app, Hv. reflexivity. }
  eexists; eexists. split; [reflexivity|].
  split; [exact Hkept|].
  split; [unfold getSnapshotRef, setSnapshotRef; cbn; apply upd_same|].
  destruct (Z.ltb_spec 0 (Z.of_nat (length pushed) - kept)) as [Hpos | Hnp];
    unfold history_of; cbn [SnapshotRef.values SnapshotRef.valuesFlushed].
  - split.
    + rewrite <- skipn_map, Hmap, lastn_snoc.
      f_equal. rewrite <- Hmap, length_map. lia.
    + rewrite length_skipn, length_app. cbn [length]. lia.
  - split.
    + rewrite Hmap, lastn_snoc.
      replace (length (lastn (Z.to_nat kept) h ++ [v]) - Z.to_nat kept)%nat
        with 0%nat; [reflexivity|].
      rewrite <- Hmap, length_map. lia.
    + rewrite length_app. cbn [length]. lia.
Qed.

Lemma deliver_history kept ref e (st : State) s h :
  0 <= kept ->
  State.keptValues_ st = kept ->
  getSnapshotRef st ref = Some s ->
  history_of kept h s ->
  exists st' s',
    deliver ref e st = Ok st' /\
    State.keptValues_ st' = kept /\
    getSnapshotRef st' ref = Some s' /\
    history_of kept (h ++ nexts [e]) s'.
Proof.
  intros Hk Hkept Hget Hinv.
  destruct e as [t now v | t err | t | t]; cbn [deliver nexts].
  - eapply beforeNext_history; eauto.
  - rewrite app_nil_r. unfold beforeError, getSnapshotRef in *.
    cbn. rewrite Hget. eexists; eexists.
    repeat split; [exact Hkept | cbn; apply upd_same | apply Hinv | apply Hinv].
  - rewrite app_nil_r. unfold beforeComplete, getSnapshotRef in *.
    cbn. rewrite Hget. eexists; eexists.
    repeat split; [exact Hkept | cbn; apply upd_same | apply Hinv | apply Hinv].
  - rewrite app_nil_r. unfold afterUnsubscribe, getSnapshotRef in *.
    cbn. rewrite Hget. eexists; eexists.
    repeat split; [exact Hkept | cbn; apply upd_same | apply Hinv | apply Hinv].
Qed.

Lemma nexts_app (es1 es2 : list (@Event Value)) :
  nexts (es1 ++ es2) = nexts es1 ++ nexts es2.
Proof.
  induction es1 as [| e es1 IH]; [reflexivity|].
  destruct e; cbn; rewrite IH; reflexivity.
Qed.

Lemma deliver_all_history kept ref es : forall (st : State) s h,
  0 <= kept ->
  State.keptValues_ st = kept ->
  getSnapshotRef st ref = Some s ->
  history_of kept h s ->
  exists st' s',
    rforEach (deliver ref) es st = Ok st' /\
    State.keptValues_ st' = kept /\
    getSnapshotRef st' ref = Some s' /\
    history_of kept (h ++ nexts es) s'.
Proof.
  induction es as [| e es IH]; intros st s h Hk Hkept Hget Hinv.
  - exists st, s. cbn [rforEach nexts]. rewrite app_nil_r. auto.
  - destruct (deliver_history kept ref e st s h Hk Hkept Hget Hinv)
      as (st1 & s1 & Hd & Hk1 & Hg1 & Hi1).
    destruct (IH st1 s1 _ Hk Hk1 Hg1 Hi1) as (st2 & s2 & Hr & Hk2 & Hg2 & Hi2).
    exists st2, s2. cbn [rforEach]. rewrite Hd. cbn [rbind].
    split; [exact Hr|]. split; [exact Hk2|]. split; [exact Hg2|].
    change (e :: es) with ([e] ++ es). rewrite nexts_app, app_assoc.
    exact Hi2.
Qed.

(** C4. For every subscription and every sequence of events delivered to
    it after its [beforeSubscribe], under a bound [keptValues_ >= 0] (4
    when the option is not given): the history is never longer than the
    bound, it holds the most recent values in delivery order, and
    [valuesFlushed] plus its length is the number of next-events
    delivered.  The calls never throw. *)
Theorem value_history_bounded :
  (forall st : State, State.keptValues_ (new_SnapshotPlugin st None) = 4) /\
  forall (kept : Z) (ref : Ref) (now : Z) (st0 : State) (es : list Event),
    0 <= kept ->
    State.keptValues_ st0 = kept ->
    exists st1 st s,
      beforeSubscribe undefined ref now st0 = Ok st1 /\
      rforEach (deliver ref) es st1 = Ok st /\
      getSnapshotRef st ref = Some s /\
      Z.of_nat (length (SnapshotRef.values s)) <= kept /\
      map (@ValueEntry.value Value) (SnapshotRef.values s)
      = lastn (Z.to_nat kept) (nexts es) /\
      SnapshotRef.valuesFlushed s + Z.of_nat (length (SnapshotRef.values s))
      = Z.of_nat (length (nexts es)).
Proof.
  split; [reflexivity|].
  intros kept ref now st0 es Hk Hkept.
  assert (Hsub : exists st1 s1,
             beforeSubscribe undefined ref now st0 = Ok st1 /\
             State.keptValues_ st1 = kept /\
             getSnapshotRef st1 ref = Some s1 /\
             history_of kept [] s1).
  { unfold beforeSubscribe.
    set (s1 := SnapshotRef.mk false undefined (State.spy_tick st0) now false [] 0).
    destruct (getGraphRef (setSnapshotRef st0 ref s1) ref) as [g|];
      eexists; exists s1; (split; [reflexivity|]);
      (split; [exact Hkept|]);
      (split; [unfold getSnapshotRef; cbn; apply upd_same|]);
      split; reflexivity. }
  destruct Hsub as (st1 & s1 & Hs & Hk1 & Hg1 & Hi1).
  destruct (deliver_all_history kept ref es st1 s1 [] Hk Hk1 Hg1 Hi1)
    as (st & s & Hr & _ & Hg & Hi).
  exists st1, st, s.
  split; [exact Hs|]. split; [exact Hr|]. split; [exact Hg|].
  split; [exact (history_of_bound _ _ _ Hk Hi)|].
  exact Hi.
Qed.

End ValueHistory.

(** The scenario of the bound 4 and six next-events, computed: the last
    four values are kept and two have been flushed. *)
Example six_nexts_keep_four :
  match rbind (beforeSubscribe 0%nat 1%nat 50 empty_state)
              (rforEach (deliver 1%nat) six_nexts) with
  | Ok st =>
      option_map (fun s => (map (@ValueEntry.value nat) (SnapshotRef.values s),
                            SnapshotRef.valuesFlushed s))
                 (getSnapshotRef st 1%nat)
  | _ => None
  end = Some ([13; 14; 15; 16]%nat, 2).
Proof. vm_compute. reflexivity. Qed.

(** The bound is meant as a count.  With the bound -1 the first value is
    dropped at once and counted twice ([count] is 2, [splice] removes
    the one entry there is). *)
Example negative_bound_overcounts :
  match rbind (beforeSubscribe 0%nat 1%nat 50
                 (new_SnapshotPlugin empty_state (Some (-1))))
              (beforeNext 1%nat 11%nat 100) with
  | Ok st =>
      option_map (fun s => (map (@ValueEntry.value nat) (SnapshotRef.values s),
                            SnapshotRef.valuesFlushed s))
                 (getSnapshotRef st 1%nat)
  | _ => None
  end = Some ([], 2).
Proof. vm_compute. reflexivity. Qed.

Lemma value_history_bounded_witness :
  0 <= 4 /\
  State.keptValues_ empty_state = 4 /\
  exists st1 st s,
    beforeSubscribe 0%nat 1%nat 50 empty_state = Ok st1 /\
    rforEach (deliver 1%nat) six_nexts st1 = Ok st /\
    getSnapshotRef st 1%nat = Some s /\
    Z.of_nat (length (SnapshotRef.values s)) <= 4 /\
    map (@ValueEntry.value nat) (SnapshotRef.values s)
    = lastn (Z.to_nat 4) (nexts six_nexts) /\
    SnapshotRef.valuesFlushed s + Z.of_nat (length (SnapshotRef.values s))
    = Z.of_nat (length (nexts six_nexts)).
Proof.
  split; [lia|]. split; [reflexivity|].
  apply (proj2 (value_history_bounded 0%nat) 4 1%nat 50 empty_state six_nexts);
    [lia | reflexivity].
Defined.

(** ** Facts about maps *)

Section JsMapFacts.
Context {K V : Type}.
Variable eqb : K -> K -> bool.
Hypothesis eqb_spec : forall a b, eqb a b = true <-> a = b.

Lemma eqb_refl_true (a : K) : eqb a a = true.
Proof. now apply eqb_spec. Qed.

Lemma mset_keys_in (k x : K) (v : V) (m : list (K * V)) :
  In x (mkeys (mset eqb k v m)) <-> x = k \/ In x (mkeys m).
Proof.
  induction m as [| [k' v'] m IH]; cbn.
  - intuition.
  - destruct (eqb k k') eqn:E; cbn.
    + apply eqb_spec in E. subst. intuition.
    + rewrite IH. intuition.
Qed.

Lemma mset_keys_nodup (k : K) (v : V) (m : list (K * V)) :
  NoDup (mkeys m) -> NoDup (mkeys (mset eqb k v m)).
Proof.
  induction m as [| [k' v'] m IH]; cbn; intros Hnd.
  - constructor; [intros [] | constructor].
  - inversion Hnd as [| ? ? Hnotin Hnd']; subst.
    destruct (eqb k k') eqn:E; cbn.
    + apply eqb_spec in E. subst. constructor; assumption.
    + constructor; [| apply IH; assumption].
      intros Hin. apply mset_keys_in in Hin.
      destruct Hin as [-> | Hin]; [| contradiction].
      rewrite eqb_refl_true in E. discriminate.
Qed.

Lemma mset_in (k : K) (v : V) (m : list (K * V)) (x : K) (y : V) :
  In (x, y) (mset eqb k v m) -> (x = k /\ y = v) \/ In (x, y) m.
Proof.
  induction m as [| [k' v'] m IH]; cbn.
  - intros [H | []]. inversion H. auto.
  - destruct (eqb k k') eqn:E; cbn.
    + intros [H | H]; [inversion H; auto | auto].
    + intros [H | H]; [auto | destruct (IH H); auto].
Qed.

Lemma mget_in_keys (k : K) (m : list (K * V)) :
  In k (mkeys m) -> exists v, mget eqb k m = Some v /\ In (k, v) m.
Proof.
  induction m as [| [k' v'] m IH]; cbn; [intros [] |].
  intros Hin. destruct (eqb k k') eqn:E.
  - apply eqb_spec in E. subst. exists v'. auto.
  - destruct Hin as [-> | Hin]; [now rewrite eqb_refl_true in E|].
    destruct (IH Hin) as (v & Hg & Hi). exists v. auto.
Qed.

Lemma mdelete_first (k : K) (v : V) (p l : list (K * V)) :
  ~ In k (mkeys p) -> mdelete eqb k (p ++ (k, v) :: l) = p ++ l.
Proof.
  induction p as [| [k' v'] p IH]; cbn; intros Hnotin.
  - now rewrite eqb_refl_true.
  - destruct (eqb k k') eqn:E.
    + apply eqb_spec in E. subst. tauto.
    + rewrite IH; [reflexivity | tauto].
Qed.

Lemma filter_keys_incl (f : K * V -> bool) (m : list (K * V)) (k : K) :
  In k (mkeys (filter f m)) -> In k (mkeys m).
Proof.
  unfold mkeys. rewrite !in_map_iff.
  intros (kv & Hk & Hin). apply filter_In in Hin. exists kv. tauto.
Qed.

(** Deleting the stale entries while walking a map whose keys are
    distinct leaves the entries that are not stale, in their order. *)
Lemma delete_stale_filter (stale : V -> bool) (m : list (K * V)) :
  NoDup (mkeys m) ->
  delete_stale eqb stale m = filter (fun kv => negb (stale (snd kv))) m.
Proof.
  intros Hnd. unfold delete_stale.
  set (keep := fun kv : K * V => negb (stale (snd kv))).
  assert (H : forall l p, NoDup (mkeys (p ++ l)) ->
            fold_left
              (fun acc kv =>
                 if stale (snd kv) then mdelete eqb (fst kv) acc else acc)
              l (filter keep p ++ l)
            = filter keep (p ++ l)).
  { induction l as [| [k v] l IH]; intros p Hp.
    - cbn [fold_left]. rewrite !app_nil_r. reflexivity.
    - cbn [fold_left fst snd].
      assert (Hnotin : ~ In k (mkeys p)).
      { unfold mkeys in Hp. rewrite map_app in Hp. cbn in Hp.
        apply NoDup_remove_2 in Hp. rewrite in_app_iff in Hp. tauto. }
      assert (Hp' : NoDup (mkeys ((p ++ [(k, v)]) ++ l))).
      { rewrite <- app_assoc. exact Hp. }
      specialize (IH (p ++ [(k, v)]) Hp').
      rewrite filter_app in IH. cbn [filter] in IH.
      replace (p ++ (k, v) :: l) with ((p ++ [(k, v)]) ++ l)
        by (rewrite <- app_assoc; reflexivity).
      unfold keep at 2 in IH. cbn [snd] in IH.
      destruct (stale v) eqn:Es; cbn [negb] in IH.
      + rewrite mdelete_first.
        * rewrite app_nil_r in IH. exact IH.
        * intros Hin. apply Hnotin. eapply filter_keys_incl. exact Hin.
      + rewrite <- app_assoc in IH. exact IH. }
  exact (H m [] Hnd).
Qed.

Lemma delete_stale_in (stale : V -> bool) (m : list (K * V)) (k : K) (v : V) :
  NoDup (mkeys m) ->
  In (k, v) (delete_stale eqb stale m) -> In (k, v) m /\ stale v = false.
Proof.
  intros Hnd Hin. rewrite (delete_stale_filter stale m Hnd) in Hin.
  apply filter_In in Hin. cbn in Hin. destruct Hin as [Hin Hs].
  split; [exact Hin|]. now destruct (stale v).
Qed.

End JsMapFacts.

Lemma nat_eqb_spec (a b : nat) : Nat.eqb a b = true <-> a = b.
Proof. apply Nat.eqb_eq. Qed.

Lemma opt_eqb_spec (a b : option nat) : opt_eqb a b = true <-> a = b.
Proof.
  destruct a as [x |], b as [y |]; cbn; try (split; congruence).
  rewrite Nat.eqb_eq. split; congruence.
Qed.

(** ** The graph walk *)

Section WalkProperties.
Context {Value : Type}.

Local Abbreviation State := (State.t Value).

Lemma walk_extend_nil (w : Walk.t) : walk_extend w [] = w.
Proof. destruct w. unfold walk_extend. cbn. rewrite app_nil_r. reflexivity. Qed.

Lemma walk_extend_app (w : Walk.t) (l1 l2 : list Ref) :
  walk_extend (walk_extend w l1) l2 = walk_extend w (l1 ++ l2).
Proof.
  unfold walk_extend. cbn. rewrite fold_left_app, app_assoc. reflexivity.
Qed.

Lemma walk_extend_keys (l : list Ref) : forall w x,
  In x (mkeys (Walk.map (walk_extend w l))) <->
  In x (mkeys (Walk.map w)) \/ In x l.
Proof.
  induction l as [| r l IH]; intros w x.
  - rewrite walk_extend_nil. cbn. intuition.
  - change (r :: l) with ([r] ++ l). rewrite <- walk_extend_app, IH.
    unfold walk_extend at 1. cbn [Walk.map fold_left].
    rewrite (mset_keys_in Nat.eqb nat_eqb_spec). cbn [In app].
    intuition (subst; auto).
Qed.

Lemma walk_extend_nodup (l : list Ref) : forall w,
  NoDup (mkeys (Walk.map w)) ->
  NoDup (mkeys (Walk.map (walk_extend w l))).
Proof.
  induction l as [| r l IH]; intros w Hnd.
  - rewrite walk_extend_nil. exact Hnd.
  - change (r :: l) with ([r] ++ l). rewrite <- walk_extend_app.
    apply IH. unfold walk_extend. cbn [Walk.map fold_left].
    apply (mset_keys_nodup Nat.eqb nat_eqb_spec). exact Hnd.
Qed.

(** A [forEach] of calls that each extend the walk extends the walk. *)
Lemma rforEach_walk (f : Ref -> Walk.t -> result Walk.t)
    (D : Ref -> Ref -> Prop) (cs : list Ref) :
  (forall c, In c cs ->
     forall w, exists l, f c w = Ok (walk_extend w l) /\
                         forall x, In x l <-> D c x) ->
  forall w, exists l,
    rforEach f cs w = Ok (walk_extend w l) /\
    forall x, In x l <-> exists c, In c cs /\ D c x.
Proof.
  induction cs as [| c cs IH]; intros Hf w.
  - exists []. rewrite walk_extend_nil. split; [reflexivity|].
    intros x. split; [intros [] | intros (c & [] & _)].
  - destruct (Hf c (or_introl eq_refl) w) as (l1 & Hc & Hl1).
    destruct (IH (fun c' Hin => Hf c' (or_intror Hin)) (walk_extend w l1))
      as (l2 & Hcs & Hl2).
    exists (l1 ++ l2). cbn [rforEach]. rewrite Hc. cbn [rbind].
    rewrite Hcs, walk_extend_app. split; [reflexivity|].
    intros x. rewrite in_app_iff, Hl1, Hl2. split.
    + intros [Hd | (c' & Hin & Hd)].
      * exists c. split; [left; reflexivity | exact Hd].
      * exists c'. split; [right; exact Hin | exact Hd].
    + intros (c' & [<- | Hin] & Hd).
      * left. exact Hd.
      * right. exists c'. split; assumption.
Qed.

Lemma descendant_inv (st : State) (r x : Ref) :
  descendant st r x <->
  x = r \/ exists c, In c (children st r) /\ descendant st c x.
Proof.
  split.
  - intros H. destruct H as [r | r c x Hin Hd].
    + left. reflexivity.
    + right. exists c. split; assumption.
  - intros [-> | (c & Hin & Hd)].
    + constructor.
    + econstructor; eassumption.
Qed.

(** On an acyclic graph, with fuel above the rank, a call returns and
    has called exactly the descendants of its argument. *)
Lemma addSubscriptionRefs_returns (st : State) (rank : Ref -> nat) :
  (forall r c, In c (children st r) -> (rank c < rank r)%nat) ->
  forall fuel ref w,
    (rank ref < fuel)%nat ->
    (forall x, descendant st ref x -> getGraphRef st x <> None) ->
    exists l,
      addSubscriptionRefs_ st fuel ref w = Ok (walk_extend w l) /\
      forall x, In x l <-> descendant st ref x.
Proof.
  intros Hrank fuel.
  induction fuel as [| fuel IH]; intros ref w Hlt Hclosed; [lia|].
  cbn [addSubscriptionRefs_].
  pose proof (Hclosed ref (descendant_refl st ref)) as Hg.
  assert (Hch : forall c, In c (children st ref) ->
            forall w', exists l,
              addSubscriptionRefs_ st fuel c w' = Ok (walk_extend w' l) /\
              forall x, In x l <-> descendant st c x).
  { intros c Hin w'. apply IH.
    - specialize (Hrank ref c Hin). lia.
    - intros x Hd. apply Hclosed. econstructor; eassumption. }
  unfold children in Hch.
  destruct (getGraphRef st ref) as [g |] eqn:Hget; [| congruence].
  change (Walk.mk (mset Nat.eqb ref true (Walk.map w)) (Walk.calls w ++ [ref]))
    with (walk_extend w [ref]).
  destruct (rforEach_walk (addSubscriptionRefs_ st fuel) (descendant st)
              (GraphRef.merges g)
              (fun c Hin => Hch c (proj2 (in_app_iff _ _ c) (or_introl Hin)))
              (walk_extend w [ref]))
    as (l1 & H1 & Hl1).
  destruct (rforEach_walk (addSubscriptionRefs_ st fuel) (descendant st)
              (GraphRef.sources g)
              (fun c Hin => Hch c (proj2 (in_app_iff _ _ c) (or_intror Hin)))
              (walk_extend (walk_extend w [ref]) l1))
    as (l2 & H2 & Hl2).
  exists ([ref] ++ l1 ++ l2).
  rewrite H1. cbn [rbind]. rewrite H2, !walk_extend_app.
  split; [rewrite app_assoc; reflexivity|].
  intros x. rewrite descendant_inv. unfold children. rewrite Hget.
  rewrite !in_app_iff, Hl1, Hl2. cbn [In]. split.
  - intros [[<- | []] | [(c & Hin & Hd) | (c & Hin & Hd)]].
    + left. reflexivity.
    + right. exists c. rewrite in_app_iff. auto.
    + right. exists c. rewrite in_app_iff. auto.
  - intros [-> | (c & Hin & Hd)].
    + left. left. reflexivity.
    + right. apply in_app_iff in Hin. destruct Hin as [Hin | Hin].
      * left. exists c. auto.
      * right. exists c. auto.
Qed.

Lemma list_max_ge (l : list nat) (n : nat) : In n l -> (n <= list_max l)%nat.
Proof.
  intros Hin.
  pose proof (proj1 (list_max_le l (list_max l)) (Nat.le_refl _)) as Hall.
  rewrite Forall_forall in Hall. exact (Hall n Hin).
Qed.

(** On an acyclic graph the walk from the sentinel returns, with every
    reachable ref as a key of its map, once, and with calls on the
    reachable refs only. *)
Lemma getSubscriptionRefs_returns (st : State) (rank : Ref -> nat) :
  well_formed st rank ->
  exists fuel0, forall fuel, (fuel0 <= fuel)%nat ->
    exists w,
      getSubscriptionRefs_ st fuel = Ok w /\
      NoDup (mkeys (Walk.map w)) /\
      (forall x, In x (mkeys (Walk.map w)) <-> reachable st x) /\
      (forall x, In x (Walk.calls w) <-> reachable st x).
Proof.
  intros [Hrank Hgraphed].
  exists (S (list_max (map rank (roots st)))). intros fuel Hfuel.
  assert (Hroots : forall c, In c (roots st) ->
            forall w, exists l,
              addSubscriptionRefs_ st fuel c w = Ok (walk_extend w l) /\
              forall x, In x l <-> descendant st c x).
  { intros c Hin w. apply (addSubscriptionRefs_returns st rank Hrank).
    - pose proof (list_max_ge (map rank (roots st)) (rank c)
                    (in_map rank _ _ Hin)). lia.
    - intros x Hd. apply Hgraphed. exists c. split; assumption. }
  unfold getSubscriptionRefs_. unfold reachable, roots in *.
  destruct (State.sentinel_ st) as [a |].
  - destruct (rforEach_walk (addSubscriptionRefs_ st fuel) (descendant st)
                _ Hroots (Walk.mk [] [])) as (l & Hl & Hin).
    exists (walk_extend (Walk.mk [] []) l). split; [exact Hl|].
    split; [apply walk_extend_nodup; constructor|].
    split; intros x.
    + rewrite walk_extend_keys, Hin. cbn. intuition.
    + cbn. apply Hin.
  - exists (Walk.mk [] []). split; [reflexivity|].
    split; [constructor|].
    split; intros x; cbn; (split; [intros [] | intros (r & [] & _)]).
Qed.

(** C2, as the code has it.  On every acyclic subscription graph whose
    reachable refs are graphed, the walk of [getSubscriptionRefs_]
    terminates, and the map it returns holds every subscription
    reachable from the sentinel exactly once; [addSubscriptionRefs_] is
    called on the reachable subscriptions and on no other. *)
Theorem snapshot_walk_collects_reachable :
  forall (st : State) (rank : Ref -> nat),
    well_formed st rank ->
    exists fuel0, forall fuel, (fuel0 <= fuel)%nat ->
      exists w,
        getSubscriptionRefs_ st fuel = Ok w /\
        NoDup (mkeys (Walk.map w)) /\
        (forall x, In x (mkeys (Walk.map w)) <-> reachable st x) /\
        (forall x, In x (Walk.calls w) <-> reachable st x).
Proof. exact getSubscriptionRefs_returns. Qed.

End WalkProperties.

Lemma diamond_descendant (r x : Ref) :
  descendant diamond_state r x ->
  (1 <= r <= 4)%nat -> (1 <= x <= 4)%nat.
Proof.
  induction 1 as [r | r c x Hin _ IH]; intros Hr; [exact Hr|].
  apply IH.
  destruct r as [|[|[|[|[|r]]]]]; cbn in Hin; try lia; intuition lia.
Qed.

Lemma diamond_well_formed : well_formed diamond_state diamond_rank.
Proof.
  split.
  - intros r c Hin.
    destruct r as [|[|[|[|[|r]]]]]; cbn in Hin;
      try contradiction; intuition (subst; cbn; lia).
  - intros x (r & Hroot & Hd). cbn in Hroot.
    destruct Hroot as [<- | []].
    pose proof (diamond_descendant _ _ Hd ltac:(lia)) as Hx.
    destruct x as [|[|[|[|[|x]]]]]; try lia; cbn; discriminate.
Qed.

(** C2 as stated fails on a diamond: subscription 4 is reachable through
    2 and through 3, and [addSubscriptionRefs_] is called on it twice. *)
Lemma diamond_shared_source_visited_twice :
  getSubscriptionRefs_ diamond_state 4
  = Ok (Walk.mk [(1, true); (2, true); (4, true); (3, true)]%nat
                [1; 2; 4; 3; 4]%nat) /\
  reachable diamond_state 4%nat /\
  count_occ Nat.eq_dec [1; 2; 4; 3; 4]%nat 4%nat = 2%nat.
Proof.
  split; [vm_compute; reflexivity|].
  split; [| reflexivity].
  exists 1%nat. split; [left; reflexivity|].
  apply descendant_step with (c := 2%nat); [cbn; auto|].
  apply descendant_step with (c := 4%nat); [cbn; auto|].
  constructor.
Qed.

Lemma snapshot_walk_collects_reachable_witness :
  well_formed diamond_state diamond_rank /\
  exists fuel0, forall fuel, (fuel0 <= fuel)%nat ->
    exists w,
      getSubscriptionRefs_ diamond_state fuel = Ok w /\
      NoDup (mkeys (Walk.map w)) /\
      (forall x, In x (mkeys (Walk.map w)) <-> reachable diamond_state x) /\
      (forall x, In x (Walk.calls w) <-> reachable diamond_state x).
Proof.
  split; [exact diamond_well_formed|].
  exact (snapshot_walk_collects_reachable _ _ diamond_well_formed).
Defined.

(** ** [snapshotAll] *)

Section SnapshotAllProperties.
Context {Value : Type}.
Variable lookups : Lookups.t.

Local Abbreviation State := (State.t Value).
Local Abbreviation Building := (@Building Value).

Lemma rforEach_invariant {A S : Type} (P : S -> Prop)
    (f : A -> S -> result S) (xs : list A) :
  (forall x s s', In x xs -> P s -> f x s = Ok s' -> P s') ->
  forall s s', P s -> rforEach f xs s = Ok s' -> P s'.
Proof.
  induction xs as [| x xs IH]; intros Hf s s' Hs Hrun.
  - cbn in Hrun. inversion Hrun. subst. exact Hs.
  - cbn [rforEach] in Hrun.
    destruct (f x s) as [s1 | |] eqn:Hx; cbn [rbind] in Hrun;
      try discriminate.
    apply (IH (fun y t t' Hin => Hf y t t' (or_intror Hin)) s1 s');
      [| exact Hrun].
    apply (Hf x s s1); [left; reflexivity | exact Hs | exact Hx].
Qed.

Lemma snapshot_ref_inv (st : State) (ref : Ref) (b b' : Building) :
  snapshot_ref lookups st ref b = Ok b' ->
  exists g s o obs sub,
    getGraphRef st ref = Some g /\
    getSnapshotRef st ref = Some s /\
    b_observables b'
    = mset Nat.eqb (SubscriptionRef.observable (State.refs st ref)) obs
        (b_observables b) /\
    b_subscribers b'
    = mset Nat.eqb (SubscriptionRef.subscriber (State.refs st ref)) sub
        (b_subscribers b) /\
    b_subscriptions b'
    = mset opt_eqb (SubscriptionRef.subscription (State.refs st ref))
        (Some ref) (b_subscriptions b) /\
    b_objects b' = b_objects b ++ [(ref, o)].
Proof.
  unfold snapshot_ref.
  destruct (getGraphRef st ref) as [g |]; [| discriminate].
  destruct (getSnapshotRef st ref) as [s |]; [| discriminate].
  intros H. inversion H. subst b'. cbn.
  do 5 eexists. repeat split; reflexivity.
Qed.

Lemma mkeys_app {K V : Type} (l1 l2 : list (K * V)) :
  mkeys (l1 ++ l2) = mkeys l1 ++ mkeys l2.
Proof. unfold mkeys. apply map_app. Qed.

Lemma snapshot_ref_ok (st : State) (ref : Ref) (b b' : Building) :
  building_ok b -> snapshot_ref lookups st ref b = Ok b' ->
  building_ok b' /\
  In (SubscriptionRef.subscription (State.refs st ref))
     (mkeys (b_subscriptions b')) /\
  (forall k, In k (mkeys (b_subscriptions b)) ->
             In k (mkeys (b_subscriptions b'))).
Proof.
  intros (Ho & Hs & Hn & Hh) Hrun.
  destruct (snapshot_ref_inv st ref b b' Hrun)
    as (g & s & o & obs & sub & _ & _ & Eo & Es & En & Eobj).
  split; [| split].
  - unfold building_ok. rewrite Eo, Es, En, Eobj.
    split; [apply (mset_keys_nodup Nat.eqb nat_eqb_spec); exact Ho|].
    split; [apply (mset_keys_nodup Nat.eqb nat_eqb_spec); exact Hs|].
    split; [apply (mset_keys_nodup opt_eqb opt_eqb_spec); exact Hn|].
    intros k h Hin.
    apply mset_in in Hin. destruct Hin as [[_ ->] | Hin].
    + exists ref. split; [reflexivity|].
      rewrite mkeys_app, in_app_iff. cbn. auto.
    + destruct (Hh k h Hin) as (r & -> & Hr). exists r.
      split; [reflexivity|]. rewrite mkeys_app, in_app_iff. auto.
  - rewrite En. apply (mset_keys_in opt_eqb opt_eqb_spec). left. reflexivity.
  - intros k Hk. rewrite En.
    apply (mset_keys_in opt_eqb opt_eqb_spec). right. exact Hk.
Qed.

Lemma link_ref_inv (st : State) (ref : Ref) (b b' : Building) :
  link_ref st ref b = Ok b' ->
  b' = b \/
  exists target o',
    b' = mkBuilding (b_observables b) (b_promises b) (b_subscribers b)
           (b_subscriptions b) (put_object target o' (b_objects b)).
Proof.
  unfold link_ref.
  destruct (getGraphRef st ref) as [g |]; [| discriminate].
  destruct (mget opt_eqb _ (b_subscriptions b)) as [[target |] |];
    cbn [get_object].
  - destruct (mget Nat.eqb target (b_objects b)) as [o |].
    + intros H. inversion H. right. eauto.
    + destruct (GraphRef.sink g), (GraphRef.rootSink g),
        (GraphRef.merges g), (GraphRef.sources g);
        intros H; inversion H; auto.
  - destruct (GraphRef.sink g), (GraphRef.rootSink g),
      (GraphRef.merges g), (GraphRef.sources g);
      intros H; inversion H; auto.
  - destruct (GraphRef.sink g), (GraphRef.rootSink g),
      (GraphRef.merges g), (GraphRef.sources g);
      intros H; inversion H; auto.
Qed.

Lemma link_ref_ok (st : State) (ref : Ref) (b b' : Building) :
  building_ok b -> link_ref st ref b = Ok b' ->
  building_ok b' /\ b_subscriptions b' = b_subscriptions b.
Proof.
  intros Hb Hrun.
  destruct (link_ref_inv st ref b b' Hrun) as [-> | (target & o' & ->)];
    [split; [exact Hb | reflexivity]|].
  destruct Hb as (Ho & Hs & Hn & Hh).
  split; [| reflexivity].
  unfold building_ok. cbn.
  split; [exact Ho|]. split; [exact Hs|]. split; [exact Hn|].
  intros k h Hin. destruct (Hh k h Hin) as (r & -> & Hr).
  exists r. split; [reflexivity|].
  unfold put_object. apply (mset_keys_in Nat.eqb nat_eqb_spec). auto.
Qed.

Lemma empty_building_ok :
  building_ok (mkBuilding (Value := Value) [] [] [] [] []).
Proof.
  unfold building_ok. cbn.
  repeat split; try constructor. intros k h [].
Qed.

(** What a returned snapshot is made of. *)
Lemma snapshotAll_inv (fuel : nat) (since : option (Snapshot.t Value))
    (st : State) (heap : nat) (snap : Snapshot.t Value) (heap' : nat) :
  snapshotAll lookups fuel since st heap = Ok (snap, heap') ->
  exists b,
    building_ok b /\
    heap' = S heap /\
    Snapshot.address snap = heap /\
    Snapshot.tick snap = State.spy_tick st /\
    Snapshot.objects snap = b_objects b /\
    let subscribers :=
      map (fun kv => (fst kv, sort_values (snd kv))) (b_subscribers b) in
    match since with
    | Some s =>
        Snapshot.observables snap
        = delete_stale Nat.eqb
            (fun v => ObservableSnapshot.tick v <=? Snapshot.tick s)
            (b_observables b) /\
        Snapshot.subscribers snap
        = delete_stale Nat.eqb
            (fun v => SubscriberSnapshot.tick v <=? Snapshot.tick s)
            subscribers /\
        Snapshot.subscriptions snap
        = delete_stale opt_eqb
            (subscription_stale (Snapshot.tick s) (b_objects b))
            (b_subscriptions b)
    | None =>
        Snapshot.observables snap = b_observables b /\
        Snapshot.subscribers snap = subscribers /\
        Snapshot.subscriptions snap = b_subscriptions b
    end.
Proof.
  unfold snapshotAll.
  destruct (getSubscriptionRefs_ st fuel) as [w | |]; cbn [rbind];
    try discriminate.
  destruct (rforEach (snapshot_ref lookups st) (mkeys (Walk.map w)) _)
    as [b1 | |] eqn:H1; cbn [rbind]; try discriminate.
  destruct (rforEach (link_ref st) (mkeys (Walk.map w)) b1)
    as [b2 | |] eqn:H2; cbn [rbind]; try discriminate.
  assert (Hb1 : building_ok b1).
  { apply (rforEach_invariant building_ok (snapshot_ref lookups st)
             (mkeys (Walk.map w))) with (s := mkBuilding [] [] [] [] []);
      [| exact empty_building_ok | exact H1].
    intros x s s' _ Hs Hx. exact (proj1 (snapshot_ref_ok st x s s' Hs Hx)). }
  assert (Hb2 : building_ok b2).
  { apply (rforEach_invariant building_ok (link_ref st)
             (mkeys (Walk.map w))) with (s := b1); [| exact Hb1 | exact H2].
    intros x s s' _ Hs Hx. exact (proj1 (link_ref_ok st x s s' Hs Hx)). }
  intros H. exists b2. split; [exact Hb2|].
  destruct since as [s |]; inversion H; subst; cbn;
    repeat split; reflexivity.
Qed.

Lemma mkeys_map_values {K V W : Type} (f : V -> W) (m : list (K * V)) :
  mkeys (map (fun kv => (fst kv, f (snd kv))) m) = mkeys m.
Proof. unfold mkeys. rewrite map_map. reflexivity. Qed.

(** C5. No entity of the three top-level maps of
    [snapshotAll({ since })] has a tick less than or equal to
    [since.tick]. *)
Theorem snapshotAll_since_drops_stale :
  forall (fuel : nat) (since : Snapshot.t Value) (st : State) (heap : nat)
         (snap : Snapshot.t Value) (heap' : nat),
    snapshotAll lookups fuel (Some since) st heap = Ok (snap, heap') ->
    (forall k v, In (k, v) (Snapshot.observables snap) ->
       Snapshot.tick since < ObservableSnapshot.tick v) /\
    (forall k v, In (k, v) (Snapshot.subscribers snap) ->
       Snapshot.tick since < SubscriberSnapshot.tick v) /\
    (forall k h, In (k, h) (Snapshot.subscriptions snap) ->
       exists o, get_object h (Snapshot.objects snap) = Some o /\
                 Snapshot.tick since < SubscriptionSnapshot.tick o).
Proof.
  intros fuel since st heap snap heap' Hrun.
  destruct (snapshotAll_inv fuel (Some since) st heap snap heap' Hrun)
    as (b & (Ho & Hs & Hn & Hh) & _ & _ & _ & Eobj & Eo & Es & En).
  split; [| split].
  - intros k v Hin. rewrite Eo in Hin.
    apply (delete_stale_in Nat.eqb nat_eqb_spec) in Hin; [| exact Ho].
    destruct Hin as [_ Hin]. apply Z.leb_gt in Hin. exact Hin.
  - intros k v Hin. rewrite Es in Hin.
    apply (delete_stale_in Nat.eqb nat_eqb_spec) in Hin;
      [| rewrite mkeys_map_values; exact Hs].
    destruct Hin as [_ Hin]. apply Z.leb_gt in Hin. exact Hin.
  - intros k h Hin. rewrite En in Hin.
    apply (delete_stale_in opt_eqb opt_eqb_spec) in Hin; [| exact Hn].
    destruct Hin as [Hin Hstale].
    destruct (Hh k h Hin) as (r & -> & Hr).
    destruct (mget_in_keys Nat.eqb nat_eqb_spec r (b_objects b) Hr)
      as (o & Hget & _).
    exists o. rewrite Eobj. cbn [get_object]. split; [exact Hget|].
    unfold subscription_stale in Hstale. cbn [get_object] in Hstale.
    rewrite Hget in Hstale. apply Z.leb_gt in Hstale. exact Hstale.
Qed.

(** C8. A second [snapshotAll] with nothing in between returns another
    object with the same contents: tick, the three maps with their keys
    and entities, and the snapshot objects with their edges. *)
Theorem snapshotAll_twice_equal :
  forall (fuel : nat) (since : option (Snapshot.t Value)) (st : State)
         (heap : nat) (s1 : Snapshot.t Value) (heap1 : nat),
    snapshotAll lookups fuel since st heap = Ok (s1, heap1) ->
    exists s2 heap2,
      snapshotAll lookups fuel since st heap1 = Ok (s2, heap2) /\
      Snapshot.address s2 <> Snapshot.address s1 /\
      Snapshot.tick s2 = Snapshot.tick s1 /\
      Snapshot.observables s2 = Snapshot.observables s1 /\
      Snapshot.subscribers s2 = Snapshot.subscribers s1 /\
      Snapshot.subscriptions s2 = Snapshot.subscriptions s1 /\
      Snapshot.objects s2 = Snapshot.objects s1 /\
      Snapshot.sourceMapsResolved s2 = Snapshot.sourceMapsResolved s1.
Proof.
  intros fuel since st heap s1 heap1.
  unfold snapshotAll.
  destruct (getSubscriptionRefs_ st fuel) as [w | |]; cbn [rbind];
    try discriminate.
  destruct (rforEach (snapshot_ref lookups st) (mkeys (Walk.map w)) _)
    as [b1 | |]; cbn [rbind]; try discriminate.
  destruct (rforEach (link_ref st) (mkeys (Walk.map w)) b1)
    as [b2 | |]; cbn [rbind]; try discriminate.
  destruct since as [s |]; intros H; inversion H; subst;
    eexists; eexists; (split; [reflexivity|]); cbn;
    repeat split; try reflexivity; lia.
Qed.

Lemma snapshot_ref_returns (st : State) (ref : Ref) (b : Building) :
  getGraphRef st ref <> None -> getSnapshotRef st ref <> None ->
  exists b', snapshot_ref lookups st ref b = Ok b'.
Proof.
  intros Hg Hs. unfold snapshot_ref.
  destruct (getGraphRef st ref) as [g |]; [| congruence].
  destruct (getSnapshotRef st ref) as [s |]; [| congruence].
  eexists. reflexivity.
Qed.

Lemma snapshot_refs_return (st : State) (refs : list Ref) :
  (forall r, In r refs ->
     getGraphRef st r <> None /\ getSnapshotRef st r <> None) ->
  forall b, building_ok b ->
    exists b',
      rforEach (snapshot_ref lookups st) refs b = Ok b' /\
      building_ok b' /\
      (forall r, In r refs ->
         In (SubscriptionRef.subscription (State.refs st r))
            (mkeys (b_subscriptions b'))) /\
      (forall k, In k (mkeys (b_subscriptions b)) ->
                 In k (mkeys (b_subscriptions b'))).
Proof.
  induction refs as [| r refs IH]; intros Hall b Hb.
  - exists b. split; [reflexivity|]. split; [exact Hb|].
    split; [intros r [] | auto].
  - destruct (Hall r (or_introl eq_refl)) as [Hg Hs].
    destruct (snapshot_ref_returns st r b Hg Hs) as (b1 & H1).
    destruct (snapshot_ref_ok st r b b1 Hb H1) as (Hb1 & Hin1 & Hmono1).
    destruct (IH (fun x Hx => Hall x (or_intror Hx)) b1 Hb1)
      as (b2 & H2 & Hb2 & Hin2 & Hmono2).
    exists b2. cbn [rforEach]. rewrite H1. cbn [rbind].
    split; [exact H2|]. split; [exact Hb2|]. split.
    + intros x [<- | Hx]; [apply Hmono2; exact Hin1 | apply Hin2; exact Hx].
    + intros k Hk. apply Hmono2, Hmono1, Hk.
Qed.

Lemma link_ref_returns (st : State) (ref : Ref) (b : Building) :
  building_ok b ->
  getGraphRef st ref <> None ->
  In (SubscriptionRef.subscription (State.refs st ref))
     (mkeys (b_subscriptions b)) ->
  exists b', link_ref st ref b = Ok b'.
Proof.
  intros (_ & _ & _ & Hh) Hg Hin. unfold link_ref.
  destruct (getGraphRef st ref) as [g |]; [| congruence].
  destruct (mget_in_keys opt_eqb opt_eqb_spec _ _ Hin) as (h & Hget & Hin').
  rewrite Hget.
  destruct (Hh _ _ Hin') as (r & -> & Hr).
  destruct (mget_in_keys Nat.eqb nat_eqb_spec _ _ Hr) as (o & Hgo & _).
  cbn [get_object]. rewrite Hgo. eexists. reflexivity.
Qed.

Lemma link_refs_return (st : State) (refs : list Ref) :
  forall b, building_ok b ->
    (forall r, In r refs ->
       getGraphRef st r <> None /\
       In (SubscriptionRef.subscription (State.refs st r))
          (mkeys (b_subscriptions b))) ->
    exists b', rforEach (link_ref st) refs b = Ok b'.
Proof.
  induction refs as [| r refs IH]; intros b Hb Hall.
  - exists b. reflexivity.
  - destruct (Hall r (or_introl eq_refl)) as [Hg Hin].
    destruct (link_ref_returns st r b Hb Hg Hin) as (b1 & H1).
    destruct (link_ref_ok st r b b1 Hb H1) as (Hb1 & Esub).
    destruct (IH b1 Hb1) as (b2 & H2).
    { intros x Hx. rewrite Esub. apply Hall. right. exact Hx. }
    exists b2. cbn [rforEach]. rewrite H1. exact H2.
Qed.

(** On an acyclic graph whose reachable refs carry a GraphRef and a
    SnapshotRef, [snapshotAll] returns a snapshot. *)
Lemma snapshotAll_returns (st : State) (rank : Ref -> nat) :
  well_formed st rank ->
  (forall x, reachable st x -> getSnapshotRef st x <> None) ->
  exists fuel0, forall fuel, (fuel0 <= fuel)%nat ->
    forall since heap, exists snap,
      snapshotAll lookups fuel since st heap = Ok (snap, S heap).
Proof.
  intros Hwf Hsnap.
  destruct (getSubscriptionRefs_returns st rank Hwf) as (fuel0 & Hwalk).
  exists fuel0. intros fuel Hfuel since heap.
  destruct (Hwalk fuel Hfuel) as (w & Hw & _ & Hkeys & _).
  destruct Hwf as [_ Hgraphed].
  destruct (snapshot_refs_return st (mkeys (Walk.map w)))
    with (b := mkBuilding (Value := Value) [] [] [] [] [])
    as (b1 & H1 & Hb1 & Hin1 & _).
  { intros r Hr. apply Hkeys in Hr. auto. }
  { exact empty_building_ok. }
  destruct (link_refs_return st (mkeys (Walk.map w)) b1 Hb1) as (b2 & H2).
  { intros r Hr. split; [apply Hgraphed, Hkeys, Hr | apply Hin1, Hr]. }
  unfold snapshotAll. rewrite Hw. cbn [rbind]. rewrite H1. cbn [rbind].
  rewrite H2. cbn [rbind].
  destruct since; eexists; reflexivity.
Qed.

End SnapshotAllProperties.

(** The diamond, asked for what changed since tick 2: the subscriptions
    3 and 4 (ticks 3 and 4) with their observables and subscribers. *)
Example diamond_since_keeps_recent :
  mkeys (Snapshot.subscriptions diamond_since) = [Some 34; Some 33]%nat /\
  mkeys (Snapshot.observables diamond_since) = [14; 13]%nat /\
  mkeys (Snapshot.subscribers diamond_since) = [24; 23]%nat /\
  mkeys (Snapshot.objects diamond_since) = [1; 2; 4; 3]%nat.
Proof. repeat split. Qed.

Lemma snapshotAll_since_drops_stale_witness :
  snapshotAll diamond_lookups 4 (Some earlier_snapshot) diamond_state 1
  = Ok (diamond_since, 2%nat) /\
  (forall k v, In (k, v) (Snapshot.observables diamond_since) ->
     Snapshot.tick earlier_snapshot < ObservableSnapshot.tick v) /\
  (forall k v, In (k, v) (Snapshot.subscribers diamond_since) ->
     Snapshot.tick earlier_snapshot < SubscriberSnapshot.tick v) /\
  (forall k h, In (k, h) (Snapshot.subscriptions diamond_since) ->
     exists o, get_object h (Snapshot.objects diamond_since) = Some o /\
               Snapshot.tick earlier_snapshot < SubscriptionSnapshot.tick o).
Proof.
  split; [vm_compute; reflexivity|].
  apply (snapshotAll_since_drops_stale diamond_lookups 4%nat earlier_snapshot
           diamond_state 1%nat diamond_since 2%nat).
  vm_compute. reflexivity.
Defined.

Lemma snapshotAll_twice_equal_witness :
  snapshotAll diamond_lookups 4 None diamond_state 0
  = Ok (diamond_first, 1%nat) /\
  exists s2 heap2,
    snapshotAll diamond_lookups 4 None diamond_state 1 = Ok (s2, heap2) /\
    Snapshot.address s2 <> Snapshot.address diamond_first /\
    Snapshot.tick s2 = Snapshot.tick diamond_first /\
    Snapshot.observables s2 = Snapshot.observables diamond_first /\
    Snapshot.subscribers s2 = Snapshot.subscribers diamond_first /\
    Snapshot.subscriptions s2 = Snapshot.subscriptions diamond_first /\
    Snapshot.objects s2 = Snapshot.objects diamond_first /\
    Snapshot.sourceMapsResolved s2 = Snapshot.sourceMapsResolved diamond_first.
Proof.
  split; [vm_compute; reflexivity|].
  apply (snapshotAll_twice_equal diamond_lookups 4%nat None diamond_state
           0%nat diamond_first 1%nat).
  vm_compute. reflexivity.
Defined.

(* ================================================================== *)
(** * Further properties of the snapshot plugin                       *)
(* ================================================================== *)

Section SnapshotFurther.
Context {Value : Type}.
Variable lookups : Lookups.t.

Local Abbreviation State := (State.t Value).
Local Abbreviation Building := (@Building Value).

(** [snapshotAll] is the building followed by the sort and the filter. *)
Lemma snapshotAll_building (fuel : nat) (since : option (Snapshot.t Value))
    (st : State) (heap : nat) :
  snapshotAll lookups fuel since st heap =
  match snapshot_building lookups st fuel with
  | Ok b =>
      let subscribers :=
        map (fun kv => (fst kv, sort_values (snd kv))) (b_subscribers b) in
      match since with
      | Some s =>
          Ok (Snapshot.mk
                (delete_stale Nat.eqb
                   (fun v => ObservableSnapshot.tick v <=? Snapshot.tick s)
                   (b_observables b))
                (b_promises b)
                (delete_stale Nat.eqb
                   (fun v => SubscriberSnapshot.tick v <=? Snapshot.tick s)
                   subscribers)
                (delete_stale opt_eqb
                   (subscription_stale (Snapshot.tick s) (b_objects b))
                   (b_subscriptions b))
                (State.spy_tick st) (b_objects b) heap,
              S heap)
      | None =>
          Ok (Snapshot.mk (b_observables b) (b_promises b) subscribers
                (b_subscriptions b) (State.spy_tick st) (b_objects b) heap,
              S heap)
      end
  | TypeError => TypeError
  | OutOfFuel => OutOfFuel
  end.
Proof.
  unfold snapshotAll, snapshot_building. cbv zeta.
  destruct (getSubscriptionRefs_ st fuel) as [w | |]; cbn [rbind];
    try reflexivity.
  destruct (rforEach (snapshot_ref lookups st) (mkeys (Walk.map w)) _)
    as [b1 | |]; cbn [rbind]; try reflexivity.
Qed.

Lemma snapshot_building_ok (st : State) (fuel : nat) (b : Building) :
  snapshot_building lookups st fuel = Ok b -> building_ok b.
Proof.
  unfold snapshot_building.
  destruct (getSubscriptionRefs_ st fuel) as [w | |]; cbn [rbind];
    try discriminate.
  destruct (rforEach (snapshot_ref lookups st) (mkeys (Walk.map w)) _)
    as [b1 | |] eqn:H1; cbn [rbind]; try discriminate.
  intros H2.
  assert (Hb1 : building_ok b1).
  { apply (rforEach_invariant building_ok (snapshot_ref lookups st)
             (mkeys (Walk.map w))) with (s := mkBuilding [] [] [] [] []);
      [| exact empty_building_ok | exact H1].
    intros x s s' _ Hs Hx.
    exact (proj1 (snapshot_ref_ok lookups st x s s' Hs Hx)). }
  apply (rforEach_invariant building_ok (link_ref st)
           (mkeys (Walk.map w))) with (s := b1); [| exact Hb1 | exact H2].
  intros x s s' _ Hs Hx. exact (proj1 (link_ref_ok st x s s' Hs Hx)).
Qed.

Lemma filter_ext_all {A : Type} (f g : A -> bool) (l : list A) :
  (forall x, f x = g x) -> filter f l = filter g l.
Proof. intros H. apply filter_ext. exact H. Qed.

(** X1. The [since] option removes the stale entries from the three
    top-level maps and nothing else: what [snapshotAll({ since })]
    returns is what [snapshotAll()] returns in the same state, with each
    top-level map restricted, in its order, to the entries whose tick is
    above [since.tick]; the snapshot objects, with their edges, and the
    tick are the same. *)
Theorem snapshotAll_since_keeps_recent :
  forall (fuel : nat) (since : Snapshot.t Value) (st : State) (heap : nat)
         (snap : Snapshot.t Value) (heap' : nat),
    snapshotAll lookups fuel (Some since) st heap = Ok (snap, heap') ->
    exists full,
      snapshotAll lookups fuel None st heap = Ok (full, heap') /\
      Snapshot.observables snap
      = filter (fun kv => Snapshot.tick since <? ObservableSnapshot.tick (snd kv))
               (Snapshot.observables full) /\
      Snapshot.subscribers snap
      = filter (fun kv => Snapshot.tick since <? SubscriberSnapshot.tick (snd kv))
               (Snapshot.subscribers full) /\
      Snapshot.subscriptions snap
      = filter (fun kh => subscription_recent (Snapshot.tick since)
                            (Snapshot.objects full) (snd kh))
               (Snapshot.subscriptions full) /\
      Snapshot.objects snap = Snapshot.objects full /\
      Snapshot.tick snap = Snapshot.tick full /\
      Snapshot.sourceMapsResolved snap = Snapshot.sourceMapsResolved full.
Proof.
  intros fuel since st heap snap heap'.
  rewrite !snapshotAll_building.
  destruct (snapshot_building lookups st fuel) as [b | |] eqn:Hb;
    try discriminate.
  destruct (snapshot_building_ok st fuel b Hb) as (Ho & Hs & Hn & _).
  cbn zeta. intros H. inversion H. subst. clear H.
  eexists. split; [reflexivity|]. cbn.
  split; [| split; [| split; [| auto]]].
  - rewrite (delete_stale_filter Nat.eqb nat_eqb_spec _ _ Ho).
    apply filter_ext_all. intros [k v]. cbn. apply eq_sym, Z.ltb_antisym.
  - rewrite (delete_stale_filter Nat.eqb nat_eqb_spec).
    + apply filter_ext_all. intros [k v]. cbn. apply eq_sym, Z.ltb_antisym.
    + rewrite mkeys_map_values. exact Hs.
  - rewrite (delete_stale_filter opt_eqb opt_eqb_spec _ _ Hn).
    apply filter_ext_all. intros [k h]. cbn.
    unfold subscription_stale, subscription_recent.
    destruct (get_object h (b_objects b)); [| reflexivity].
    apply eq_sym, Z.ltb_antisym.
Qed.

End SnapshotFurther.

Lemma snapshotAll_since_keeps_recent_witness :
  snapshotAll diamond_lookups 4 (Some earlier_snapshot) diamond_state 1
  = Ok (diamond_since, 2%nat) /\
  exists full,
    snapshotAll diamond_lookups 4 None diamond_state 1 = Ok (full, 2%nat) /\
    Snapshot.observables diamond_since
    = filter (fun kv => Snapshot.tick earlier_snapshot
                        <? ObservableSnapshot.tick (snd kv))
             (Snapshot.observables full) /\
    Snapshot.subscribers diamond_since
    = filter (fun kv => Snapshot.tick earlier_snapshot
                        <? SubscriberSnapshot.tick (snd kv))
             (Snapshot.subscribers full) /\
    Snapshot.subscriptions diamond_since
    = filter (fun kh => subscription_recent (Snapshot.tick earlier_snapshot)
                          (Snapshot.objects full) (snd kh))
             (Snapshot.subscriptions full) /\
    Snapshot.objects diamond_since = Snapshot.objects full /\
    Snapshot.tick diamond_since = Snapshot.tick full /\
    Snapshot.sourceMapsResolved diamond_since
    = Snapshot.sourceMapsResolved full.
Proof.
  split; [vm_compute; reflexivity|].
  apply (snapshotAll_since_keeps_recent diamond_lookups 4%nat earlier_snapshot
           diamond_state 1%nat diamond_since 2%nat).
  vm_compute. reflexivity.
Defined.

(** ** Lookups in a [Map] *)

Section JsMapLookup.
Context {K V : Type}.
Variable eqb : K -> K -> bool.
Hypothesis eqb_spec : forall a b, eqb a b = true <-> a = b.

Lemma eqb_neq_false (a b : K) : a <> b -> eqb a b = false.
Proof.
  intros H. destruct (eqb a b) eqn:E; [| reflexivity].
  apply eqb_spec in E. contradiction.
Qed.

Lemma eqb_same_true (a : K) : eqb a a = true.
Proof. now apply eqb_spec. Qed.

Lemma mget_mset_same (k : K) (v : V) (m : list (K * V)) :
  mget eqb k (mset eqb k v m) = Some v.
Proof.
  induction m as [| [k' v'] m IH]; cbn.
  - rewrite eqb_same_true. reflexivity.
  - destruct (eqb k k') eqn:E; cbn.
    + rewrite eqb_same_true. reflexivity.
    + rewrite E. exact IH.
Qed.

Lemma mget_mset_other (k k' : K) (v : V) (m : list (K * V)) :
  k <> k' -> mget eqb k (mset eqb k' v m) = mget eqb k m.
Proof.
  intros Hne. induction m as [| [k0 v0] m IH]; cbn.
  - rewrite (eqb_neq_false _ _ Hne). reflexivity.
  - destruct (eqb k' k0) eqn:E; cbn.
    + apply eqb_spec in E. subst k0.
      rewrite (eqb_neq_false _ _ Hne). reflexivity.
    + destruct (eqb k k0); [reflexivity | exact IH].
Qed.

Lemma mget_some_in (k : K) (v : V) (m : list (K * V)) :
  mget eqb k m = Some v -> In (k, v) m.
Proof.
  induction m as [| [k' v'] m IH]; cbn; [discriminate|].
  destruct (eqb k k') eqn:E.
  - apply eqb_spec in E. subst. intros H. inversion H. left. reflexivity.
  - intros H. right. exact (IH H).
Qed.

Lemma mget_none_notin (k : K) (m : list (K * V)) :
  mget eqb k m = None <-> ~ In k (mkeys m).
Proof.
  induction m as [| [k' v'] m IH]; cbn.
  - split; [intros _ [] | reflexivity].
  - destruct (eqb k k') eqn:E.
    + apply eqb_spec in E. subst. split; [discriminate|].
      intros H. exfalso. apply H. left. reflexivity.
    + rewrite IH. split.
      * intros H [H' | H']; [| exact (H H')].
        subst. rewrite eqb_same_true in E. discriminate.
      * intros H H'. apply H. right. exact H'.
Qed.

Lemma mget_in_nodup (k : K) (v : V) (m : list (K * V)) :
  NoDup (mkeys m) -> In (k, v) m -> mget eqb k m = Some v.
Proof.
  induction m as [| [k' v'] m IH]; cbn; intros Hnd Hin; [destruct Hin|].
  inversion Hnd as [| ? ? Hnotin Hnd']; subst.
  destruct Hin as [H | H].
  - inversion H. subst. rewrite eqb_same_true. reflexivity.
  - destruct (eqb k k') eqn:E; [| exact (IH Hnd' H)].
    apply eqb_spec in E. subst. exfalso. apply Hnotin.
    unfold mkeys. apply (in_map fst _ _ H).
Qed.

Lemma mget_filter (f : K * V -> bool) (k : K) (v : V) (m : list (K * V)) :
  NoDup (mkeys m) -> mget eqb k (filter f m) = Some v -> mget eqb k m = Some v.
Proof.
  intros Hnd H. apply (mget_in_nodup _ _ _ Hnd).
  apply mget_some_in in H. apply filter_In in H. tauto.
Qed.

Lemma mget_map_values {W : Type} (g : V -> W) (k : K) (m : list (K * V)) :
  mget eqb k (map (fun kv => (fst kv, g (snd kv))) m)
  = option_map g (mget eqb k m).
Proof.
  induction m as [| [k' v'] m IH]; cbn; [reflexivity|].
  destruct (eqb k k'); [reflexivity | exact IH].
Qed.

End JsMapLookup.

(** ** The sort of the values *)

Section SortByTick.
Context {Value : Type}.

Local Abbreviation Entry := (ValueEntry.t Value).

Lemma insert_by_tick_perm (x : Entry) (l : list Entry) :
  Permutation (insert_by_tick x l) (x :: l).
Proof.
  induction l as [| y l IH]; cbn; [apply Permutation_refl|].
  destruct (ValueEntry.tick x <? ValueEntry.tick y).
  - apply Permutation_refl.
  - apply (Permutation_trans (l' := y :: x :: l)).
    + apply perm_skip. exact IH.
    + apply perm_swap.
Qed.

Lemma sort_by_tick_perm_acc (l acc : list Entry) :
  Permutation (fold_left (fun a x => insert_by_tick x a) l acc) (acc ++ l).
Proof.
  revert acc. induction l as [| x l IH]; intros acc; cbn.
  - rewrite app_nil_r. apply Permutation_refl.
  - apply (Permutation_trans (IH _)).
    apply (Permutation_trans (l' := (x :: acc) ++ l)).
    + apply Permutation_app_tail. apply insert_by_tick_perm.
    + cbn. apply Permutation_middle.
Qed.

Lemma sort_by_tick_perm (l : list Entry) : Permutation (sort_by_tick l) l.
Proof. exact (sort_by_tick_perm_acc l []). Qed.

Lemma insert_by_tick_sorted (x : Entry) (l : list Entry) :
  sorted_by_tick l -> sorted_by_tick (insert_by_tick x l).
Proof.
  unfold sorted_by_tick.
  induction l as [| y l IH]; cbn; intros Hs.
  - constructor; constructor.
  - inversion Hs as [| ? ? Hs' Hall]; subst.
    destruct (ValueEntry.tick x <? ValueEntry.tick y) eqn:E.
    + apply Z.ltb_lt in E. constructor; [exact Hs|].
      constructor; [lia|].
      apply (Forall_impl _ (P := fun b => ValueEntry.tick y <= ValueEntry.tick b));
        [intros a Ha; lia | exact Hall].
    + apply Z.ltb_ge in E. constructor; [exact (IH Hs')|].
      apply (Permutation_Forall (Permutation_sym (insert_by_tick_perm x l))).
      constructor; [exact E | exact Hall].
Qed.

Lemma sort_by_tick_sorted_acc (l acc : list Entry) :
  sorted_by_tick acc ->
  sorted_by_tick (fold_left (fun a x => insert_by_tick x a) l acc).
Proof.
  revert acc. induction l as [| x l IH]; intros acc Hs; cbn; [exact Hs|].
  apply IH. apply insert_by_tick_sorted. exact Hs.
Qed.

Lemma sort_by_tick_sorted (l : list Entry) : sorted_by_tick (sort_by_tick l).
Proof. apply sort_by_tick_sorted_acc. constructor. Qed.

End SortByTick.

(** ** The grouping by subscriber and by observable *)

Section SnapshotGroupsProperties.
Context {Value : Type}.
Variable lookups : Lookups.t.
Variable st : State.t Value.

Local Abbreviation Building := (@Building Value).

Lemma rforEach_prefix_invariant {A S : Type} (P : list A -> S -> Prop)
    (f : A -> S -> result S) :
  (forall seen x s s', P seen s -> f x s = Ok s' -> P (seen ++ [x]) s') ->
  forall xs seen s s', P seen s -> rforEach f xs s = Ok s' -> P (seen ++ xs) s'.
Proof.
  intros Hstep. induction xs as [| x xs IH]; intros seen s s' Hs Hrun.
  - cbn in Hrun. inversion Hrun. subst. rewrite app_nil_r. exact Hs.
  - cbn [rforEach] in Hrun.
    destruct (f x s) as [s1 | |] eqn:Hx; cbn [rbind] in Hrun;
      try discriminate.
    replace (seen ++ x :: xs) with ((seen ++ [x]) ++ xs)
      by (rewrite <- app_assoc; reflexivity).
    apply (IH _ s1 s'); [| exact Hrun]. exact (Hstep seen x s s1 Hs Hx).
Qed.

Lemma fold_right_add_snoc (l : list Z) (x : Z) :
  fold_right Z.add 0 (l ++ [x]) = fold_right Z.add 0 l + x.
Proof. induction l as [| y l IH]; cbn [fold_right app]; lia. Qed.

Lemma snapshot_ref_subscribers (seen : list Ref) (x : Ref) (b b' : Building) :
  subscribers_grouped lookups st seen b ->
  snapshot_ref lookups st x b = Ok b' ->
  subscribers_grouped lookups st (seen ++ [x]) b'.
Proof.
  intros Hinv Hrun. unfold snapshot_ref in Hrun.
  destruct (getGraphRef st x) as [g |]; [| discriminate].
  destruct (getSnapshotRef st x) as [sr |] eqn:Hsr; [| discriminate].
  cbv zeta in Hrun. inversion Hrun. subst b'. clear Hrun.
  assert (Htick : ref_tick st x = SnapshotRef.tick sr)
    by (unfold ref_tick; rewrite Hsr; reflexivity).
  assert (Hvals : ref_values st x = SnapshotRef.values sr)
    by (unfold ref_values; rewrite Hsr; reflexivity).
  assert (Hfl : ref_valuesFlushed st x = SnapshotRef.valuesFlushed sr)
    by (unfold ref_valuesFlushed; rewrite Hsr; reflexivity).
  intros k. cbn [b_subscribers]. unfold of_subscriber.
  rewrite filter_app. cbn [filter].
  destruct (Nat.eqb (SubscriptionRef.subscriber (State.refs st x)) k) eqn:E.
  - apply Nat.eqb_eq in E. subst k.
    rewrite (mget_mset_same Nat.eqb nat_eqb_spec).
    specialize (Hinv (SubscriptionRef.subscriber (State.refs st x))).
    unfold of_subscriber in Hinv.
    set (grp := filter _ seen) in *.
    destruct (mget Nat.eqb _ (b_subscribers b)) as [s |].
    + destruct Hinv as ((Hne & Hk & Hid & Hf & (r & Hr & Ht) & Hb & Hkeys) & Hv).
      unfold subscriber_of_group. cbn. split; [repeat split|].
      * intros H. destruct grp; discriminate.
      * exact Hk.
      * exact Hid.
      * rewrite map_app. cbn [map]. rewrite fold_right_add_snoc, Hf, Hfl.
        reflexivity.
      * destruct (Z.max_spec (SubscriberSnapshot.tick s) (SnapshotRef.tick sr))
          as [[_ ->] | [_ ->]].
        -- exists x. split; [apply in_or_app; right; left; reflexivity|].
           symmetry. exact Htick.
        -- exists r. split; [apply in_or_app; left; exact Hr | exact Ht].
      * intros r' Hin. apply in_app_or in Hin. destruct Hin as [Hin | [<- | []]].
        -- specialize (Hb r' Hin). lia.
        -- rewrite Htick. lia.
      * intros Hin. apply (mset_keys_in opt_eqb opt_eqb_spec) in Hin.
        destruct Hin as [-> | Hin].
        -- exists x. split; [apply in_or_app; right; left|]; reflexivity.
        -- apply Hkeys in Hin. destruct Hin as (r' & Hr' & <-).
           exists r'. split; [apply in_or_app; left; exact Hr' | reflexivity].
      * intros (r' & Hin & <-).
        apply (mset_keys_in opt_eqb opt_eqb_spec).
        apply in_app_or in Hin. destruct Hin as [Hin | [<- | []]].
        -- right. apply Hkeys. exists r'. split; [exact Hin | reflexivity].
        -- left. reflexivity.
      * rewrite map_app, concat_app, Hv. cbn. rewrite app_nil_r, Hvals.
        reflexivity.
    + rewrite Hinv. unfold subscriber_of_group. cbn. split; [repeat split|].
      * discriminate.
      * rewrite Hfl. lia.
      * exists x. split; [left; reflexivity|]. rewrite Htick. lia.
      * intros r' [<- | []]. rewrite Htick. lia.
      * intros [<- | []]. exists x. split; [left|]; reflexivity.
      * intros (r' & [<- | []] & <-). left. reflexivity.
      * rewrite app_nil_r. symmetry. exact Hvals.
  - rewrite app_nil_r.
    rewrite (mget_mset_other Nat.eqb nat_eqb_spec).
    + exact (Hinv k).
    + intros ->. rewrite Nat.eqb_refl in E. discriminate.
Qed.

Lemma snapshot_ref_observables (seen : list Ref) (x : Ref) (b b' : Building) :
  observables_grouped lookups st seen b ->
  snapshot_ref lookups st x b = Ok b' ->
  observables_grouped lookups st (seen ++ [x]) b'.
Proof.
  intros Hinv Hrun. unfold snapshot_ref in Hrun.
  destruct (getGraphRef st x) as [g |]; [| discriminate].
  destruct (getSnapshotRef st x) as [sr |] eqn:Hsr; [| discriminate].
  cbv zeta in Hrun. inversion Hrun. subst b'. clear Hrun.
  assert (Htick : ref_tick st x = SnapshotRef.tick sr)
    by (unfold ref_tick; rewrite Hsr; reflexivity).
  intros k. cbn [b_observables]. unfold of_observable.
  rewrite filter_app. cbn [filter].
  destruct (Nat.eqb (SubscriptionRef.observable (State.refs st x)) k) eqn:E.
  - apply Nat.eqb_eq in E. subst k.
    rewrite (mget_mset_same Nat.eqb nat_eqb_spec).
    specialize (Hinv (SubscriptionRef.observable (State.refs st x))).
    unfold of_observable in Hinv.
    set (grp := filter _ seen) in *.
    destruct (mget Nat.eqb _ (b_observables b)) as [o |].
    + destruct Hinv
        as (Hne & Hk & Hid & Hp & Htag & Hty & (r & Hr & Ht) & Hb & Hkeys).
      unfold observable_of_group. cbn. repeat split; try assumption.
      * intros H. destruct grp; discriminate.
      * destruct (Z.max_spec (ObservableSnapshot.tick o) (SnapshotRef.tick sr))
          as [[_ ->] | [_ ->]].
        -- exists x. split; [apply in_or_app; right; left; reflexivity|].
           symmetry. exact Htick.
        -- exists r. split; [apply in_or_app; left; exact Hr | exact Ht].
      * intros r' Hin. apply in_app_or in Hin. destruct Hin as [Hin | [<- | []]].
        -- specialize (Hb r' Hin). lia.
        -- rewrite Htick. lia.
      * intros Hin. apply (mset_keys_in opt_eqb opt_eqb_spec) in Hin.
        destruct Hin as [-> | Hin].
        -- exists x. split; [apply in_or_app; right; left|]; reflexivity.
        -- apply Hkeys in Hin. destruct Hin as (r' & Hr' & <-).
           exists r'. split; [apply in_or_app; left; exact Hr' | reflexivity].
      * intros (r' & Hin & <-).
        apply (mset_keys_in opt_eqb opt_eqb_spec).
        apply in_app_or in Hin. destruct Hin as [Hin | [<- | []]].
        -- right. apply Hkeys. exists r'. split; [exact Hin | reflexivity].
        -- left. reflexivity.
    + rewrite Hinv. unfold observable_of_group. cbn. repeat split.
      * discriminate.
      * exists x. split; [left; reflexivity|]. rewrite Htick. lia.
      * intros r' [<- | []]. rewrite Htick. lia.
      * intros [<- | []]. exists x. split; [left|]; reflexivity.
      * intros (r' & [<- | []] & <-). left. reflexivity.
  - rewrite app_nil_r.
    rewrite (mget_mset_other Nat.eqb nat_eqb_spec).
    + exact (Hinv k).
    + intros ->. rewrite Nat.eqb_refl in E. discriminate.
Qed.

Lemma link_ref_groups (x : Ref) (b b' : Building) :
  link_ref st x b = Ok b' ->
  b_subscribers b' = b_subscribers b /\ b_observables b' = b_observables b.
Proof.
  intros Hrun.
  destruct (link_ref_inv st x b b' Hrun) as [-> | (target & o' & ->)];
    split; reflexivity.
Qed.

(** The maps of a building are grouped by the refs of the walk. *)
Lemma snapshot_building_grouped (fuel : nat) (b : Building) :
  snapshot_building lookups st fuel = Ok b ->
  exists w,
    getSubscriptionRefs_ st fuel = Ok w /\
    subscribers_grouped lookups st (mkeys (Walk.map w)) b /\
    observables_grouped lookups st (mkeys (Walk.map w)) b.
Proof.
  unfold snapshot_building.
  destruct (getSubscriptionRefs_ st fuel) as [w | |]; cbn [rbind];
    try discriminate.
  destruct (rforEach (snapshot_ref lookups st) (mkeys (Walk.map w)) _)
    as [b1 | |] eqn:H1; cbn [rbind]; try discriminate.
  intros H2. exists w. split; [reflexivity|].
  assert (Hkeep : b_subscribers b = b_subscribers b1 /\
                  b_observables b = b_observables b1).
  { apply (rforEach_invariant
             (fun s => b_subscribers s = b_subscribers b1 /\
                       b_observables s = b_observables b1)
             (link_ref st) (mkeys (Walk.map w))) with (s := b1);
      [| split; reflexivity | exact H2].
    intros x s s' _ [Hs Ho] Hx.
    destruct (link_ref_groups x s s' Hx) as [-> ->]. split; assumption. }
  destruct Hkeep as [Hs Ho].
  split.
  - assert (H : subscribers_grouped lookups st ([] ++ mkeys (Walk.map w)) b1).
    { apply (rforEach_prefix_invariant (subscribers_grouped lookups st)
               (snapshot_ref lookups st) snapshot_ref_subscribers
               (mkeys (Walk.map w)) [] (mkBuilding [] [] [] [] []) b1);
        [| exact H1].
      intros k. reflexivity. }
    intros k. rewrite Hs. exact (H k).
  - assert (H : observables_grouped lookups st ([] ++ mkeys (Walk.map w)) b1).
    { apply (rforEach_prefix_invariant (observables_grouped lookups st)
               (snapshot_ref lookups st) snapshot_ref_observables
               (mkeys (Walk.map w)) [] (mkBuilding [] [] [] [] []) b1);
        [| exact H1].
      intros k. reflexivity. }
    intros k. rewrite Ho. exact (H k).
Qed.

End SnapshotGroupsProperties.

Section SnapshotGroupsTheorems.
Context {Value : Type}.
Variable lookups : Lookups.t.

Local Abbreviation State := (State.t Value).

(** The entries of a returned snapshot are those of the building. *)
Lemma snapshotAll_entries (fuel : nat) (since : option (Snapshot.t Value))
    (st : State) (heap : nat) (snap : Snapshot.t Value) (heap' : nat) :
  snapshotAll lookups fuel since st heap = Ok (snap, heap') ->
  exists b,
    snapshot_building lookups st fuel = Ok b /\
    (forall k s, mget Nat.eqb k (Snapshot.subscribers snap) = Some s ->
       exists s0, mget Nat.eqb k (b_subscribers b) = Some s0 /\
                  s = sort_values s0) /\
    (forall k o, mget Nat.eqb k (Snapshot.observables snap) = Some o ->
       mget Nat.eqb k (b_observables b) = Some o) /\
    (since = None ->
       Snapshot.subscribers snap
       = map (fun kv => (fst kv, sort_values (snd kv))) (b_subscribers b) /\
       Snapshot.observables snap = b_observables b).
Proof.
  rewrite snapshotAll_building.
  destruct (snapshot_building lookups st fuel) as [b | |] eqn:Hb;
    try discriminate.
  destruct (snapshot_building_ok lookups st fuel b Hb) as (Ho & Hs & _).
  assert (Hsub : forall k s,
            mget Nat.eqb k
              (map (fun kv => (fst kv, sort_values (snd kv))) (b_subscribers b))
            = Some s ->
            exists s0, mget Nat.eqb k (b_subscribers b) = Some s0 /\
                       s = sort_values s0).
  { intros k s H. rewrite mget_map_values in H.
    destruct (mget Nat.eqb k (b_subscribers b)) as [s0 |]; [| discriminate].
    inversion H. exists s0. split; reflexivity. }
  cbv zeta. intros H. exists b. split; [reflexivity|].
  destruct since as [s |]; inversion H; subst; clear H; cbn.
  - split; [| split; [| discriminate]].
    + intros k s0 H. apply Hsub.
      rewrite (delete_stale_filter Nat.eqb nat_eqb_spec) in H
        by (rewrite mkeys_map_values; exact Hs).
      apply (mget_filter Nat.eqb nat_eqb_spec) in H; [exact H|].
      rewrite mkeys_map_values. exact Hs.
    + intros k o H.
      rewrite (delete_stale_filter Nat.eqb nat_eqb_spec _ _ Ho) in H.
      exact (mget_filter Nat.eqb nat_eqb_spec _ _ _ _ Ho H).
  - split; [exact Hsub | split; [auto | split; reflexivity]].
Qed.

(** X2. A SubscriberSnapshot of [snapshotAll] gathers every
    subscription of its subscriber that the walk has collected: its
    values are the values kept for those subscriptions, all of them, in
    the order of their ticks; its [valuesFlushed] is the sum of theirs;
    its tick is the greatest of theirs; and its [subscriptions] map has
    their subscriptions as keys. *)
Theorem subscriber_snapshot_gathers_subscriptions :
  forall (fuel : nat) (since : option (Snapshot.t Value)) (st : State)
         (heap : nat) (snap : Snapshot.t Value) (heap' : nat)
         (k : SubscriberId) (s : SubscriberSnapshot.t Value),
    snapshotAll lookups fuel since st heap = Ok (snap, heap') ->
    mget Nat.eqb k (Snapshot.subscribers snap) = Some s ->
    exists w,
      getSubscriptionRefs_ st fuel = Ok w /\
      let group := of_subscriber st k (mkeys (Walk.map w)) in
      group <> [] /\
      SubscriberSnapshot.subscriber s = k /\
      Permutation (SubscriberSnapshot.values s)
                  (concat (map (ref_values st) group)) /\
      sorted_by_tick (SubscriberSnapshot.values s) /\
      SubscriberSnapshot.valuesFlushed s
      = fold_right Z.add 0 (map (ref_valuesFlushed st) group) /\
      (exists r, In r group /\ SubscriberSnapshot.tick s = ref_tick st r) /\
      (forall r, In r group -> ref_tick st r <= SubscriberSnapshot.tick s) /\
      (forall key, In key (mkeys (SubscriberSnapshot.subscriptions s)) <->
         exists r, In r group /\
                   SubscriptionRef.subscription (State.refs st r) = key).
Proof.
  intros fuel since st heap snap heap' k s Hrun Hget.
  destruct (snapshotAll_entries fuel since st heap snap heap' Hrun)
    as (b & Hb & Hsub & _).
  destruct (snapshot_building_grouped lookups st fuel b Hb)
    as (w & Hw & Hgs & _).
  destruct (Hsub k s Hget) as (s0 & Hs0 & ->).
  specialize (Hgs k). rewrite Hs0 in Hgs.
  destruct Hgs as ((Hne & Hk & _ & Hf & Hmax & Hbound & Hkeys) & Hv).
  exists w. split; [exact Hw|]. cbv zeta. cbn.
  repeat split; try assumption.
  - rewrite <- Hv. apply sort_by_tick_perm.
  - apply sort_by_tick_sorted.
  - apply Hkeys.
  - apply Hkeys.
Qed.

(** X3. An ObservableSnapshot of [snapshotAll] stands for every
    subscription to its observable that the walk has collected: its tick
    is the greatest of their ticks, its [subscriptions] map has their
    subscriptions as keys, and its id, path, tag and type are those of
    the observable. *)
Theorem observable_snapshot_gathers_subscriptions :
  forall (fuel : nat) (since : option (Snapshot.t Value)) (st : State)
         (heap : nat) (snap : Snapshot.t Value) (heap' : nat)
         (k : ObservableId) (o : ObservableSnapshot.t),
    snapshotAll lookups fuel since st heap = Ok (snap, heap') ->
    mget Nat.eqb k (Snapshot.observables snap) = Some o ->
    exists w,
      getSubscriptionRefs_ st fuel = Ok w /\
      let group := of_observable st k (mkeys (Walk.map w)) in
      group <> [] /\
      ObservableSnapshot.observable o = k /\
      ObservableSnapshot.id o = Lookups.identify_observable lookups k /\
      ObservableSnapshot.path o = Lookups.inferPath lookups k /\
      ObservableSnapshot.tag o = Lookups.read lookups k /\
      ObservableSnapshot.type o = Lookups.inferType lookups k /\
      (exists r, In r group /\ ObservableSnapshot.tick o = ref_tick st r) /\
      (forall r, In r group -> ref_tick st r <= ObservableSnapshot.tick o) /\
      (forall key, In key (mkeys (ObservableSnapshot.subscriptions o)) <->
         exists r, In r group /\
                   SubscriptionRef.subscription (State.refs st r) = key).
Proof.
  intros fuel since st heap snap heap' k o Hrun Hget.
  destruct (snapshotAll_entries fuel since st heap snap heap' Hrun)
    as (b & Hb & _ & Hobs & _).
  destruct (snapshot_building_grouped lookups st fuel b Hb)
    as (w & Hw & _ & Hgo).
  specialize (Hgo k). rewrite (Hobs k o Hget) in Hgo.
  exists w. split; [exact Hw | exact Hgo].
Qed.

(** X4. [snapshotSubscriber(ref)] answers for the subscriber of [ref],
    not for [ref] alone: it returns [undefined] exactly when the walk
    collects no subscription of that subscriber, and for a collected
    [ref] it returns the snapshot of its subscriber, with the
    subscription of [ref] among the keys of its [subscriptions]. *)
Theorem snapshotSubscriber_answers_for_subscriber :
  forall (fuel : nat) (ref : Ref) (st : State) (heap : nat)
         (res : option (SubscriberSnapshot.t Value)) (heap' : nat),
    snapshotSubscriber lookups fuel ref st heap = Ok (res, heap') ->
    exists w,
      getSubscriptionRefs_ st fuel = Ok w /\
      (res = None <->
       forall r, In r (mkeys (Walk.map w)) ->
         SubscriptionRef.subscriber (State.refs st r)
         <> SubscriptionRef.subscriber (State.refs st ref)) /\
      (In ref (mkeys (Walk.map w)) ->
       exists s,
         res = Some s /\
         SubscriberSnapshot.subscriber s
         = SubscriptionRef.subscriber (State.refs st ref) /\
         In (SubscriptionRef.subscription (State.refs st ref))
            (mkeys (SubscriberSnapshot.subscriptions s))).
Proof.
  intros fuel ref st heap res heap'. unfold snapshotSubscriber.
  destruct (snapshotAll lookups fuel None st heap) as [[snap h] | |] eqn:Hrun;
    cbn [rbind]; try discriminate.
  intros H. inversion H. subst. clear H.
  destruct (snapshotAll_entries fuel None st heap snap heap' Hrun)
    as (b & Hb & _ & _ & Hnone).
  destruct (Hnone eq_refl) as [Hsubs _]. rewrite Hsubs.
  rewrite mget_map_values.
  destruct (snapshot_building_grouped lookups st fuel b Hb)
    as (w & Hw & Hgs & _).
  exists w. split; [exact Hw|].
  set (k := SubscriptionRef.subscriber (State.refs st ref)).
  specialize (Hgs k).
  assert (Hempty : of_subscriber st k (mkeys (Walk.map w)) = [] <->
                   forall r, In r (mkeys (Walk.map w)) ->
                     SubscriptionRef.subscriber (State.refs st r) <> k).
  { unfold of_subscriber. split.
    - intros He r Hin Heq.
      assert (Hr : In r (filter
                (fun r0 => Nat.eqb
                   (SubscriptionRef.subscriber (State.refs st r0)) k)
                (mkeys (Walk.map w)))).
      { apply filter_In. split; [exact Hin|]. apply Nat.eqb_eq. exact Heq. }
      rewrite He in Hr. destruct Hr.
    - intros Hall.
      destruct (filter _ (mkeys (Walk.map w))) as [| r l] eqn:E;
        [reflexivity|].
      assert (Hr : In r (r :: l)) by (left; reflexivity).
      rewrite <- E in Hr. apply filter_In in Hr. destruct Hr as [Hin Heq].
      apply Nat.eqb_eq in Heq. destruct (Hall r Hin Heq). }
  destruct (mget Nat.eqb k (b_subscribers b)) as [s0 |]; cbn [option_map].
  - destruct Hgs as ((Hne & Hk & _ & _ & _ & _ & Hkeys) & _).
    split.
    + split; [discriminate|]. intros Hall. apply Hempty in Hall.
      contradiction.
    + intros Hin. exists (sort_values s0). split; [reflexivity|].
      split; [exact Hk|]. cbn. apply Hkeys. exists ref.
      split; [| reflexivity]. unfold of_subscriber. apply filter_In.
      split; [exact Hin | apply Nat.eqb_refl].
  - split.
    + split; [intros _; apply Hempty; exact Hgs | reflexivity].
    + intros Hin. exfalso.
      apply (proj1 Hempty Hgs ref Hin). reflexivity.
Qed.

(** X5. [snapshotObservable(ref)] answers for the observable of [ref]:
    it returns [undefined] exactly when the walk collects no
    subscription to that observable, and for a collected [ref] it
    returns the snapshot of its observable, with the subscription of
    [ref] among the keys of its [subscriptions]. *)
Theorem snapshotObservable_answers_for_observable :
  forall (fuel : nat) (ref : Ref) (st : State) (heap : nat)
         (res : option ObservableSnapshot.t) (heap' : nat),
    snapshotObservable lookups fuel ref st heap = Ok (res, heap') ->
    exists w,
      getSubscriptionRefs_ st fuel = Ok w /\
      (res = None <->
       forall r, In r (mkeys (Walk.map w)) ->
         SubscriptionRef.observable (State.refs st r)
         <> SubscriptionRef.observable (State.refs st ref)) /\
      (In ref (mkeys (Walk.map w)) ->
       exists o,
         res = Some o /\
         ObservableSnapshot.observable o
         = SubscriptionRef.observable (State.refs st ref) /\
         In (SubscriptionRef.subscription (State.refs st ref))
            (mkeys (ObservableSnapshot.subscriptions o))).
Proof.
  intros fuel ref st heap res heap'. unfold snapshotObservable.
  destruct (snapshotAll lookups fuel None st heap) as [[snap h] | |] eqn:Hrun;
    cbn [rbind]; try discriminate.
  intros H. inversion H. subst. clear H.
  destruct (snapshotAll_entries fuel None st heap snap heap' Hrun)
    as (b & Hb & _ & _ & Hnone).
  destruct (Hnone eq_refl) as [_ Hobs]. rewrite Hobs.
  destruct (snapshot_building_grouped lookups st fuel b Hb)
    as (w & Hw & _ & Hgo).
  exists w. split; [exact Hw|].
  set (k := SubscriptionRef.observable (State.refs st ref)).
  specialize (Hgo k).
  assert (Hempty : of_observable st k (mkeys (Walk.map w)) = [] <->
                   forall r, In r (mkeys (Walk.map w)) ->
                     SubscriptionRef.observable (State.refs st r) <> k).
  { unfold of_observable. split.
    - intros He r Hin Heq.
      assert (Hr : In r (filter
                (fun r0 => Nat.eqb
                   (SubscriptionRef.observable (State.refs st r0)) k)
                (mkeys (Walk.map w)))).
      { apply filter_In. split; [exact Hin|]. apply Nat.eqb_eq. exact Heq. }
      rewrite He in Hr. destruct Hr.
    - intros Hall.
      destruct (filter _ (mkeys (Walk.map w))) as [| r l] eqn:E;
        [reflexivity|].
      assert (Hr : In r (r :: l)) by (left; reflexivity).
      rewrite <- E in Hr. apply filter_In in Hr. destruct Hr as [Hin Heq].
      apply Nat.eqb_eq in Heq. destruct (Hall r Hin Heq). }
  destruct (mget Nat.eqb k (b_observables b)) as [o |].
  - destruct Hgo as (Hne & Hk & _ & _ & _ & _ & _ & _ & Hkeys).
    split.
    + split; [discriminate|]. intros Hall. apply Hempty in Hall.
      contradiction.
    + intros Hin. exists o. split; [reflexivity|].
      split; [exact Hk|]. apply Hkeys. exists ref.
      split; [| reflexivity]. unfold of_observable. apply filter_In.
      split; [exact Hin | apply Nat.eqb_refl].
  - split.
    + split; [intros _; apply Hempty; exact Hgo | reflexivity].
    + intros Hin. exfalso.
      apply (proj1 Hempty Hgo ref Hin). reflexivity.
Qed.

End SnapshotGroupsTheorems.

Lemma subscriber_snapshot_gathers_subscriptions_witness :
  snapshotAll diamond_lookups 2 None shared_state 0 = Ok (shared_first, 1%nat) /\
  mget Nat.eqb 21%nat (Snapshot.subscribers shared_first)
  = Some shared_subscriber /\
  map (fun e => ValueEntry.tick e) (SubscriberSnapshot.values shared_subscriber)
  = [3; 4; 5] /\
  exists w,
    getSubscriptionRefs_ shared_state 2 = Ok w /\
    let group := of_subscriber shared_state 21%nat (mkeys (Walk.map w)) in
    group <> [] /\
    SubscriberSnapshot.subscriber shared_subscriber = 21%nat /\
    Permutation (SubscriberSnapshot.values shared_subscriber)
                (concat (map (ref_values shared_state) group)) /\
    sorted_by_tick (SubscriberSnapshot.values shared_subscriber) /\
    SubscriberSnapshot.valuesFlushed shared_subscriber
    = fold_right Z.add 0 (map (ref_valuesFlushed shared_state) group) /\
    (exists r, In r group /\
       SubscriberSnapshot.tick shared_subscriber = ref_tick shared_state r) /\
    (forall r, In r group ->
       ref_tick shared_state r <= SubscriberSnapshot.tick shared_subscriber) /\
    (forall key,
       In key (mkeys (SubscriberSnapshot.subscriptions shared_subscriber)) <->
       exists r, In r group /\
         SubscriptionRef.subscription (State.refs shared_state r) = key).
Proof.
  split; [vm_compute; reflexivity|].
  split; [vm_compute; reflexivity|].
  split; [vm_compute; reflexivity|].
  apply (subscriber_snapshot_gathers_subscriptions diamond_lookups 2%nat None
           shared_state 0%nat shared_first 1%nat 21%nat shared_subscriber);
    vm_compute; reflexivity.
Defined.

Lemma observable_snapshot_gathers_subscriptions_witness :
  snapshotAll diamond_lookups 2 None shared_state 0 = Ok (shared_first, 1%nat) /\
  mget Nat.eqb 12%nat (Snapshot.observables shared_first)
  = Some shared_observable /\
  ObservableSnapshot.tick shared_observable = 4 /\
  exists w,
    getSubscriptionRefs_ shared_state 2 = Ok w /\
    let group := of_observable shared_state 12%nat (mkeys (Walk.map w)) in
    group <> [] /\
    ObservableSnapshot.observable shared_observable = 12%nat /\
    ObservableSnapshot.id shared_observable
    = Lookups.identify_observable diamond_lookups 12%nat /\
    ObservableSnapshot.path shared_observable
    = Lookups.inferPath diamond_lookups 12%nat /\
    ObservableSnapshot.tag shared_observable
    = Lookups.read diamond_lookups 12%nat /\
    ObservableSnapshot.type shared_observable
    = Lookups.inferType diamond_lookups 12%nat /\
    (exists r, In r group /\
       ObservableSnapshot.tick shared_observable = ref_tick shared_state r) /\
    (forall r, In r group ->
       ref_tick shared_state r <= ObservableSnapshot.tick shared_observable) /\
    (forall key,
       In key (mkeys (ObservableSnapshot.subscriptions shared_observable)) <->
       exists r, In r group /\
         SubscriptionRef.subscription (State.refs shared_state r) = key).
Proof.
  split; [vm_compute; reflexivity|].
  split; [vm_compute; reflexivity|].
  split; [vm_compute; reflexivity|].
  apply (observable_snapshot_gathers_subscriptions diamond_lookups 2%nat None
           shared_state 0%nat shared_first 1%nat 12%nat shared_observable);
    vm_compute; reflexivity.
Defined.

Lemma snapshotSubscriber_answers_for_subscriber_witness :
  snapshotSubscriber diamond_lookups 2 2%nat shared_state 0
  = Ok (Some shared_subscriber, 1%nat) /\
  exists w,
    getSubscriptionRefs_ shared_state 2 = Ok w /\
    (Some shared_subscriber = None <->
     forall r, In r (mkeys (Walk.map w)) ->
       SubscriptionRef.subscriber (State.refs shared_state r)
       <> SubscriptionRef.subscriber (State.refs shared_state 2%nat)) /\
    (In 2%nat (mkeys (Walk.map w)) ->
     exists s,
       Some shared_subscriber = Some s /\
       SubscriberSnapshot.subscriber s
       = SubscriptionRef.subscriber (State.refs shared_state 2%nat) /\
       In (SubscriptionRef.subscription (State.refs shared_state 2%nat))
          (mkeys (SubscriberSnapshot.subscriptions s))).
Proof.
  split; [vm_compute; reflexivity|].
  apply (snapshotSubscriber_answers_for_subscriber diamond_lookups 2%nat 2%nat
           shared_state 0%nat (Some shared_subscriber) 1%nat).
  vm_compute. reflexivity.
Defined.

Lemma snapshotObservable_answers_for_observable_witness :
  snapshotObservable diamond_lookups 2 2%nat shared_state 0
  = Ok (Some shared_observable, 1%nat) /\
  exists w,
    getSubscriptionRefs_ shared_state 2 = Ok w /\
    (Some shared_observable = None <->
     forall r, In r (mkeys (Walk.map w)) ->
       SubscriptionRef.observable (State.refs shared_state r)
       <> SubscriptionRef.observable (State.refs shared_state 2%nat)) /\
    (In 2%nat (mkeys (Walk.map w)) ->
     exists o,
       Some shared_observable = Some o /\
       ObservableSnapshot.observable o
       = SubscriptionRef.observable (State.refs shared_state 2%nat) /\
       In (SubscriptionRef.subscription (State.refs shared_state 2%nat))
          (mkeys (ObservableSnapshot.subscriptions o))).
Proof.
  split; [vm_compute; reflexivity|].
  apply (snapshotObservable_answers_for_observable diamond_lookups 2%nat 2%nat
           shared_state 0%nat (Some shared_observable) 1%nat).
  vm_compute. reflexivity.
Defined.

(* ================================================================== *)
(** * The plugin under the calls of the dispatcher                    *)
(* ================================================================== *)

Section PluginCallsProperties.
Context {Value : Type}.
Variable undefined : Value.

Local Abbreviation State := (State.t Value).
Local Abbreviation Call := (@Call Value).
Local Abbreviation Event := (@Event Value).

Lemma upd_other {A : Type} (f : nat -> A) (k k' : nat) (v : A) :
  k' <> k -> upd f k v k' = f k'.
Proof.
  intros H. unfold upd. destruct (Nat.eqb k' k) eqn:E; [| reflexivity].
  apply Nat.eqb_eq in E. contradiction.
Qed.

(** What a call leaves alone. *)
Lemma call_frame (c : Call) (st st' : State) :
  call undefined c st = Ok st' ->
  State.keptValues_ st' = State.keptValues_ st /\
  State.refs st' = State.refs st /\
  State.graphRefSymbol st' = State.graphRefSymbol st /\
  State.graphRefs st' = State.graphRefs st /\
  (forall r, r <> call_ref c -> getSnapshotRef st' r = getSnapshotRef st r) /\
  getSnapshotRef st' (call_ref c) <> None /\
  (State.sentinel_ st' = State.sentinel_ st \/
   exists g, getGraphRef st (call_ref c) = Some g /\
             State.sentinel_ st' = Some (GraphRef.sentinel g)).
Proof.
  destruct c as [ref t now | ref e]; cbn [call call_ref].
  - unfold beforeSubscribe.
    assert (Hg : forall x,
              getGraphRef (setSnapshotRef (with_spy_tick st t) ref x) ref
              = getGraphRef st ref) by reflexivity.
    cbv zeta. rewrite Hg.
    destruct (getGraphRef st ref) as [g |]; intros H; inversion H; subst;
      clear H; cbn;
      (do 4 (split; [reflexivity|]));
      (split;
       [intros r Hr; unfold getSnapshotRef; cbn; apply upd_other; exact Hr|]);
      (split; [unfold getSnapshotRef; cbn; rewrite upd_same; discriminate|]).
    + right. exists g. split; reflexivity.
    + left. reflexivity.
  - destruct e as [t now v | t err | t | t];
      cbn [deliver];
      unfold beforeNext, beforeError,
        beforeComplete, afterUnsubscribe;
      cbv zeta;
      (destruct (getSnapshotRef (with_spy_tick st t) ref) as [s |];
       [| discriminate]);
      intros H; inversion H; subst; clear H; cbn;
      (do 4 (split; [reflexivity|]));
      (split;
       [intros r Hr; unfold getSnapshotRef; cbn; apply upd_other; exact Hr|]);
      (split; [unfold getSnapshotRef; cbn; rewrite upd_same; discriminate|]);
      left; reflexivity.
Qed.

(** A call about [r] reads, of the state, the fields of [same_for]. *)
Lemma call_same_for (r : Ref) (c : Call) (st1 st2 st1' : State) :
  same_for r st1 st2 -> concerns r c = true ->
  call undefined c st1 = Ok st1' ->
  exists st2', call undefined c st2 = Ok st2' /\ same_for r st1' st2'.
Proof.
  intros (Hs & Hk & Hsym & Hg) Hc. unfold concerns in Hc.
  apply Nat.eqb_eq in Hc.
  destruct c as [ref t now | ref e]; cbn [call call_ref] in *; subst ref.
  - unfold beforeSubscribe. cbv zeta.
    assert (Hg1 : forall (st : State) x,
              getGraphRef (setSnapshotRef (with_spy_tick st t) r x) r
              = getGraphRef st r) by reflexivity.
    rewrite !Hg1.
    assert (Hgg : getGraphRef st1 r = getGraphRef st2 r)
      by (unfold getGraphRef; rewrite Hsym, Hg; reflexivity).
    rewrite Hgg.
    destruct (getGraphRef st2 r) as [g |]; intros H; inversion H; subst;
      clear H; (eexists; split; [reflexivity|]);
      unfold same_for, getSnapshotRef; cbn; rewrite !upd_same; auto.
  - assert (Hst : forall t, getSnapshotRef (with_spy_tick st1 t) r
                            = getSnapshotRef (with_spy_tick st2 t) r)
      by (intros t; exact Hs).
    destruct e as [t now v | t err | t | t];
      cbn [deliver];
      unfold beforeNext, beforeError,
        beforeComplete, afterUnsubscribe;
      cbv zeta; rewrite (Hst t);
      (destruct (getSnapshotRef (with_spy_tick st2 t) r) as [s |];
       [| discriminate]);
      intros H; inversion H; subst; clear H;
      (eexists; split; [reflexivity|]);
      unfold same_for, getSnapshotRef; cbn; rewrite !upd_same;
      try rewrite Hk; auto.
Qed.

Lemma call_other_same_for (r : Ref) (c : Call) (st1 st2 st1' : State) :
  same_for r st1 st2 -> concerns r c = false ->
  call undefined c st1 = Ok st1' -> same_for r st1' st2.
Proof.
  intros (Hs & Hk & Hsym & Hg) Hc Hrun.
  destruct (call_frame c st1 st1' Hrun) as (Hk' & _ & Hsym' & Hg' & Hoth & _).
  unfold same_for. rewrite Hk', Hsym', Hg'.
  rewrite (Hoth r); [auto|].
  intros ->. unfold concerns in Hc. rewrite Nat.eqb_refl in Hc. discriminate.
Qed.

Lemma calls_same_for (r : Ref) (cs : list Call) :
  forall st1 st2 st1',
    same_for r st1 st2 -> calls undefined cs st1 = Ok st1' ->
    exists st2',
      calls undefined (filter (concerns r) cs) st2 = Ok st2' /\
      same_for r st1' st2'.
Proof.
  unfold calls.
  induction cs as [| c cs IH]; intros st1 st2 st1' Hsame Hrun.
  - cbn in Hrun. inversion Hrun. subst. exists st2. split; [reflexivity|].
    exact Hsame.
  - cbn [rforEach] in Hrun.
    destruct (call undefined c st1) as [st1m | |] eqn:Hc; cbn [rbind] in Hrun;
      try discriminate.
    cbn [filter]. destruct (concerns r c) eqn:Hcon.
    + destruct (call_same_for r c st1 st2 st1m Hsame Hcon Hc)
        as (st2m & Hc2 & Hsame2).
      destruct (IH st1m st2m st1' Hsame2 Hrun) as (st2' & Hr2 & Hs2).
      exists st2'. cbn [rforEach]. rewrite Hc2. cbn [rbind]. auto.
    + apply (IH st1m st2 st1');
        [exact (call_other_same_for r c st1 st2 st1m Hsame Hcon Hc) | exact Hrun].
Qed.

(** X6. Subscriptions do not interfere in the plugin: after a run of
    calls, what the plugin holds for a subscription is what it would
    hold had the calls about the other subscriptions never been made;
    and no call changes the bound [keptValues_]. *)
Theorem calls_of_other_refs_do_not_interfere :
  forall (cs : list Call) (st st' : State) (r : Ref),
    calls undefined cs st = Ok st' ->
    exists st'',
      calls undefined (filter (concerns r) cs) st = Ok st'' /\
      getSnapshotRef st' r = getSnapshotRef st'' r /\
      State.keptValues_ st' = State.keptValues_ st.
Proof.
  intros cs st st' r Hrun.
  assert (Hsame : same_for r st st) by (repeat split).
  destruct (calls_same_for r cs st st st' Hsame Hrun)
    as (st'' & Hr & Hs & Hk & _).
  exists st''. split; [exact Hr|]. split; [exact Hs|].
  clear Hr Hs Hk st'' Hsame. revert st Hrun. unfold calls.
  induction cs as [| c cs IH]; intros st Hrun.
  - cbn in Hrun. inversion Hrun. reflexivity.
  - cbn [rforEach] in Hrun.
    destruct (call undefined c st) as [stm | |] eqn:Hc; cbn [rbind] in Hrun;
      try discriminate.
    rewrite (IH stm Hrun). exact (proj1 (call_frame c st stm Hc)).
Qed.

Lemma calls_keep_graphing_off (cs : list Call) :
  forall st st',
    State.sentinel_ st = None ->
    (forall r, State.graphRefSymbol st r = None) ->
    calls undefined cs st = Ok st' ->
    State.sentinel_ st' = None.
Proof.
  unfold calls. induction cs as [| c cs IH]; intros st st' Hs Hg Hrun.
  - cbn in Hrun. inversion Hrun. subst. exact Hs.
  - cbn [rforEach] in Hrun.
    destruct (call undefined c st) as [stm | |] eqn:Hc; cbn [rbind] in Hrun;
      try discriminate.
    destruct (call_frame c st stm Hc) as (_ & _ & Hsym & _ & _ & _ & Hsent).
    apply (IH stm st'); [| intros r; rewrite Hsym; apply Hg | exact Hrun].
    destruct Hsent as [-> | (g & Hget & _)]; [exact Hs|].
    unfold getGraphRef in Hget. rewrite Hg in Hget. discriminate.
Qed.

(** X7. Without the graph plugin the snapshot is empty: when no ref
    carries a GraphRef, [beforeSubscribe] never sets the sentinel, and
    whatever subscriptions and notifications the plugin has recorded
    since its construction, [snapshotAll] returns a snapshot with no
    observable, no subscriber and no subscription, at the current tick. *)
Theorem no_graphing_gives_empty_snapshot :
  forall (lookups : Lookups.t) (keptValues : option Z) (cs : list Call)
         (st0 st : State) (fuel : nat) (since : option (Snapshot.t Value))
         (heap : nat),
    (forall r, State.graphRefSymbol st0 r = None) ->
    calls undefined cs (new_SnapshotPlugin st0 keptValues) = Ok st ->
    snapshotAll lookups fuel since st heap
    = Ok (Snapshot.mk [] [] [] [] (State.spy_tick st) [] heap, S heap).
Proof.
  intros lookups keptValues cs st0 st fuel since heap Hg Hrun.
  assert (Hs : State.sentinel_ st = None).
  { apply (calls_keep_graphing_off cs (new_SnapshotPlugin st0 keptValues) st);
      [reflexivity | exact Hg | exact Hrun]. }
  unfold snapshotAll, getSubscriptionRefs_. rewrite Hs.
  destruct since; reflexivity.
Qed.

Lemma existsb_snoc {A : Type} (f : A -> bool) (l : list A) (x : A) :
  existsb f (l ++ [x]) = existsb f l || f x.
Proof. rewrite existsb_app. cbn. rewrite orb_false_r. reflexivity. Qed.

Lemma entries_app (es1 es2 : list Event) :
  entries (es1 ++ es2) = entries es1 ++ entries es2.
Proof.
  induction es1 as [| e es1 IH]; [reflexivity|].
  destruct e; cbn; rewrite IH; reflexivity.
Qed.

Lemma summary_values_bound (kept t0 now : Z) (h : list Event)
    (s : SnapshotRef.t Value) :
  0 <= kept -> summary_of undefined kept t0 now h s ->
  Z.of_nat (length (SnapshotRef.values s)) <= kept.
Proof.
  intros Hk (_ & _ & _ & _ & _ & Hv & _).
  rewrite Hv, lastn_length. lia.
Qed.

Lemma deliver_summary (kept t0 now : Z) (ref : Ref) (e : Event) (st : State)
    (s : SnapshotRef.t Value) (h : list Event) :
  0 <= kept ->
  State.keptValues_ st = kept ->
  getSnapshotRef st ref = Some s ->
  summary_of undefined kept t0 now h s ->
  exists st' s',
    deliver ref e st = Ok st' /\
    State.keptValues_ st' = kept /\
    getSnapshotRef st' ref = Some s' /\
    summary_of undefined kept t0 now (h ++ [e]) s'.
Proof.
  intros Hk Hkept Hget Hinv.
  pose proof (summary_values_bound _ _ _ _ _ Hk Hinv) as Hb.
  destruct Hinv as (Hts & Htk & Hc & Hu & He & Hv & Hf).
  assert (Hget' : forall t, getSnapshotRef (with_spy_tick st t) ref = Some s)
    by (intros t; exact Hget).
  destruct e as [t tnow v | t err | t | t]; cbn [deliver];
    unfold beforeNext, beforeError,
        beforeComplete, afterUnsubscribe;
    cbv zeta; rewrite (Hget' t);
    (eexists; eexists; split; [reflexivity|]);
    (split; [exact Hkept|]);
    (split; [unfold getSnapshotRef, setSnapshotRef; cbn; apply upd_same|]);
    unfold summary_of, last_tick, last_error;
    rewrite !existsb_snoc, !fold_left_app, entries_app;
    cbn [fold_left event_tick is_complete is_unsubscribe entries];
    rewrite ?orb_false_r, ?orb_true_r, ?app_nil_r.
  - cbn [State.keptValues_ with_spy_tick State.spy_tick]. rewrite Hkept.
    set (pushed := SnapshotRef.values s ++ _).
    assert (Hlen : length pushed = S (length (SnapshotRef.values s))).
    { unfold pushed. rewrite length_app. cbn. lia. }
    assert (Hp : pushed = lastn (Z.to_nat kept) (entries h)
                          ++ [ValueEntry.mk t tnow v]).
    { unfold pushed. rewrite Hv. reflexivity. }
    destruct (Z.ltb_spec 0 (Z.of_nat (length pushed) - kept)) as [Hpos | Hnp];
      cbn [SnapshotRef.values SnapshotRef.valuesFlushed SnapshotRef.tick
           SnapshotRef.timestamp SnapshotRef.complete SnapshotRef.error
           SnapshotRef.unsubscribed];
      (split; [exact Hts|]); (split; [reflexivity|]);
      (split; [exact Hc|]); (split; [exact Hu|]); (split; [exact He|]);
      split.
    + rewrite lastn_snoc, <- Hp. f_equal. lia.
    + rewrite length_skipn, length_app. cbn [length]. lia.
    + rewrite lastn_snoc, <- Hp.
      replace (length pushed - Z.to_nat kept)%nat with 0%nat by lia.
      reflexivity.
    + rewrite length_app. cbn [length]. lia.
  - cbn. repeat split; try assumption.
  - cbn. repeat split; try assumption.
  - cbn. repeat split; try assumption.
Qed.

Lemma deliver_all_summary (kept t0 now : Z) (ref : Ref) (es : list Event) :
  forall (st : State) (s : SnapshotRef.t Value) (h : list Event),
    0 <= kept ->
    State.keptValues_ st = kept ->
    getSnapshotRef st ref = Some s ->
    summary_of undefined kept t0 now h s ->
    exists st' s',
      calls undefined (map (CEvent ref) es) st = Ok st' /\
      getSnapshotRef st' ref = Some s' /\
      summary_of undefined kept t0 now (h ++ es) s'.
Proof.
  unfold calls.
  induction es as [| e es IH]; intros st s h Hk Hkept Hget Hinv.
  - exists st, s. cbn [map rforEach]. rewrite app_nil_r. auto.
  - destruct (deliver_summary kept t0 now ref e st s h Hk Hkept Hget Hinv)
      as (st1 & s1 & Hd & Hk1 & Hg1 & Hi1).
    destruct (IH st1 s1 _ Hk Hk1 Hg1 Hi1) as (st2 & s2 & Hr & Hg2 & Hi2).
    exists st2, s2. cbn [map rforEach call]. rewrite Hd. cbn [rbind].
    split; [exact Hr|]. split; [exact Hg2|].
    replace (h ++ e :: es) with ((h ++ [e]) ++ es)
      by (rewrite <- app_assoc; reflexivity).
    exact Hi2.
Qed.

(** X8. What the plugin keeps of a subscription, after its
    [beforeSubscribe] at the tick [t0] and the notifications [es]: the
    timestamp of the subscribe, the tick of the last notification,
    whether a complete and whether an unsubscribe was among them (the
    flags are never reset), the error of the last error notification,
    and the most recent [keptValues_] values, each with the tick and the
    timestamp of its notification.  The calls never throw. *)
Theorem snapshot_ref_summarises_notifications :
  forall (kept : Z) (ref : Ref) (t0 now : Z) (st0 : State) (es : list Event),
    0 <= kept ->
    State.keptValues_ st0 = kept ->
    exists st s,
      calls undefined (CSubscribe ref t0 now :: map (CEvent ref) es) st0
      = Ok st /\
      getSnapshotRef st ref = Some s /\
      SnapshotRef.timestamp s = now /\
      SnapshotRef.tick s = last_tick t0 es /\
      SnapshotRef.complete s = existsb is_complete es /\
      SnapshotRef.unsubscribed s = existsb is_unsubscribe es /\
      SnapshotRef.error s = last_error undefined es /\
      SnapshotRef.values s = lastn (Z.to_nat kept) (entries es) /\
      SnapshotRef.valuesFlushed s + Z.of_nat (length (SnapshotRef.values s))
      = Z.of_nat (length (entries es)).
Proof.
  intros kept ref t0 now st0 es Hk Hkept.
  assert (Hsub : exists st1 s1,
             call undefined (CSubscribe ref t0 now) st0 = Ok st1 /\
             State.keptValues_ st1 = kept /\
             getSnapshotRef st1 ref = Some s1 /\
             summary_of undefined kept t0 now [] s1).
  { cbn [call]. unfold beforeSubscribe.
    set (s1 := SnapshotRef.mk false undefined _ now false [] 0).
    destruct (getGraphRef (setSnapshotRef (with_spy_tick st0 t0) ref s1) ref)
      as [g |];
      eexists; exists s1; (split; [reflexivity|]);
      (split; [exact Hkept|]);
      (split; [unfold getSnapshotRef; cbn; apply upd_same|]);
      repeat split. }
  destruct Hsub as (st1 & s1 & Hs & Hk1 & Hg1 & Hi1).
  destruct (deliver_all_summary kept t0 now ref es st1 s1 [] Hk Hk1 Hg1 Hi1)
    as (st & s & Hr & Hg & Hi).
  exists st, s. unfold calls in *. cbn [rforEach]. rewrite Hs. cbn [rbind].
  split; [exact Hr|]. split; [exact Hg|]. exact Hi.
Qed.

Lemma subscribed_first_sound (cs : list Call) :
  forall (seen : list Ref) (st : State),
    (forall r, existsb (Nat.eqb r) seen = true <-> getSnapshotRef st r <> None) ->
    (subscribed_first seen cs = true ->
     exists st', calls undefined cs st = Ok st') /\
    (subscribed_first seen cs = false -> calls undefined cs st = TypeError).
Proof.
  unfold calls.
  induction cs as [| c cs IH]; intros seen st Hseen.
  - cbn. split; [intros _; exists st; reflexivity | discriminate].
  - destruct c as [ref t now | ref e]; cbn [subscribed_first rforEach].
    + destruct (call undefined (CSubscribe ref t now) st) as [st1 | |] eqn:Hc.
      * cbn [rbind]. apply IH. intros r.
        destruct (call_frame _ _ _ Hc) as (_ & _ & _ & _ & Hoth & Hnew & _).
        cbn [call_ref] in *. cbn [existsb].
        destruct (Nat.eqb r ref) eqn:E.
        -- apply Nat.eqb_eq in E. subst. cbn. tauto.
        -- cbn [orb]. rewrite (Hoth r); [apply Hseen|].
           intros ->. rewrite Nat.eqb_refl in E. discriminate.
      * exfalso. cbn [call] in Hc. unfold beforeSubscribe in Hc.
        destruct (getGraphRef _ ref); discriminate.
      * exfalso. cbn [call] in Hc. unfold beforeSubscribe in Hc.
        destruct (getGraphRef _ ref); discriminate.
    + destruct (existsb (Nat.eqb ref) seen) eqn:Hin; cbn [andb].
      * destruct (call undefined (CEvent ref e) st) as [st1 | |] eqn:Hc.
        -- cbn [rbind]. apply IH. intros r.
           destruct (call_frame _ _ _ Hc) as (_ & _ & _ & _ & Hoth & Hnew & _).
           cbn [call_ref] in *.
           destruct (Nat.eqb r ref) eqn:E.
           ++ apply Nat.eqb_eq in E. subst. tauto.
           ++ rewrite (Hoth r); [apply Hseen|].
              intros ->. rewrite Nat.eqb_refl in E. discriminate.
        -- exfalso. apply Hseen in Hin.
           cbn [call] in Hc.
           destruct e as [t now v | t err | t | t]; cbn [deliver] in Hc;
             unfold beforeNext, beforeError,
               beforeComplete, afterUnsubscribe in Hc; cbv zeta in Hc;
             change (getSnapshotRef (with_spy_tick st t) ref)
               with (getSnapshotRef st ref) in Hc;
             destruct (getSnapshotRef st ref); try discriminate;
             apply Hin; reflexivity.
        -- exfalso. cbn [call] in Hc.
           destruct e as [t now v | t err | t | t]; cbn [deliver] in Hc;
             unfold beforeNext, beforeError,
               beforeComplete, afterUnsubscribe in Hc; cbv zeta in Hc;
             destruct (getSnapshotRef (with_spy_tick st t) ref);
             discriminate.
      * split; [discriminate|]. intros _.
        assert (Hnone : getSnapshotRef st ref = None).
        { destruct (getSnapshotRef st ref) eqn:Hg; [| reflexivity].
          assert (H : existsb (Nat.eqb ref) seen = true)
            by (apply Hseen; rewrite Hg; discriminate).
          rewrite Hin in H. discriminate. }
        assert (Hc : call undefined (CEvent ref e) st = TypeError).
        { cbn [call].
          destruct e as [t now v | t err | t | t]; cbn [deliver];
            unfold beforeNext, beforeError,
        beforeComplete, afterUnsubscribe;
            cbv zeta;
            change (getSnapshotRef (with_spy_tick st t) ref)
              with (getSnapshotRef st ref);
            rewrite Hnone; reflexivity. }
        rewrite Hc. reflexivity.
Qed.

(** X9. A run of calls on a plugin that holds no SnapshotRef returns
    when every notification of a subscription comes after a
    [beforeSubscribe] of that subscription, and throws a TypeError
    otherwise: the four notification methods read the SnapshotRef of
    the ref without a check. *)
Theorem calls_throw_unless_subscribed_first :
  forall (cs : list Call) (st : State),
    (forall r, getSnapshotRef st r = None) ->
    (subscribed_first [] cs = true ->
     exists st', calls undefined cs st = Ok st') /\
    (subscribed_first [] cs = false -> calls undefined cs st = TypeError).
Proof.
  intros cs st Hnone. apply subscribed_first_sound.
  intros r. cbn. rewrite Hnone. split; [discriminate | intros H; now destruct H].
Qed.

End PluginCallsProperties.

Lemma calls_of_other_refs_do_not_interfere_witness :
  calls 0%nat interleaved_calls (new_SnapshotPlugin blank_state None)
  = Ok interleaved_result /\
  exists st'',
    calls 0%nat (filter (concerns 1%nat) interleaved_calls)
          (new_SnapshotPlugin blank_state None) = Ok st'' /\
    getSnapshotRef interleaved_result 1%nat = getSnapshotRef st'' 1%nat /\
    State.keptValues_ interleaved_result
    = State.keptValues_ (new_SnapshotPlugin blank_state None).
Proof.
  split; [vm_compute; reflexivity|].
  apply (calls_of_other_refs_do_not_interfere 0%nat interleaved_calls
           (new_SnapshotPlugin blank_state None) interleaved_result 1%nat).
  vm_compute. reflexivity.
Defined.

Lemma no_graphing_gives_empty_snapshot_witness :
  (forall r, State.graphRefSymbol blank_state r = None) /\
  calls 0%nat interleaved_calls (new_SnapshotPlugin blank_state None)
  = Ok interleaved_result /\
  snapshotAll diamond_lookups 3 None interleaved_result 0
  = Ok (Snapshot.mk [] [] [] [] (State.spy_tick interleaved_result) [] 0%nat,
        1%nat).
Proof.
  split; [intros r; reflexivity|].
  split; [vm_compute; reflexivity|].
  apply (no_graphing_gives_empty_snapshot 0%nat diamond_lookups None
           interleaved_calls blank_state interleaved_result 3%nat None 0%nat).
  - intros r. reflexivity.
  - vm_compute. reflexivity.
Defined.

Lemma snapshot_ref_summarises_notifications_witness :
  0 <= 1 /\
  State.keptValues_ (new_SnapshotPlugin blank_state (Some 1)) = 1 /\
  exists st s,
    calls 0%nat (CSubscribe 1%nat 2 100 :: map (CEvent 1%nat) three_events)
          (new_SnapshotPlugin blank_state (Some 1)) = Ok st /\
    getSnapshotRef st 1%nat = Some s /\
    SnapshotRef.timestamp s = 100 /\
    SnapshotRef.tick s = last_tick 2 three_events /\
    SnapshotRef.complete s = existsb is_complete three_events /\
    SnapshotRef.unsubscribed s = existsb is_unsubscribe three_events /\
    SnapshotRef.error s = last_error 0%nat three_events /\
    SnapshotRef.values s = lastn (Z.to_nat 1) (entries three_events) /\
    SnapshotRef.valuesFlushed s + Z.of_nat (length (SnapshotRef.values s))
    = Z.of_nat (length (entries three_events)).
Proof.
  split; [lia|]. split; [reflexivity|].
  apply (snapshot_ref_summarises_notifications 0%nat 1 1%nat 2 100
           (new_SnapshotPlugin blank_state (Some 1)) three_events);
    [lia | reflexivity].
Defined.

Lemma calls_throw_unless_subscribed_first_witness :
  (forall r, getSnapshotRef (new_SnapshotPlugin blank_state None) r = None) /\
  (subscribed_first [] interleaved_calls = true ->
   exists st',
     calls 0%nat interleaved_calls (new_SnapshotPlugin blank_state None)
     = Ok st') /\
  (subscribed_first [] interleaved_calls = false ->
   calls 0%nat interleaved_calls (new_SnapshotPlugin blank_state None)
   = TypeError).
Proof.
  split; [intros r; reflexivity|].
  apply (calls_throw_unless_subscribed_first 0%nat interleaved_calls
           (new_SnapshotPlugin blank_state None)).
  intros r. reflexivity.
Defined.

(** A next notification of a ref that was never subscribed throws. *)
Example next_before_subscribe_throws :
  subscribed_first [] [CEvent 1%nat (ENext 3 102 11%nat)] = false /\
  calls 0%nat [CEvent 1%nat (ENext 3 102 11%nat)]
        (new_SnapshotPlugin blank_state None) = TypeError.
Proof. split; reflexivity. Qed.

(* ================================================================== *)
(** * The walk of a forest                                            *)
(* ================================================================== *)

Section ForestWalk.
Context {Value : Type}.
Variable st : State.t Value.
Variable rank : Ref -> nat.
Hypothesis rank_decreases :
  forall r c, In c (children st r) -> (rank c < rank r)%nat.
Hypothesis one_parent :
  forall r1 r2 c, In c (children st r1) -> In c (children st r2) -> r1 = r2.

Lemma descendant_rank (a x : Ref) :
  descendant st a x -> (rank x <= rank a)%nat.
Proof.
  induction 1 as [r | r c x Hin _ IH]; [lia|].
  specialize (rank_decreases r c Hin). lia.
Qed.

Lemma descendant_snoc (a p x : Ref) :
  descendant st a p -> In x (children st p) -> descendant st a x.
Proof.
  induction 1 as [r | r c y Hin _ IH]; intros Hx.
  - eapply descendant_step; [exact Hx | constructor].
  - eapply descendant_step; [exact Hin | exact (IH Hx)].
Qed.

(** The last edge of a path. *)
Lemma descendant_bottom (a x : Ref) :
  descendant st a x ->
  x = a \/ exists p, descendant st a p /\ In x (children st p).
Proof.
  induction 1 as [r | r c x Hin Hd IH]; [left; reflexivity|].
  right. destruct IH as [-> | (p & Hp & Hx)].
  - exists r. split; [constructor | exact Hin].
  - exists p. split; [| exact Hx].
    eapply descendant_step; eassumption.
Qed.

(** The ancestors of a ref form a chain. *)
Lemma common_descendant (a b : Ref) :
  forall n x,
    (rank a - rank x <= n)%nat ->
    descendant st a x -> descendant st b x ->
    descendant st a b \/ descendant st b a.
Proof.
  induction n as [| n IH]; intros x Hn Ha Hb.
  - destruct (descendant_bottom a x Ha) as [-> | (p & Hp & Hx)];
      [right; exact Hb|].
    pose proof (descendant_rank a p Hp).
    specialize (rank_decreases p x Hx). lia.
  - destruct (descendant_bottom a x Ha) as [-> | (p & Hp & Hx)];
      [right; exact Hb|].
    destruct (descendant_bottom b x Hb) as [-> | (p' & Hp' & Hx')];
      [left; exact Ha|].
    assert (p' = p) by exact (one_parent p' p x Hx' Hx). subst p'.
    apply (IH p); [| exact Hp | exact Hp'].
    pose proof (descendant_rank a p Hp).
    specialize (rank_decreases p x Hx). lia.
Qed.

(** Two children of a ref have no descendant in common. *)
Lemma siblings_disjoint (r c1 c2 x : Ref) :
  In c1 (children st r) -> In c2 (children st r) ->
  descendant st c1 x -> descendant st c2 x -> c1 = c2.
Proof.
  intros H1 H2 Hd1 Hd2.
  assert (Hup : forall c c', In c (children st r) -> In c' (children st r) ->
                  descendant st c c' -> c = c').
  { intros c c' Hc Hc' Hd.
    destruct (descendant_bottom c c' Hd) as [-> | (p & Hp & Hx)];
      [reflexivity|].
    assert (p = r) by exact (one_parent p r c' Hx Hc'). subst p.
    pose proof (descendant_rank c r Hp).
    specialize (rank_decreases r c Hc). lia. }
  destruct (common_descendant c1 c2 _ x (Nat.le_refl _) Hd1 Hd2) as [H | H].
  - exact (Hup c1 c2 H1 H2 H).
  - symmetry. exact (Hup c2 c1 H2 H1 H).
Qed.

Lemma NoDup_app_disjoint {A : Type} (l1 l2 : list A) (x : A) :
  NoDup (l1 ++ l2) -> In x l1 -> In x l2 -> False.
Proof.
  induction l1 as [| y l1 IH]; cbn; intros Hnd H1 H2; [exact H1|].
  inversion Hnd as [| ? ? Hnotin Hnd']; subst.
  destruct H1 as [-> | H1].
  - apply Hnotin. apply in_or_app. right. exact H2.
  - exact (IH Hnd' H1 H2).
Qed.

(** A [forEach] of calls over distinct refs with no descendant in
    common, each of which extends the walk without a repeat, extends the
    walk without a repeat. *)
Lemma rforEach_walk_once (f : Ref -> Walk.t -> result Walk.t) (cs : list Ref) :
  NoDup cs ->
  (forall c1 c2 x, In c1 cs -> In c2 cs ->
     descendant st c1 x -> descendant st c2 x -> c1 = c2) ->
  (forall c, In c cs ->
     forall w, exists l, f c w = Ok (walk_extend w l) /\
                         (forall x, In x l <-> descendant st c x) /\
                         NoDup l) ->
  forall w, exists l,
    rforEach f cs w = Ok (walk_extend w l) /\
    (forall x, In x l <-> exists c, In c cs /\ descendant st c x) /\
    NoDup l.
Proof.
  induction cs as [| c cs IH]; intros Hnd Hdis Hf w.
  - exists []. rewrite walk_extend_nil. split; [reflexivity|].
    split; [| constructor].
    intros x. split; [intros [] | intros (c & [] & _)].
  - inversion Hnd as [| ? ? Hnotin Hnd']; subst.
    destruct (Hf c (or_introl eq_refl) w) as (l1 & Hc & Hl1 & Hn1).
    destruct (IH Hnd'
                (fun c1 c2 x H1 H2 => Hdis c1 c2 x (or_intror H1) (or_intror H2))
                (fun c' Hin => Hf c' (or_intror Hin)) (walk_extend w l1))
      as (l2 & Hcs & Hl2 & Hn2).
    exists (l1 ++ l2). cbn [rforEach]. rewrite Hc. cbn [rbind].
    rewrite Hcs, walk_extend_app. split; [reflexivity|]. split.
    + intros x. rewrite in_app_iff, Hl1, Hl2. split.
      * intros [Hd | (c' & Hin & Hd)].
        -- exists c. split; [left; reflexivity | exact Hd].
        -- exists c'. split; [right; exact Hin | exact Hd].
      * intros (c' & [<- | Hin] & Hd).
        -- left. exact Hd.
        -- right. exists c'. split; assumption.
    + apply NoDup_app; [exact Hn1 | exact Hn2 |].
      intros x H1 H2. apply Hl1 in H1. apply Hl2 in H2.
      destruct H2 as (c' & Hin & Hd).
      assert (c = c')
        by exact (Hdis c c' x (or_introl eq_refl) (or_intror Hin) H1 Hd).
      subst c'. contradiction.
Qed.

(** In a forest a call visits each descendant of its argument once. *)
Lemma addSubscriptionRefs_once :
  (forall r, NoDup (children st r)) ->
  forall fuel ref w,
    (rank ref < fuel)%nat ->
    (forall x, descendant st ref x -> getGraphRef st x <> None) ->
    exists l,
      addSubscriptionRefs_ st fuel ref w = Ok (walk_extend w l) /\
      (forall x, In x l <-> descendant st ref x) /\
      NoDup l.
Proof.
  intros Hnd fuel.
  induction fuel as [| fuel IH]; intros ref w Hlt Hclosed; [lia|].
  cbn [addSubscriptionRefs_].
  pose proof (Hclosed ref (descendant_refl st ref)) as Hg.
  assert (Hch : forall c, In c (children st ref) ->
            forall w', exists l,
              addSubscriptionRefs_ st fuel c w' = Ok (walk_extend w' l) /\
              (forall x, In x l <-> descendant st c x) /\ NoDup l).
  { intros c Hin w'. apply IH.
    - specialize (rank_decreases ref c Hin). lia.
    - intros x Hd. apply Hclosed. econstructor; eassumption. }
  pose proof (Hnd ref) as Hndc.
  pose proof (siblings_disjoint ref) as Hsib.
  pose proof rank_decreases as Hrk. specialize (Hrk ref).
  unfold children in Hch, Hndc, Hsib, Hrk.
  destruct (getGraphRef st ref) as [g |] eqn:Hget; [| congruence].
  change (Walk.mk (mset Nat.eqb ref true (Walk.map w)) (Walk.calls w ++ [ref]))
    with (walk_extend w [ref]).
  destruct (rforEach_walk_once (addSubscriptionRefs_ st fuel)
              (GraphRef.merges g)
              (NoDup_app_remove_r _ _ Hndc)
              (fun c1 c2 x H1 H2 =>
                 Hsib c1 c2 x (proj2 (in_app_iff _ _ c1) (or_introl H1))
                              (proj2 (in_app_iff _ _ c2) (or_introl H2)))
              (fun c Hin => Hch c (proj2 (in_app_iff _ _ c) (or_introl Hin)))
              (walk_extend w [ref]))
    as (l1 & H1 & Hl1 & Hn1).
  destruct (rforEach_walk_once (addSubscriptionRefs_ st fuel)
              (GraphRef.sources g)
              (NoDup_app_remove_l _ _ Hndc)
              (fun c1 c2 x H1 H2 =>
                 Hsib c1 c2 x (proj2 (in_app_iff _ _ c1) (or_intror H1))
                              (proj2 (in_app_iff _ _ c2) (or_intror H2)))
              (fun c Hin => Hch c (proj2 (in_app_iff _ _ c) (or_intror Hin)))
              (walk_extend (walk_extend w [ref]) l1))
    as (l2 & H2 & Hl2 & Hn2).
  exists ([ref] ++ l1 ++ l2).
  rewrite H1. cbn [rbind]. rewrite H2, !walk_extend_app.
  split; [rewrite app_assoc; reflexivity|]. split.
  - intros x. rewrite descendant_inv. unfold children. rewrite Hget.
    rewrite !in_app_iff, Hl1, Hl2. cbn [In]. split.
    + intros [[<- | []] | [(c & Hin & Hd) | (c & Hin & Hd)]].
      * left. reflexivity.
      * right. exists c. rewrite in_app_iff. auto.
      * right. exists c. rewrite in_app_iff. auto.
    + intros [-> | (c & Hin & Hd)].
      * left. left. reflexivity.
      * right. apply in_app_iff in Hin. destruct Hin as [Hin | Hin].
        -- left. exists c. auto.
        -- right. exists c. auto.
  - cbn [app]. constructor.
    + intros Hin. apply in_app_iff in Hin.
      assert (Hc : exists c, In c (GraphRef.merges g ++ GraphRef.sources g) /\
                             descendant st c ref).
      { destruct Hin as [Hin | Hin].
        - apply Hl1 in Hin. destruct Hin as (c & Hc & Hd).
          exists c. split; [apply in_or_app; left; exact Hc | exact Hd].
        - apply Hl2 in Hin. destruct Hin as (c & Hc & Hd).
          exists c. split; [apply in_or_app; right; exact Hc | exact Hd]. }
      destruct Hc as (c & Hc & Hd).
      pose proof (descendant_rank c ref Hd). specialize (Hrk c Hc). lia.
    + apply NoDup_app; [exact Hn1 | exact Hn2 |].
      intros x Hx1 Hx2. apply Hl1 in Hx1. apply Hl2 in Hx2.
      destruct Hx1 as (c1 & Hc1 & Hd1). destruct Hx2 as (c2 & Hc2 & Hd2).
      assert (c1 = c2)
        by exact (Hsib c1 c2 x (proj2 (in_app_iff _ _ c1) (or_introl Hc1))
                    (proj2 (in_app_iff _ _ c2) (or_intror Hc2)) Hd1 Hd2).
      subst c2. exact (NoDup_app_disjoint _ _ c1 Hndc Hc1 Hc2).
Qed.

Lemma mset_fresh_key (k : Ref) (m : list (Ref * bool)) :
  ~ In k (mkeys m) -> mkeys (mset Nat.eqb k true m) = mkeys m ++ [k].
Proof.
  induction m as [| [k' v'] m IH]; cbn; intros Hn; [reflexivity|].
  destruct (Nat.eqb k k') eqn:E.
  - apply Nat.eqb_eq in E. subst. exfalso. apply Hn. left. reflexivity.
  - cbn. f_equal. apply IH. intros H. apply Hn. right. exact H.
Qed.

(** Without a repeat, the keys of the map are the calls, in their
    order. *)
Lemma walk_extend_once (l : list Ref) :
  forall w,
    NoDup (mkeys (Walk.map w) ++ l) ->
    mkeys (Walk.map (walk_extend w l)) = mkeys (Walk.map w) ++ l.
Proof.
  induction l as [| r l IH]; intros w Hnd.
  - rewrite walk_extend_nil, app_nil_r. reflexivity.
  - change (r :: l) with ([r] ++ l). rewrite <- walk_extend_app.
    assert (Hr : mkeys (Walk.map (walk_extend w [r]))
                 = mkeys (Walk.map w) ++ [r]).
    { unfold walk_extend. cbn [Walk.map fold_left].
      apply mset_fresh_key. intros Hin.
      apply (NoDup_app_disjoint _ _ r Hnd Hin). left. reflexivity. }
    rewrite IH; rewrite Hr, <- app_assoc; [reflexivity | exact Hnd].
Qed.

End ForestWalk.

Section ForestTheorem.
Context {Value : Type}.

(** X20. On a forest, [addSubscriptionRefs_] is called exactly once on
    every subscription reachable from the sentinel and on no other, and
    the map that [getSubscriptionRefs_] returns lists the subscriptions
    in the order of those calls: each top-level subscription, followed
    by what is reached through its merges, then through its sources. *)
Theorem forest_walk_calls_each_ref_once :
  forall (st : State.t Value) (rank : Ref -> nat),
    well_formed st rank ->
    forest st ->
    exists fuel0, forall fuel, (fuel0 <= fuel)%nat ->
      exists w,
        getSubscriptionRefs_ st fuel = Ok w /\
        NoDup (Walk.calls w) /\
        (forall x, In x (Walk.calls w) <-> reachable st x) /\
        mkeys (Walk.map w) = Walk.calls w.
Proof.
  intros st rank [Hrank Hgraphed] (Hroots & Hchildren & Hparent & Htop).
  exists (S (list_max (map rank (roots st)))). intros fuel Hfuel.
  assert (Hcalls : forall c, In c (roots st) ->
            forall w, exists l,
              addSubscriptionRefs_ st fuel c w = Ok (walk_extend w l) /\
              (forall x, In x l <-> descendant st c x) /\ NoDup l).
  { intros c Hin w.
    apply (addSubscriptionRefs_once st rank Hrank Hparent Hchildren).
    - pose proof (list_max_ge (map rank (roots st)) (rank c)
                    (in_map rank _ _ Hin)). lia.
    - intros x Hd. apply Hgraphed. exists c. split; assumption. }
  assert (Hdis : forall c1 c2 x, In c1 (roots st) -> In c2 (roots st) ->
            descendant st c1 x -> descendant st c2 x -> c1 = c2).
  { assert (Hup : forall c c', In c' (roots st) -> descendant st c c' -> c = c').
    { intros c c' Hc' Hd.
      destruct (descendant_bottom st c c' Hd) as [-> | (p & _ & Hx)];
        [reflexivity|].
      destruct (Htop p c' Hc' Hx). }
    intros c1 c2 x H1 H2 Hd1 Hd2.
    destruct (common_descendant st rank Hrank Hparent c1 c2 _ x
                (Nat.le_refl _) Hd1 Hd2) as [H | H].
    - exact (Hup c1 c2 H2 H).
    - symmetry. exact (Hup c2 c1 H1 H). }
  unfold getSubscriptionRefs_. unfold reachable, roots in *.
  destruct (State.sentinel_ st) as [a |].
  - destruct (rforEach_walk_once st (addSubscriptionRefs_ st fuel) _
                Hroots Hdis Hcalls (Walk.mk [] [])) as (l & Hl & Hin & Hnd).
    exists (walk_extend (Walk.mk [] []) l). split; [exact Hl|].
    split; [exact Hnd|]. split; [exact Hin|].
    rewrite walk_extend_once; [reflexivity | exact Hnd].
  - exists (Walk.mk [] []). split; [reflexivity|].
    split; [constructor|].
    split; [| reflexivity].
    intros x; cbn; (split; [intros [] | intros (r & [] & _)]).
Qed.

End ForestTheorem.

Lemma tree_descendant (r x : Ref) :
  descendant tree_state r x ->
  (1 <= r <= 4)%nat -> (1 <= x <= 4)%nat.
Proof.
  induction 1 as [r | r c x Hin _ IH]; intros Hr; [exact Hr|].
  apply IH.
  destruct r as [|[|[|[|[|r]]]]]; cbn in Hin; try lia; intuition lia.
Qed.

Lemma tree_well_formed : well_formed tree_state diamond_rank.
Proof.
  split.
  - intros r c Hin.
    destruct r as [|[|[|[|[|r]]]]]; cbn in Hin;
      try contradiction; intuition (subst; cbn; lia).
  - intros x (r & Hroot & Hd). cbn in Hroot.
    destruct Hroot as [<- | []].
    pose proof (tree_descendant _ _ Hd ltac:(lia)) as Hx.
    destruct x as [|[|[|[|[|x]]]]]; try lia; cbn; discriminate.
Qed.

Lemma tree_children (r c : Ref) :
  In c (children tree_state r) ->
  (r = 1%nat /\ (c = 2%nat \/ c = 3%nat)) \/ (r = 2%nat /\ c = 4%nat).
Proof.
  intros Hin.
  destruct r as [|[|[|[|[|r]]]]]; cbn in Hin;
    try contradiction; intuition (subst; auto).
Qed.

Lemma tree_forest : forest tree_state.
Proof.
  split; [| split; [| split]].
  - cbn. constructor; [intros [] | constructor].
  - intros r.
    destruct r as [|[|[|[|[|r]]]]]; cbn;
      repeat (constructor; [cbn; intuition discriminate|]); constructor.
  - intros r1 r2 c H1 H2.
    destruct (tree_children r1 c H1) as [[E1 Hc1] | [E1 Hc1]];
      destruct (tree_children r2 c H2) as [[E2 Hc2] | [E2 Hc2]];
      subst r1 r2; try reflexivity; intuition (subst; discriminate).
  - intros r c Hc Hin. cbn in Hc. destruct Hc as [<- | []].
    destruct (tree_children r 1%nat Hin) as [[_ [H | H]] | [_ H]];
      discriminate.
Qed.

Lemma forest_walk_calls_each_ref_once_witness :
  exists fuel0, forall fuel, (fuel0 <= fuel)%nat ->
    exists w,
      getSubscriptionRefs_ tree_state fuel = Ok w /\
      NoDup (Walk.calls w) /\
      (forall x, In x (Walk.calls w) <-> reachable tree_state x) /\
      mkeys (Walk.map w) = Walk.calls w.
Proof.
  exact (forest_walk_calls_each_ref_once tree_state diamond_rank
           tree_well_formed tree_forest).
Defined.

(** The walk of the tree: 1, then 2 and its source 4, then 3. *)
Example tree_walk :
  match getSubscriptionRefs_ tree_state 4 with
  | Ok w => Walk.calls w = [1%nat; 2%nat; 4%nat; 3%nat]
  | _ => False
  end.
Proof. vm_compute. reflexivity. Qed.

(* ================================================================== *)
(** * The edges of the snapshot objects                               *)
(* ================================================================== *)

Section SnapshotEdgesProperties.
Context {Value : Type}.
Variable lookups : Lookups.t.
Variable st : State.t Value.
Hypothesis subscription_inj :
  forall r1 r2, subscription_of st r1 = subscription_of st r2 -> r1 = r2.

Local Abbreviation Building := (@Building Value).

Lemma collected_app (rs : list Ref) (x y : Ref) :
  collected (rs ++ [y]) x = collected rs x || Nat.eqb x y.
Proof.
  unfold collected. rewrite existsb_app. cbn. rewrite orb_false_r.
  reflexivity.
Qed.

Lemma collected_in (rs : list Ref) (x : Ref) :
  collected rs x = true <-> In x rs.
Proof.
  unfold collected. rewrite existsb_exists. split.
  - intros (y & Hy & E). apply Nat.eqb_eq in E. subst. exact Hy.
  - intros H. exists x. split; [exact H | apply Nat.eqb_refl].
Qed.

Lemma mget_app {V : Type} (k : Ref) (m1 m2 : list (Ref * V)) :
  mget Nat.eqb k (m1 ++ m2)
  = match mget Nat.eqb k m1 with
    | Some v => Some v
    | None => mget Nat.eqb k m2
    end.
Proof.
  induction m1 as [| [k' v'] m1 IH]; cbn; [reflexivity|].
  destruct (Nat.eqb k k'); [reflexivity | exact IH].
Qed.

(** The first [forEach], one ref further. *)
Lemma snapshot_ref_edges (seen : list Ref) (x : Ref) (b b' : Building) :
  subscriptions_of st seen (b_subscriptions b) /\
  objects_state lookups st seen [] (b_objects b) ->
  snapshot_ref lookups st x b = Ok b' ->
  subscriptions_of st (seen ++ [x]) (b_subscriptions b') /\
  objects_state lookups st (seen ++ [x]) [] (b_objects b').
Proof.
  intros [Hsubs Hobjs] Hrun. unfold snapshot_ref in Hrun.
  destruct (getGraphRef st x) as [g |] eqn:Hg; [| discriminate].
  destruct (getSnapshotRef st x) as [sr |] eqn:Hsr; [| discriminate].
  cbv zeta in Hrun. inversion Hrun. subst b'. clear Hrun.
  cbn [b_subscriptions b_objects]. split.
  - intros r. rewrite collected_app.
    destruct (Nat.eqb r x) eqn:E.
    + apply Nat.eqb_eq in E. subst r. rewrite orb_true_r.
      apply (mget_mset_same opt_eqb opt_eqb_spec).
    + rewrite orb_false_r.
      rewrite (mget_mset_other opt_eqb opt_eqb_spec); [apply Hsubs|].
      intros Heq. apply subscription_inj in Heq. subst r.
      rewrite Nat.eqb_refl in E. discriminate.
  - intros r. rewrite collected_app, mget_app. specialize (Hobjs r).
    destruct (collected seen r) eqn:Ec; cbn [orb].
    + destruct Hobjs as (g0 & s0 & o & Hg0 & Hs0 & Hm & Hd & Hu).
      exists g0, s0, o. rewrite Hm. auto.
    + rewrite Hobjs. cbn [mget].
      destruct (Nat.eqb r x) eqn:E; [| reflexivity].
      apply Nat.eqb_eq in E. subst r.
      eexists g, sr, _. split; [exact Hg|]. split; [exact Hsr|].
      split; [reflexivity|].
      split; [unfold describes; cbn; repeat split|].
      cbn. unfold unlinked. cbn. repeat split.
Qed.

Lemma link_edges_cons (subs : SubscriptionMap) (e : Ref) (es : list Ref)
    (m : SubscriptionMap) :
  link_edges st subs (e :: es) m
  = link_edges st subs es
      (mset opt_eqb (subscription_of st e)
            (match mget opt_eqb (subscription_of st e) subs with
             | Some h => h
             | None => None
             end) m).
Proof. reflexivity. Qed.

Lemma link_edges_frame (subs : SubscriptionMap) (edges : list Ref) :
  forall m key,
    (forall x, In x edges -> subscription_of st x <> key) ->
    mget opt_eqb key (link_edges st subs edges m) = mget opt_eqb key m.
Proof.
  induction edges as [| e es IH]; intros m key Hne; [reflexivity|].
  rewrite link_edges_cons, IH.
  - apply (mget_mset_other opt_eqb opt_eqb_spec).
    intros Heq. exact (Hne e (or_introl eq_refl) (eq_sym Heq)).
  - intros x Hx. apply Hne. right. exact Hx.
Qed.

Lemma link_edges_keys (subs : SubscriptionMap) (edges : list Ref) :
  forall m key,
    In key (mkeys (link_edges st subs edges m)) ->
    In key (mkeys m) \/ exists x, In x edges /\ subscription_of st x = key.
Proof.
  induction edges as [| e es IH]; intros m key Hin; [left; exact Hin|].
  rewrite link_edges_cons in Hin.
  destruct (IH _ _ Hin) as [H | (x & Hx & Hk)].
  - apply (mset_keys_in opt_eqb opt_eqb_spec) in H.
    destruct H as [-> | H]; [| left; exact H].
    right. exists e. split; [left|]; reflexivity.
  - right. exists x. split; [right; exact Hx | exact Hk].
Qed.

Lemma link_edges_get (rs : list Ref) (subs : SubscriptionMap)
    (edges : list Ref) :
  subscriptions_of st rs subs ->
  forall m x,
    In x edges ->
    mget opt_eqb (subscription_of st x) (link_edges st subs edges m)
    = Some (handle_of rs x).
Proof.
  intros Hsubs.
  induction edges as [| e es IH]; intros m x Hin; [destruct Hin|].
  rewrite link_edges_cons.
  destruct (in_dec Nat.eq_dec x es) as [Hes | Hes]; [exact (IH _ x Hes)|].
  destruct Hin as [<- | Hin]; [| contradiction].
  rewrite link_edges_frame.
  - rewrite (mget_mset_same opt_eqb opt_eqb_spec), (Hsubs e).
    unfold handle_of. destruct (collected rs e); reflexivity.
  - intros y Hy Heq. apply subscription_inj in Heq. subst y. contradiction.
Qed.

Lemma link_edges_linked (rs : list Ref) (subs : SubscriptionMap)
    (edges : list Ref) :
  subscriptions_of st rs subs ->
  edges_linked st rs edges (link_edges st subs edges []).
Proof.
  intros Hsubs. split.
  - intros x Hx. exact (link_edges_get rs subs edges Hsubs [] x Hx).
  - intros key Hin.
    destruct (link_edges_keys subs edges [] key Hin) as [[] | H]; exact H.
Qed.

(** The second [forEach], one ref further. *)
Lemma link_ref_edges (rs done : list Ref) (x : Ref) (b b' : Building) :
  In x rs -> ~ In x done ->
  subscriptions_of st rs (b_subscriptions b) ->
  objects_state lookups st rs done (b_objects b) ->
  link_ref st x b = Ok b' ->
  b_subscriptions b' = b_subscriptions b /\
  objects_state lookups st rs (done ++ [x]) (b_objects b').
Proof.
  intros Hx Hnew Hsubs Hobjs Hrun.
  pose proof (Hobjs x) as Hox.
  rewrite (proj2 (collected_in rs x) Hx) in Hox.
  destruct Hox as (g & s & o & Hg & Hs & Hm & Hd & Hu).
  assert (Hcd : collected done x = false).
  { destruct (collected done x) eqn:E; [| reflexivity].
    apply collected_in in E. contradiction. }
  rewrite Hcd in Hu. destruct Hu as (Hsink & Hroot & Hmerges & Hsources).
  pose proof (Hsubs x) as Hsx.
  rewrite (proj2 (collected_in rs x) Hx) in Hsx.
  unfold subscription_of in Hsx.
  unfold link_ref in Hrun. rewrite Hg in Hrun. cbv zeta in Hrun.
  rewrite Hsx in Hrun. cbn [get_object] in Hrun. rewrite Hm in Hrun.
  inversion Hrun. subst b'. clear Hrun.
  cbn [b_subscriptions b_objects]. split; [reflexivity|].
  assert (Hlook : forall y,
            match mget opt_eqb (SubscriptionRef.subscription (State.refs st y))
                       (b_subscriptions b) with
            | Some h => h
            | None => None
            end = handle_of rs y).
  { intros y. pose proof (Hsubs y) as Hy. unfold subscription_of in Hy.
    rewrite Hy. unfold handle_of. destruct (collected rs y); reflexivity. }
  intros r. specialize (Hobjs r). unfold put_object.
  destruct (Nat.eqb r x) eqn:E.
  - apply Nat.eqb_eq in E. subst r.
    rewrite (proj2 (collected_in rs x) Hx).
    eexists g, s, _. split; [exact Hg|]. split; [exact Hs|].
    split; [apply (mget_mset_same Nat.eqb nat_eqb_spec)|].
    split.
    + unfold describes in *. cbn. exact Hd.
    + rewrite collected_app, Nat.eqb_refl, orb_true_r.
      unfold linked. cbn. rewrite Hsink, Hroot, Hmerges, Hsources.
      split; [destruct (GraphRef.sink g); [apply Hlook | reflexivity]|].
      split; [destruct (GraphRef.rootSink g); [apply Hlook | reflexivity]|].
      split; apply link_edges_linked; exact Hsubs.
  - assert (Hne : r <> x)
      by (intros ->; rewrite Nat.eqb_refl in E; discriminate).
    rewrite (mget_mset_other Nat.eqb nat_eqb_spec _ _ _ _ Hne).
    rewrite collected_app, E, orb_false_r. exact Hobjs.
Qed.

Lemma addSubscriptionRefs_nodup (fuel : nat) :
  forall ref w w',
    NoDup (mkeys (Walk.map w)) ->
    addSubscriptionRefs_ st fuel ref w = Ok w' ->
    NoDup (mkeys (Walk.map w')).
Proof.
  induction fuel as [| fuel IH]; intros ref w w' Hnd Hrun;
    cbn [addSubscriptionRefs_] in Hrun; [discriminate|].
  destruct (getGraphRef st ref) as [g |]; [| discriminate].
  cbv zeta in Hrun.
  destruct (rforEach (addSubscriptionRefs_ st fuel) (GraphRef.merges g) _)
    as [w1 | |] eqn:H1; cbn [rbind] in Hrun; try discriminate.
  apply (rforEach_invariant (fun w0 => NoDup (mkeys (Walk.map w0)))
           (addSubscriptionRefs_ st fuel) (GraphRef.sources g)) with (s := w1);
    [| | exact Hrun].
  - intros c s s' _ Hs Hc. exact (IH c s s' Hs Hc).
  - apply (rforEach_invariant (fun w0 => NoDup (mkeys (Walk.map w0)))
             (addSubscriptionRefs_ st fuel) (GraphRef.merges g)) in H1;
      [exact H1 | |].
    + intros c s s' _ Hs Hc. exact (IH c s s' Hs Hc).
    + cbn [Walk.map]. apply (mset_keys_nodup Nat.eqb nat_eqb_spec). exact Hnd.
Qed.

Lemma getSubscriptionRefs_nodup (fuel : nat) (w : Walk.t) :
  getSubscriptionRefs_ st fuel = Ok w -> NoDup (mkeys (Walk.map w)).
Proof.
  unfold getSubscriptionRefs_.
  destruct (State.sentinel_ st) as [a |].
  - intros Hrun.
    apply (rforEach_invariant (fun w0 => NoDup (mkeys (Walk.map w0)))
             (addSubscriptionRefs_ st fuel) _) in Hrun; [exact Hrun | |].
    + intros c s s' _ Hs Hc. exact (addSubscriptionRefs_nodup fuel c s s' Hs Hc).
    + constructor.
  - intros H. inversion H. constructor.
Qed.

(** The building of [snapshotAll], edges included. *)
Lemma snapshot_building_edges (fuel : nat) (b : Building) :
  snapshot_building lookups st fuel = Ok b ->
  exists w,
    getSubscriptionRefs_ st fuel = Ok w /\
    subscriptions_of st (mkeys (Walk.map w)) (b_subscriptions b) /\
    objects_state lookups st (mkeys (Walk.map w)) (mkeys (Walk.map w))
      (b_objects b).
Proof.
  unfold snapshot_building.
  destruct (getSubscriptionRefs_ st fuel) as [w | |] eqn:Hw; cbn [rbind];
    try discriminate.
  set (rs := mkeys (Walk.map w)).
  pose proof (getSubscriptionRefs_nodup fuel w Hw) as Hnd. fold rs in Hnd.
  destruct (rforEach (snapshot_ref lookups st) rs _) as [b1 | |] eqn:H1;
    cbn [rbind]; try discriminate.
  intros H2. exists w. split; [reflexivity|].
  assert (J1 : subscriptions_of st ([] ++ rs) (b_subscriptions b1) /\
               objects_state lookups st ([] ++ rs) [] (b_objects b1)).
  { apply (rforEach_prefix_invariant
             (fun seen s => subscriptions_of st seen (b_subscriptions s) /\
                            objects_state lookups st seen [] (b_objects s))
             (snapshot_ref lookups st) snapshot_ref_edges
             rs [] (mkBuilding [] [] [] [] []) b1); [| exact H1].
    split; intros r; reflexivity. }
  cbn [app] in J1. destruct J1 as [Hsubs Hobjs].
  assert (J2 : (exists rest, rs = ([] ++ rs) ++ rest) ->
               b_subscriptions b = b_subscriptions b1 /\
               objects_state lookups st rs ([] ++ rs) (b_objects b)).
  { apply (rforEach_prefix_invariant
             (fun done s => (exists rest, rs = done ++ rest) ->
                            b_subscriptions s = b_subscriptions b1 /\
                            objects_state lookups st rs done (b_objects s))
             (link_ref st)) with (s := b1); [| | exact H2].
    - intros done x s s' Hinv Hx (rest & Hrs).
      assert (Hrs' : rs = done ++ x :: rest)
        by (rewrite Hrs, <- app_assoc; reflexivity).
      destruct (Hinv (ex_intro _ (x :: rest) Hrs')) as [Hsame Hst].
      assert (Hin : In x rs)
        by (rewrite Hrs'; apply in_or_app; right; left; reflexivity).
      assert (Hnew : ~ In x done).
      { rewrite Hrs' in Hnd. apply NoDup_remove_2 in Hnd.
        intros H. apply Hnd. apply in_or_app. left. exact H. }
      rewrite <- Hsame in Hsubs.
      destruct (link_ref_edges rs done x s s' Hin Hnew Hsubs Hst Hx)
        as [Hs' Ho'].
      split; [rewrite Hs'; exact Hsame | exact Ho'].
    - intros _. split; [reflexivity | exact Hobjs]. }
  cbn [app] in J2.
  destruct (J2 (ex_intro _ [] (eq_sym (app_nil_r rs)))) as [Hsame Hfinal].
  split; [rewrite Hsame; exact Hsubs | exact Hfinal].
Qed.

End SnapshotEdgesProperties.

Section SnapshotEdgesTheorem.
Context {Value : Type}.
Variable lookups : Lookups.t.

(** X21. The snapshot objects mirror the graph.  When distinct refs
    have distinct subscriptions, every subscription that the walk
    collects has one snapshot object in the snapshot returned by
    [snapshotAll]; the object holds the fields of its SnapshotRef and
    of its ref; its [sink] and [rootSink] are the snapshot objects of
    the sink and root sink of its GraphRef ([undefined] for one that the
    walk has not collected), and its [merges] and [sources] maps have
    the subscriptions of the merges and sources of the GraphRef as
    keys, each with the snapshot object of its ref. *)
Theorem snapshot_objects_mirror_the_graph :
  forall (fuel : nat) (since : option (Snapshot.t Value)) (st : State.t Value)
         (heap : nat) (snap : Snapshot.t Value) (heap' : nat),
    (forall r1 r2, subscription_of st r1 = subscription_of st r2 -> r1 = r2) ->
    snapshotAll lookups fuel since st heap = Ok (snap, heap') ->
    exists w,
      getSubscriptionRefs_ st fuel = Ok w /\
      forall r, In r (mkeys (Walk.map w)) ->
        exists g s o,
          getGraphRef st r = Some g /\
          getSnapshotRef st r = Some s /\
          get_object (Some r) (Snapshot.objects snap) = Some o /\
          describes lookups st r g s o /\
          linked st (mkeys (Walk.map w)) g o /\
          (since = None ->
           mget opt_eqb (subscription_of st r) (Snapshot.subscriptions snap)
           = Some (Some r)).
Proof.
  intros fuel since st heap snap heap' Hinj Hrun.
  rewrite snapshotAll_building in Hrun.
  destruct (snapshot_building lookups st fuel) as [b | |] eqn:Hb;
    try discriminate.
  destruct (snapshot_building_edges lookups st Hinj fuel b Hb)
    as (w & Hw & Hsubs & Hobjs).
  exists w. split; [exact Hw|].
  intros r Hr. specialize (Hobjs r). pose proof (Hsubs r) as Hsr.
  rewrite (proj2 (collected_in _ r) Hr) in Hobjs, Hsr.
  destruct Hobjs as (g & s & o & Hg & Hs & Hm & Hd & Hl).
  exists g, s, o.
  assert (Hobj : Snapshot.objects snap = b_objects b)
    by (destruct since; cbv zeta in Hrun; inversion Hrun; reflexivity).
  split; [exact Hg|]. split; [exact Hs|].
  split; [rewrite Hobj; exact Hm|].
  split; [exact Hd|]. split; [exact Hl|].
  intros ->. cbv zeta in Hrun. inversion Hrun. cbn. exact Hsr.
Qed.

End SnapshotEdgesTheorem.

Lemma diamond_subscriptions_distinct (r1 r2 : Ref) :
  subscription_of diamond_state r1 = subscription_of diamond_state r2 ->
  r1 = r2.
Proof. unfold subscription_of. cbn. intros H. inversion H. reflexivity. Qed.

Lemma snapshot_objects_mirror_the_graph_witness :
  snapshotAll diamond_lookups 4 None diamond_state 0 = Ok (diamond_first, 1%nat) /\
  exists w,
    getSubscriptionRefs_ diamond_state 4 = Ok w /\
    forall r, In r (mkeys (Walk.map w)) ->
      exists g s o,
        getGraphRef diamond_state r = Some g /\
        getSnapshotRef diamond_state r = Some s /\
        get_object (Some r) (Snapshot.objects diamond_first) = Some o /\
        describes diamond_lookups diamond_state r g s o /\
        linked diamond_state (mkeys (Walk.map w)) g o /\
        (@None (Snapshot.t nat) = None ->
         mget opt_eqb (subscription_of diamond_state r)
              (Snapshot.subscriptions diamond_first)
         = Some (Some r)).
Proof.
  split; [vm_compute; reflexivity|].
  apply (snapshot_objects_mirror_the_graph diamond_lookups 4%nat None
           diamond_state 0%nat diamond_first 1%nat
           diamond_subscriptions_distinct).
  vm_compute. reflexivity.
Defined.

(** In the diamond, the snapshot object of the shared source 4 has the
    object of 3 as its sink and the object of 1 as its root sink. *)
Example diamond_shared_source_edges :
  match get_object (Some 4%nat) (Snapshot.objects diamond_first) with
  | Some o =>
      SubscriptionSnapshot.sink o = Some 3%nat /\
      SubscriptionSnapshot.rootSink o = Some 1%nat
  | None => False
  end.
Proof. vm_compute. split; reflexivity. Qed.

(** ** The dispatcher *)

Import SpyCore.

Section SpyCoreProperties.
Context {Plugin Value Tracked Host : Type}.
Variable default_plugins : SpyId -> list Plugin.
Variable install : SpyId -> Host -> Host.
Variable methods : Plugin -> @PluginMethods Plugin Value Tracked Host.

Local Abbreviation World := (@World Plugin Tracked Host).
Local Abbreviation M := (@M Plugin Value Tracked Host).
Local Abbreviation Exn := (@Exn Value).
Local Abbreviation Notification := (@Notification Plugin Value Tracked Host).
Local Abbreviation Subscriber := (@Subscriber Plugin Value Tracked Host).

(** *** Running a computation step by step *)

Lemma run_bind {A B : Type} (c : M A) (k : A -> M B) (w : World) :
  bind c k w =
  match fst (c w) with
  | Return a => k a (snd (c w))
  | Throw e => (Throw e, snd (c w))
  end.
Proof. unfold bind. destruct (c w) as [[a | e] w']; reflexivity. Qed.

Lemma run_seq {A B : Type} (c : M A) (k : M B) (w : World) :
  seq c k w =
  match fst (c w) with
  | Return _ => k (snd (c w))
  | Throw e => (Throw e, snd (c w))
  end.
Proof. unfold seq. apply run_bind. Qed.

Lemma run_seq_returns {B : Type} (c : M unit) (k : M B) (w : World) :
  fst (c w) = Return tt -> seq c k w = k (snd (c w)).
Proof. intros H. rewrite run_seq, H. reflexivity. Qed.

Lemma run_seq_throws {B : Type} (c : M unit) (k : M B) (w : World) (e : Exn) :
  fst (c w) = Throw e -> seq c k w = (Throw e, snd (c w)).
Proof. intros H. rewrite run_seq, H. reflexivity. Qed.

(** *** Parts of the world that a computation preserves *)

Lemma preserves_bind {X A B : Type} (f : World -> X) (c : M A) (k : A -> M B) :
  preserves f c -> (forall a, preserves f (k a)) -> preserves f (bind c k).
Proof.
  intros Hc Hk w. rewrite run_bind.
  destruct (fst (c w)) as [a | e]; cbn [snd].
  - rewrite Hk. apply Hc.
  - apply Hc.
Qed.

Lemma preserves_seq {X A B : Type} (f : World -> X) (c : M A) (k : M B) :
  preserves f c -> preserves f k -> preserves f (seq c k).
Proof. intros Hc Hk. apply preserves_bind; auto. Qed.

Lemma preserves_ret {X A : Type} (f : World -> X) (a : A) :
  preserves f (ret a : M A).
Proof. intros w. reflexivity. Qed.

Lemma preserves_gets {X A : Type} (f : World -> X) (g : World -> A) :
  preserves f (gets g : M A).
Proof. intros w. reflexivity. Qed.

Lemma preserves_modify {X : Type} (f : World -> X) (g : World -> World) :
  (forall w, f (g w) = f w) -> preserves f (modify g : M unit).
Proof. intros H w. apply H. Qed.

Lemma preserves_forEach {X A : Type} (f : World -> X) (xs : list A)
    (cb : A -> M unit) :
  (forall x, In x xs -> preserves f (cb x)) -> preserves f (forEach xs cb).
Proof.
  induction xs as [| x xs IH]; intros H; cbn [forEach].
  - apply preserves_ret.
  - apply preserves_seq; [apply H; left; reflexivity|].
    apply IH. intros y Hy. apply H. right. exact Hy.
Qed.

Lemma preserves_probe {X A : Type} (f : World -> X) (s : SpyId) (ref : Ref)
    (k : nat) (pt : Point) (c : M A) :
  (forall l w, f (set_observations l w) = f w) ->
  preserves f c -> preserves f (probe s ref k pt c).
Proof. intros Hobs Hc w. unfold probe. rewrite Hc. apply Hobs. Qed.

Lemma preserves_notify_ {X : Type} (f : World -> X) (s : SpyId)
    (before : Plugin -> M unit) (block : M unit) (after : Plugin -> M unit) :
  (forall v w, f (set_tick_ s v w) = f w) ->
  (forall p, preserves f (before p)) ->
  preserves f block ->
  (forall p, preserves f (after p)) ->
  preserves f (notify_ s before block after).
Proof.
  intros Htick Hb Hblock Ha. unfold notify_.
  apply preserves_seq; [apply preserves_modify; intros w; apply Htick|].
  apply preserves_bind; [apply preserves_gets|]. intros ps.
  apply preserves_seq; [apply preserves_forEach; auto|].
  apply preserves_seq; [exact Hblock|].
  apply preserves_bind; [apply preserves_gets|]. intros ps'.
  apply preserves_forEach; auto.
Qed.

(** C9. While an instance is active, [new SpyCore(options)] throws at
    once and leaves the world -- the active instance and
    [Observable.prototype.subscribe] with it -- as it was. *)
Theorem second_instance_rejected :
  forall (options : Options) (w : World) (active : SpyId),
    spy_ w = Some active ->
    new_SpyCore (Value := Value) default_plugins install options w
    = (Throw (Error "Already spying on Observable.prototype.subscribe."%string),
       w).
Proof.
  intros options w active Hactive. unfold new_SpyCore.
  rewrite Hactive. reflexivity.
Qed.

(** C10. [ignore(block)] ends with [SpyCore.spy_] set to the instance it
    was called on, whether the block returns or throws, and its outcome
    is the outcome of the block, run while [SpyCore.spy_] is
    [undefined]. *)
Theorem ignore_restores_spy :
  forall (R : Type) (this : SpyId) (block : M R) (w : World),
    spy_ (snd (ignore this block w)) = Some this /\
    fst (ignore this block w) = fst (block (set_spy_ None w)) /\
    snd (ignore this block w)
    = set_spy_ (Some this) (snd (block (set_spy_ None w))).
Proof.
  intros R this block w. unfold ignore, seq, bind, modify, try_catch_finally.
  cbn. unfold throw.
  destruct (block (set_spy_ None w)) as [[r | e] w']; cbn; auto.
Qed.

(** *** The steps of a dispatch *)

Lemma forEach_app {A : Type} (xs ys : list A) (cb : A -> M unit) (w : World) :
  forEach (xs ++ ys) cb w = seq (forEach xs cb) (forEach ys cb) w.
Proof.
  revert w. induction xs as [| x xs IH]; intros w; cbn [forEach app].
  - reflexivity.
  - rewrite !run_seq. destruct (fst (cb x w)); [| reflexivity].
    rewrite IH, run_seq. reflexivity.
Qed.

(** A probed dispatch, phase by phase. *)
Lemma probed_notify_unfold (s : SpyId) (ref : Ref) (k : nat)
    (before : Plugin -> M unit) (block : M unit) (after : Plugin -> M unit)
    (w : World) :
  probed_notify_ s ref k before block after w =
  let w1 := set_tick_ s (increment (tick_ w s)) w in
  let rb := forEach (plugins_ w s) (probed_before s ref k before) w1 in
  match fst rb with
  | Throw e => (Throw e, snd rb)
  | Return _ =>
      let ra := probe s ref k Action block (snd rb) in
      match fst ra with
      | Throw e => (Throw e, snd ra)
      | Return _ =>
          forEach (plugins_ (snd ra) s) (probed_after s ref k after) (snd ra)
      end
  end.
Proof.
  unfold probed_notify_, notify_.
  rewrite run_seq. cbn [modify fst snd].
  rewrite run_bind. cbn [gets fst snd].
  replace (plugins_ (set_tick_ s (increment (tick_ w s)) w) s) with (plugins_ w s)
    by reflexivity.
  rewrite run_seq. cbn zeta.
  destruct (fst (forEach (plugins_ w s) (probed_before s ref k before)
                   (set_tick_ s (increment (tick_ w s)) w))); [| reflexivity].
  rewrite run_seq.
  destruct (fst (probe s ref k Action block _)); [| reflexivity].
  rewrite run_bind. reflexivity.
Qed.

(** Callbacks that return are all entered, in the order of the list. *)
Lemma forEach_probed_returns (s : SpyId) (ref : Ref) (k : nat)
    (mkpt : Plugin -> Point) (cb : Plugin -> M unit) (ps : list Plugin) :
  (forall p, In p ps -> returns (cb p) /\ silent (cb p)) ->
  forall w,
    let r := forEach ps (fun p => probe s ref k (mkpt p) (cb p)) w in
    fst r = Return tt /\
    exists l, observations (snd r) = observations w ++ l /\
              map point l = map mkpt ps.
Proof.
  induction ps as [| p ps IH]; intros Hcb w; cbn [forEach].
  - split; [reflexivity|]. exists []. rewrite app_nil_r. auto.
  - destruct (Hcb p (or_introl eq_refl)) as [Hret Hsil].
    assert (Hp : fst (probe s ref k (mkpt p) (cb p) w) = Return tt)
      by (unfold probe; apply Hret).
    cbn zeta. rewrite (run_seq_returns _ _ _ Hp).
    set (w1 := snd (probe s ref k (mkpt p) (cb p) w)).
    assert (Hobs1 : observations w1 = observations w ++
              [mkObservation k (mkpt p) (tick_ w s) (ref_unsubscribed w ref)]).
    { unfold w1, probe. rewrite Hsil. reflexivity. }
    destruct (IH (fun q Hq => Hcb q (or_intror Hq)) w1) as (Hr & l & Hl & Hpts).
    split; [exact Hr|].
    exists (mkObservation k (mkpt p) (tick_ w s) (ref_unsubscribed w ref) :: l).
    split; [| cbn; rewrite Hpts; reflexivity].
    rewrite Hl, Hobs1, <- app_assoc. reflexivity.
Qed.


(** The callbacks before the first one that throws are entered, then the
    one that throws, and no other. *)
Lemma forEach_probed_throws (s : SpyId) (ref : Ref) (k : nat)
    (mkpt : Plugin -> Point) (cb : Plugin -> M unit)
    (ps1 : list Plugin) (p : Plugin) (ps2 : list Plugin) (e : Exn) :
  (forall q, In q ps1 -> returns (cb q) /\ silent (cb q)) ->
  silent (cb p) -> throws e (cb p) ->
  forall w,
    let r := forEach (ps1 ++ p :: ps2)
               (fun p => probe s ref k (mkpt p) (cb p)) w in
    fst r = Throw e /\
    exists l, observations (snd r) = observations w ++ l /\
              map point l = map mkpt (ps1 ++ [p]).
Proof.
  intros H1 Hsil Hthrow w. cbn zeta. rewrite forEach_app.
  destruct (forEach_probed_returns s ref k mkpt cb ps1 H1 w)
    as (Hr & l & Hl & Hpts).
  cbn zeta in Hr, Hl. rewrite (run_seq_returns _ _ _ Hr).
  set (w1 := snd (forEach ps1 _ w)) in *.
  cbn [forEach].
  assert (Hp : fst (probe s ref k (mkpt p) (cb p) w1) = Throw e)
    by (unfold probe; apply Hthrow).
  rewrite (run_seq_throws _ _ _ e Hp). cbn [fst snd].
  split; [reflexivity|].
  exists (l ++ [mkObservation k (mkpt p) (tick_ w1 s) (ref_unsubscribed w1 ref)]).
  split.
  - unfold probe. rewrite Hsil. cbn [observations set_observations].
    rewrite Hl, app_assoc. reflexivity.
  - rewrite !map_app, Hpts. reflexivity.
Qed.

Lemma probed_before_preserves {X : Type} (f : World -> X) (s : SpyId)
    (ref : Ref) (k : nat) (before : Plugin -> M unit) (ps : list Plugin) :
  (forall l w, f (set_observations l w) = f w) ->
  (forall p, preserves f (before p)) ->
  preserves f (forEach ps (probed_before s ref k before)).
Proof.
  intros Hobs Hb. apply preserves_forEach. intros p _.
  unfold probed_before. apply preserves_probe; auto.
Qed.

(** A dispatch whose callbacks and action return: the state [wa] in
    which the after-callbacks start, and the observations. *)
Lemma probed_notify_returns (s : SpyId) (ref : Ref) (k : nat)
    (before : Plugin -> M unit) (block : M unit) (after : Plugin -> M unit)
    (w : World) :
  (forall p, orderly s (before p)) ->
  orderly s block ->
  let wb := snd (forEach (plugins_ w s) (probed_before s ref k before)
                   (set_tick_ s (increment (tick_ w s)) w)) in
  let oa := mkObservation k Action (tick_ wb s) (ref_unsubscribed wb ref) in
  let wa := snd (block (set_observations (observations wb ++ [oa]) wb)) in
  probed_notify_ s ref k before block after w
  = forEach (plugins_ w s) (probed_after s ref k after) wa /\
  observations wa = observations wb ++ [oa] /\
  exists lb, observations wb = observations w ++ lb /\
             map point lb = map BeforeCallback (plugins_ w s).
Proof.
  intros Hb (Hret & Hsil & Hkeep) wb oa wa.
  destruct (forEach_probed_returns s ref k BeforeCallback before (plugins_ w s)
              (fun p _ => conj (proj1 (Hb p)) (proj1 (proj2 (Hb p))))
              (set_tick_ s (increment (tick_ w s)) w)) as (Hrb & lb & Hlb & Hpts).
  fold (probed_before s ref k before) in Hrb, Hlb. fold wb in Hlb.
  assert (Hpb : plugins_ wb s = plugins_ w s).
  { unfold wb.
    rewrite (probed_before_preserves (fun w => plugins_ w s) s ref k before
               (plugins_ w s) (fun _ _ => eq_refl)
               (fun p => proj2 (proj2 (Hb p)))).
    reflexivity. }
  assert (Hra : probe s ref k Action block wb
                = (Return tt, wa)).
  { unfold probe. fold oa. fold wa.
    rewrite (surjective_pairing (block _)). rewrite Hret. reflexivity. }
  split; [| split].
  - rewrite probed_notify_unfold. cbn zeta. rewrite Hrb. fold wb.
    rewrite Hra. cbn [fst snd].
    unfold wa. rewrite Hkeep. cbn [plugins_ set_observations].
    rewrite Hpb. reflexivity.
  - unfold wa. rewrite Hsil. reflexivity.
  - exists lb. split; [exact Hlb | exact Hpts].
Qed.




(** C1, as the code has it.  When the before-callback of a registered
    plugin throws, the dispatch throws the same exception to its
    caller, the plugins registered after it are not called and the
    action is not performed; when an after-callback throws, the action
    has been performed, the dispatch throws the same exception and the
    plugins registered after it are not called. *)
Theorem throwing_observer_aborts_dispatch :
  (forall (s : SpyId) (ref : Ref) (k : nat)
          (before : Plugin -> M unit) (block : M unit)
          (after : Plugin -> M unit) (w : World)
          (ps1 : list Plugin) (p : Plugin) (ps2 : list Plugin) (e : Exn),
     plugins_ w s = ps1 ++ p :: ps2 ->
     (forall q, In q ps1 -> returns (before q) /\ silent (before q)) ->
     silent (before p) -> throws e (before p) ->
     let r := probed_notify_ s ref k before block after w in
     fst r = Throw e /\
     exists l,
       observations (snd r) = observations w ++ l /\
       map point l = map BeforeCallback (ps1 ++ [p])) /\
  (forall (s : SpyId) (ref : Ref) (k : nat)
          (before : Plugin -> M unit) (block : M unit)
          (after : Plugin -> M unit) (w : World)
          (ps1 : list Plugin) (p : Plugin) (ps2 : list Plugin) (e : Exn),
     plugins_ w s = ps1 ++ p :: ps2 ->
     (forall q, orderly s (before q)) ->
     orderly s block ->
     (forall q, In q ps1 -> returns (after q) /\ silent (after q)) ->
     silent (after p) -> throws e (after p) ->
     let r := probed_notify_ s ref k before block after w in
     fst r = Throw e /\
     exists lb oa la,
       observations (snd r) = observations w ++ lb ++ oa :: la /\
       map point lb = map BeforeCallback (plugins_ w s) /\
       point oa = Action /\
       map point la = map AfterCallback (ps1 ++ [p])).
Proof.
  split.
  - intros s ref k before block after w ps1 p ps2 e Hps H1 Hsil Hthrow r.
    unfold r. rewrite probed_notify_unfold. cbn zeta. rewrite Hps.
    destruct (forEach_probed_throws s ref k BeforeCallback before
                ps1 p ps2 e H1 Hsil Hthrow (set_tick_ s (increment (tick_ w s)) w))
      as (Hr & l & Hl & Hpts).
    fold (probed_before s ref k before) in Hr, Hl.
    cbn zeta in Hr. rewrite Hr. cbn [fst snd].
    split; [reflexivity|]. exists l. split; [exact Hl | exact Hpts].
  - intros s ref k before block after w ps1 p ps2 e Hps Hb Hblock H1 Hsil
           Hthrow r.
    destruct (probed_notify_returns s ref k before block after w Hb Hblock)
      as (Hrun & Hwa & lb & Hlb & Hptb).
    set (wb := snd (forEach _ _ _)) in *.
    set (oa := mkObservation k Action _ _) in *.
    set (wa := snd (block _)) in *.
    unfold r. rewrite Hrun, Hps.
    destruct (forEach_probed_throws s ref k AfterCallback after
                ps1 p ps2 e H1 Hsil Hthrow wa) as (Hr & la & Hla & Hpta).
    fold (probed_after s ref k after) in Hr, Hla.
    split; [exact Hr|].
    exists lb, oa, la. rewrite <- Hps. split; [| auto].
    cbn zeta in Hla. rewrite Hps, Hla, Hwa, Hlb, <- !app_assoc. reflexivity.
Qed.

(** *** Ticks *)








Lemma increment_at_limit (t : Z) : 2 ^ 53 <= t -> increment t = t.
Proof.
  intros H. unfold increment.
  destruct (Z.ltb_spec t (2 ^ 53)) as [Hlt | _]; [lia | reflexivity].
Qed.






(** *** Unsubscription *)

Lemma host_only_keeps_closure {A : Type} (ref : Ref) (c : M A) :
  host_only c -> keeps_closure ref c.
Proof. intros H w. rewrite (H w). reflexivity. Qed.

(** After [unsubscribe] has run, the [unsubscribed] field of the closure
    is set. *)
Lemma probed_unsubscribe_sets_closure (s : SpyId) (ref : Ref) (k : nat)
    (subscriber : Subscriber) (w : World) :
  (forall p, keeps_closure ref (beforeUnsubscribe (methods p) ref) /\
             keeps_closure ref (afterUnsubscribe (methods p) ref)) ->
  keeps_closure ref (pluginsSubscription_unsubscribe subscriber) ->
  host_only (postLetUnsubscribe subscriber) ->
  postLetObserver_unsubscribed
    (snd (probed_unsubscribe methods s ref k subscriber w)) ref = true.
Proof.
  intros Hcb Hpsu Hplu.
  pose proof (host_only_keeps_closure ref _ Hplu) as Hplu'.
  unfold probed_unsubscribe, unsubscribe_with.
  rewrite run_bind. cbn [gets fst snd].
  destruct (postLetObserver_unsubscribed w ref) eqn:Hflag; cbn [negb].
  - rewrite (Hplu' w). exact Hflag.
  - rewrite run_seq. cbn [modify fst snd].
    rewrite (preserves_notify_
               (fun w => postLetObserver_unsubscribed w ref) s).
    + cbn. apply upd_same.
    + reflexivity.
    + intros p. unfold probed_before.
      apply preserves_probe; [reflexivity | apply Hcb].
    + apply preserves_probe; [reflexivity|]. unfold unsubscribe_block.
      apply preserves_seq; [exact Hplu'|].
      apply preserves_seq; [exact Hpsu|].
      apply preserves_modify. reflexivity.
    + intros p. unfold probed_after.
      apply preserves_probe; [reflexivity | apply Hcb].
Qed.

(** C7. A second [unsubscribe] enters no callback and no action of an
    unsubscribe notification, leaves the tick where it is, and changes
    nothing but what the host's own [unsubscribe] changes in the host. *)
Theorem unsubscribe_is_idempotent :
  forall (s : SpyId) (ref : Ref) (k k' : nat)
         (subscriber : Subscriber) (w : World),
    (forall p, keeps_closure ref (beforeUnsubscribe (methods p) ref) /\
               keeps_closure ref (afterUnsubscribe (methods p) ref)) ->
    keeps_closure ref (pluginsSubscription_unsubscribe subscriber) ->
    host_only (postLetUnsubscribe subscriber) ->
    let w1 := snd (probed_unsubscribe methods s ref k subscriber w) in
    let w2 := snd (probed_unsubscribe methods s ref k' subscriber w1) in
    observations w2 = observations w1 /\
    tick_ w2 = tick_ w1 /\
    tracked w2 = tracked w1 /\
    ref_unsubscribed w2 = ref_unsubscribed w1 /\
    plugins_ w2 = plugins_ w1 /\
    w2 = set_host (host w2) w1.
Proof.
  intros s ref k k' subscriber w Hcb Hpsu Hplu w1 w2.
  pose proof (probed_unsubscribe_sets_closure s ref k subscriber w
                Hcb Hpsu Hplu) as Hset.
  fold w1 in Hset.
  assert (H2 : w2 = snd (postLetUnsubscribe subscriber w1)).
  { unfold w2, probed_unsubscribe, unsubscribe_with.
    rewrite run_bind. cbn [gets fst snd]. rewrite Hset. reflexivity. }
  pose proof (Hplu w1) as Hhost. rewrite <- H2 in Hhost.
  rewrite Hhost. cbn. repeat split; reflexivity.
Qed.

End SpyCoreProperties.

(** *** Probes are transparent *)

Section Transparency.
Context {Plugin Value Tracked Host : Type}.
Variable methods : Plugin -> @PluginMethods Plugin Value Tracked Host.

Local Abbreviation World := (@World Plugin Tracked Host).
Local Abbreviation M := (@M Plugin Value Tracked Host).
Local Abbreviation Subscriber := (@Subscriber Plugin Value Tracked Host).

Lemma sim_bind {A B : Type} (c1 c2 : M A) (k1 k2 : A -> M B) :
  sim c1 c2 -> (forall a, sim (k1 a) (k2 a)) -> sim (bind c1 k1) (bind c2 k2).
Proof.
  intros Hc Hk w1 w2 Hw. rewrite !run_bind.
  destruct (Hc w1 w2 Hw) as [Ho Hs]. rewrite Ho.
  destruct (fst (c2 w2)) as [a | e]; cbn [fst snd].
  - apply Hk. exact Hs.
  - split; [reflexivity | exact Hs].
Qed.

Lemma sim_forEach {A : Type} (xs : list A) (cb1 cb2 : A -> M unit) :
  (forall x, sim (cb1 x) (cb2 x)) -> sim (forEach xs cb1) (forEach xs cb2).
Proof.
  intros Hcb. induction xs as [| x xs IH]; cbn [forEach].
  - intros w1 w2 Hw. split; [reflexivity | exact Hw].
  - apply sim_bind; [apply Hcb | intros _; exact IH].
Qed.

Lemma sim_probe {A : Type} (s : SpyId) (ref : Ref) (k : nat) (pt : Point)
    (c : M A) :
  blind c -> sim (probe s ref k pt c) c.
Proof. intros Hc w1 w2 Hw. unfold probe. apply Hc. exact Hw. Qed.

Lemma erase_plugins (s : SpyId) (w1 w2 : World) :
  erase w1 = erase w2 -> plugins_ w1 s = plugins_ w2 s.
Proof. intros H. exact (f_equal (fun w => plugins_ w s) H). Qed.

Lemma erase_set_tick (s : SpyId) (w1 w2 : World) :
  erase w1 = erase w2 ->
  erase (set_tick_ s (increment (tick_ w1 s)) w1)
  = erase (set_tick_ s (increment (tick_ w2 s)) w2).
Proof.
  destruct w1, w2. unfold erase, set_tick_, set_observations. cbn.
  intros H. inversion H. subst. reflexivity.
Qed.

(** The probes change nothing but the observations: a probed dispatch
    and the dispatch itself have the same outcome and end in the same
    world, observations apart. *)
Lemma probes_are_transparent (s : SpyId) (ref : Ref) (k : nat)
    (before : Plugin -> M unit) (block : M unit) (after : Plugin -> M unit) :
  (forall p, blind (before p)) -> blind block -> (forall p, blind (after p)) ->
  sim (probed_notify_ s ref k before block after)
      (notify_ s before block after).
Proof.
  intros Hb Hblock Ha. unfold probed_notify_, notify_.
  apply sim_bind.
  { intros w1 w2 Hw. split; [reflexivity|]. cbn [modify snd].
    apply erase_set_tick. exact Hw. }
  intros _. apply sim_bind.
  { intros w1 w2 Hw. cbn [gets fst snd].
    rewrite (erase_plugins s w1 w2 Hw). split; [reflexivity | exact Hw]. }
  intros ps. apply sim_bind.
  { apply sim_forEach. intros p. apply sim_probe, Hb. }
  intros _. apply sim_bind; [apply sim_probe, Hblock|].
  intros _. apply sim_bind.
  { intros w1 w2 Hw. cbn [gets fst snd].
    rewrite (erase_plugins s w1 w2 Hw). split; [reflexivity | exact Hw]. }
  intros ps'. apply sim_forEach. intros p. apply sim_probe, Ha.
Qed.

Lemma erase_closure (ref : Ref) (w1 w2 : World) :
  erase w1 = erase w2 ->
  postLetObserver_unsubscribed w1 ref = postLetObserver_unsubscribed w2 ref /\
  erase (set_postLetObserver_unsubscribed ref true w1)
  = erase (set_postLetObserver_unsubscribed ref true w2).
Proof.
  destruct w1, w2.
  unfold erase, set_postLetObserver_unsubscribed, set_observations. cbn.
  intros H. inversion H. subst. split; reflexivity.
Qed.

Lemma erase_set_ref_unsubscribed (ref : Ref) (w1 w2 : World) :
  erase w1 = erase w2 ->
  erase (set_ref_unsubscribed ref true w1)
  = erase (set_ref_unsubscribed ref true w2).
Proof.
  destruct w1, w2. unfold erase, set_ref_unsubscribed, set_observations. cbn.
  intros H. inversion H. subst. reflexivity.
Qed.

(** The same for [postLetSubscriber.unsubscribe]. *)
Lemma unsubscribe_probes_are_transparent (s : SpyId) (ref : Ref) (k : nat)
    (subscriber : Subscriber) :
  (forall p, blind (beforeUnsubscribe (methods p) ref) /\
             blind (afterUnsubscribe (methods p) ref)) ->
  blind (postLetUnsubscribe subscriber) ->
  blind (pluginsSubscription_unsubscribe subscriber) ->
  sim (probed_unsubscribe methods s ref k subscriber)
      (postLetSubscriber_unsubscribe methods s ref subscriber).
Proof.
  intros Hcb Hplu Hpsu.
  assert (Hblock : blind (unsubscribe_block ref subscriber)).
  { unfold unsubscribe_block. apply sim_bind; [exact Hplu|].
    intros _. apply sim_bind; [exact Hpsu|].
    intros _ w1 w2 Hw. split; [reflexivity|]. cbn [modify snd].
    apply erase_set_ref_unsubscribed. exact Hw. }
  intros w1 w2 Hw.
  unfold probed_unsubscribe, postLetSubscriber_unsubscribe, unsubscribe_with.
  rewrite !run_bind. cbn [gets fst snd].
  destruct (erase_closure ref w1 w2 Hw) as [Hflag Hset]. rewrite Hflag.
  destruct (postLetObserver_unsubscribed w2 ref); cbn [negb].
  - apply Hplu. exact Hw.
  - rewrite !run_seq. cbn [modify fst snd].
    apply (probes_are_transparent s ref k); [| exact Hblock | | exact Hset];
      intros p; apply Hcb.
Qed.

End Transparency.

(** *** Notifications caused by a callback *)

Section Reentrancy.
Context {Plugin Value Tracked Host : Type}.

Local Abbreviation World := (@World Plugin Tracked Host).
Local Abbreviation M := (@M Plugin Value Tracked Host).




End Reentrancy.

(** ** The concrete program *)








(** With plugins that return, a next notification runs the callbacks and
    the subscriber's handler in order. *)
Example next_with_recording_plugins :
  let r := postLetObserver_next Demo.recording 0%nat 5%nat Demo.subscriber
             9%nat Demo.world1 in
  fst r = Return tt /\
  host (snd r) = 1%nat /\
  tracked (snd r) = [0; 2; 1; 3]%nat /\
  tick_ (snd r) 0%nat = 1.
Proof. repeat split. Qed.

(** C1 as stated fails.  The plugins 0 and 1 are registered, and
    [beforeNext] of plugin 0 throws 7: the next notification throws 7
    to its caller, the subscriber's handler is not called (the host has
    performed no action) and [beforeNext] of plugin 1 is not called
    (nothing is recorded). *)
Lemma throwing_before_callback_stops_dispatch :
  let r := postLetObserver_next Demo.failing 0%nat 5%nat Demo.subscriber
             9%nat Demo.world1 in
  plugins_ Demo.world1 0%nat = [0; 1]%nat /\
  fst r = Throw (Raised 7%nat) /\
  host (snd r) = host Demo.world1 /\
  tracked (snd r) = [].
Proof. repeat split. Qed.

Lemma throwing_observer_aborts_dispatch_witness :
  (plugins_ Demo.world1 0%nat = [] ++ 0%nat :: [1%nat] /\
   throws (Raised 7%nat) (beforeNext (Demo.failing 0%nat) 5%nat 9%nat) /\
   let r := probed_notify_ 0%nat 5%nat 0%nat
              (fun p => beforeNext (Demo.failing p) 5%nat 9%nat)
              (subscriber_next Demo.subscriber 9%nat)
              (fun p => afterNext (Demo.failing p) 5%nat 9%nat)
              Demo.world1 in
   fst r = Throw (Raised 7%nat) /\
   exists l,
     observations (snd r) = observations Demo.world1 ++ l /\
     map point l = map BeforeCallback ([] ++ [0%nat])) /\
  (throws (Raised 8%nat) (afterNext (Demo.failing_after 0%nat) 5%nat 9%nat) /\
   let r := probed_notify_ 0%nat 5%nat 0%nat
              (fun p => beforeNext (Demo.failing_after p) 5%nat 9%nat)
              (subscriber_next Demo.subscriber 9%nat)
              (fun p => afterNext (Demo.failing_after p) 5%nat 9%nat)
              Demo.world1 in
   fst r = Throw (Raised 8%nat) /\
   exists lb oa la,
     observations (snd r) = observations Demo.world1 ++ lb ++ oa :: la /\
     map point lb = map BeforeCallback (plugins_ Demo.world1 0%nat) /\
     point oa = Action /\
     map point la = map AfterCallback ([] ++ [0%nat])).
Proof.
  destruct (@throwing_observer_aborts_dispatch nat nat (list nat) nat)
    as [Hbefore Hafter].
  split.
  - split; [reflexivity|]. split; [intros w; reflexivity|].
    apply (Hbefore 0%nat 5%nat 0%nat
             (fun p => beforeNext (Demo.failing p) 5%nat 9%nat)
             (subscriber_next Demo.subscriber 9%nat)
             (fun p => afterNext (Demo.failing p) 5%nat 9%nat)
             Demo.world1 [] 0%nat [1%nat] (Raised 7%nat)).
    + reflexivity.
    + intros q [].
    + intros w. reflexivity.
    + intros w. reflexivity.
  - split; [intros w; reflexivity|].
    apply (Hafter 0%nat 5%nat 0%nat
             (fun p => beforeNext (Demo.failing_after p) 5%nat 9%nat)
             (subscriber_next Demo.subscriber 9%nat)
             (fun p => afterNext (Demo.failing_after p) 5%nat 9%nat)
             Demo.world1 [] 0%nat [1%nat] (Raised 8%nat)).
    + reflexivity.
    + intros [| p]; repeat split.
    + repeat split.
    + intros q [].
    + intros w. reflexivity.
    + intros w. reflexivity.
Defined.

(** An after-callback that throws: the action has been performed, and
    plugin 1 is not called. *)
Example throwing_after_callback :
  let r := postLetObserver_next Demo.failing_after 0%nat 5%nat Demo.subscriber
             9%nat Demo.world1 in
  fst r = Throw (Raised 8%nat) /\
  host (snd r) = 1%nat /\
  tracked (snd r) = [0; 2]%nat.
Proof. repeat split. Qed.



(** The observations of that unsubscription, computed. *)
Example unsubscribe_observations :
  map (fun o => (point o, seen_tick o, seen_unsubscribed o))
      (observations
         (snd (probed_unsubscribe Demo.recording 0%nat 5%nat 0%nat
                 Demo.subscriber Demo.world1)))
  = [(BeforeCallback 0%nat, 1, false); (BeforeCallback 1%nat, 1, false);
     (Action, 1, false);
     (AfterCallback 0%nat, 1, true); (AfterCallback 1%nat, 1, true)].
Proof. reflexivity. Qed.


(** The ticks seen in those three dispatches: the second causes a
    notification from its action, whose tick its after-callbacks then
    read. *)
Example ticks_seen_in_three_dispatches :
  tick_ Demo.world1 0%nat = 0 /\
  map (fun o => (batch o, seen_tick o))
      (observations
         (dispatch_all 0%nat 0%nat [Demo.next_5; Demo.subscribe_6; Demo.next_5]
            Demo.world1))
  = [(0%nat, 1); (0%nat, 1); (0%nat, 1); (0%nat, 1); (0%nat, 1);
     (1%nat, 2); (1%nat, 2); (1%nat, 2); (1%nat, 3); (1%nat, 3);
     (2%nat, 4); (2%nat, 4); (2%nat, 4); (2%nat, 4); (2%nat, 4)].
Proof. split; reflexivity. Qed.


Lemma unsubscribe_is_idempotent_witness :
  host_only (postLetUnsubscribe Demo.subscriber) /\
  let w1 := snd (probed_unsubscribe Demo.recording 0%nat 5%nat 0%nat
                   Demo.subscriber Demo.world1) in
  let w2 := snd (probed_unsubscribe Demo.recording 0%nat 5%nat 1%nat
                   Demo.subscriber w1) in
  observations w2 = observations w1 /\
  tick_ w2 = tick_ w1 /\
  tracked w2 = tracked w1 /\
  ref_unsubscribed w2 = ref_unsubscribed w1 /\
  plugins_ w2 = plugins_ w1 /\
  w2 = set_host (host w2) w1.
Proof.
  split; [intros w; reflexivity|].
  apply (@unsubscribe_is_idempotent nat nat (list nat) nat Demo.recording
           0%nat 5%nat 0%nat 1%nat Demo.subscriber Demo.world1).
  - intros p. split; intros w; reflexivity.
  - intros w. reflexivity.
  - intros w. reflexivity.
Defined.

(** Unsubscribing twice, computed: the second call performs one host
    action and nothing else. *)
Example unsubscribe_twice :
  let w1 := snd (postLetSubscriber_unsubscribe Demo.recording 0%nat 5%nat
                   Demo.subscriber Demo.world1) in
  let w2 := snd (postLetSubscriber_unsubscribe Demo.recording 0%nat 5%nat
                   Demo.subscriber w1) in
  (tick_ w1 0%nat, tracked w1, ref_unsubscribed w1 5%nat, host w1)
  = (1, [0; 2; 1; 3]%nat, true, 1%nat) /\
  (tick_ w2 0%nat, tracked w2, ref_unsubscribed w2 5%nat, host w2)
  = (1, [0; 2; 1; 3]%nat, true, 2%nat).
Proof. split; reflexivity. Qed.

Lemma second_instance_rejected_witness :
  spy_ Demo.world1 = Some 0%nat /\
  new_SpyCore (Value := nat) Demo.plugins Demo.install (mkOptions true true)
    Demo.world1
  = (Throw (Error "Already spying on Observable.prototype.subscribe."%string),
     Demo.world1).
Proof.
  split; [reflexivity|].
  apply (@second_instance_rejected nat nat (list nat) nat
           Demo.plugins Demo.install (mkOptions true true) Demo.world1 0%nat).
  reflexivity.
Defined.

(** [ignore] around a block that throws and around one that returns. *)
Example ignore_around_blocks :
  let thrown := ignore (R := nat) 0%nat (throw (Raised 3%nat)) Demo.world1 in
  let returned :=
    ignore (Value := nat) 0%nat (gets (fun w => spy_ w)) Demo.world1 in
  fst thrown = Throw (Raised 3%nat) /\ spy_ (snd thrown) = Some 0%nat /\
  fst returned = Return None /\ spy_ (snd returned) = Some 0%nat.
Proof. repeat split. Qed.

(* ================================================================== *)
(** * The registry of plugins and the teardown                        *)
(* ================================================================== *)

Section SpyLifecycleProperties.
Context {Plugin Value Tracked Library Ctor : Type}.

Local Abbreviation Host := (SpyLifecycle.Fields Plugin Library).
Local Abbreviation World := (@SpyCore.World Plugin Tracked Host).
Local Abbreviation M := (@SpyCore.M Plugin Value Tracked Host).

Variable plugin_eqb : Plugin -> Plugin -> bool.
Variable instanceOf : Plugin -> Ctor -> bool.
Variable plugin_teardown : Plugin -> M unit.
Variable pluginsSubject_next : SpyId -> list Plugin -> M unit.
Variable install_hooks : SpyId -> Library -> Library.
Variable remove_hooks : M unit.
Variable default_plugins : SpyId -> list Plugin.

Local Abbreviation unplug :=
  (SpyLifecycle.unplug plugin_eqb plugin_teardown pluginsSubject_next).
Local Abbreviation plug :=
  (SpyLifecycle.plug plugin_eqb plugin_teardown pluginsSubject_next).
Local Abbreviation teardown :=
  (SpyLifecycle.teardown plugin_teardown pluginsSubject_next remove_hooks).
Local Abbreviation teardown_function :=
  (SpyLifecycle.teardown_function plugin_teardown pluginsSubject_next
     remove_hooks).
Local Abbreviation new_SpyCore :=
  (SpyLifecycle.new_SpyCore (Value := Value) install_hooks default_plugins).
Local Abbreviation undos_ := (fun (w : World) => SpyLifecycle.undos_ (host w)).
Local Abbreviation teardown_ :=
  (fun (w : World) => SpyLifecycle.teardown_ (host w)).
Local Abbreviation tidy := (@SpyLifecycle.tidy Plugin Value Tracked Library).
Local Abbreviation remove_all := (SpyLifecycle.remove_all plugin_eqb).

(** One turn of the loop of [unplug]. *)
Lemma unplug_one (this : SpyId) (p : Plugin) (w : World) :
  tidy this (plugin_teardown p) ->
  (forall ps, tidy this (pluginsSubject_next this ps)) ->
  exists w',
    unplug this [p] w = (Return tt, w') /\
    plugins_ w' this
    = filter (fun q => negb (plugin_eqb q p)) (plugins_ w this) /\
    undos_ w' this = filter (fun q => negb (plugin_eqb q p)) (undos_ w this).
Proof.
  intros [Hr Hk] Hs.
  unfold SpyLifecycle.unplug. cbn [forEach].
  unfold seq, bind, modify, gets, ret.
  specialize (Hr w). destruct (Hk w) as [Hkp Hku].
  destruct (plugin_teardown p w) as [[[] | e] w1]; cbn in Hr, Hkp, Hku;
    [| discriminate].
  set (w2 := set_plugins_ this _ w1).
  destruct (Hs (plugins_ w2 this)) as [Hr2 Hk2].
  specialize (Hr2 w2). destruct (Hk2 w2) as [Hsp Hsu].
  destruct (pluginsSubject_next this (plugins_ w2 this) w2) as [[[] | e] w3];
    cbn in Hr2, Hsp, Hsu; [| discriminate].
  eexists. split; [reflexivity|].
  unfold SpyLifecycle.set_undos_. cbn. split.
  - rewrite Hsp. unfold w2. cbn. rewrite upd_same, Hkp. reflexivity.
  - rewrite upd_same, Hsu. unfold w2. cbn. rewrite Hku. reflexivity.
Qed.

Lemma remove_all_cons (p : Plugin) (ps l : list Plugin) :
  remove_all ps (filter (fun q => negb (plugin_eqb q p)) l)
  = remove_all (p :: ps) l.
Proof.
  unfold SpyLifecycle.remove_all.
  induction l as [| x l IH]; [reflexivity|].
  cbn [filter existsb].
  destruct (plugin_eqb x p); cbn [negb orb]; [exact IH|].
  cbn [filter]. destruct (negb (existsb (plugin_eqb x) ps)); [| exact IH].
  rewrite IH. reflexivity.
Qed.

Lemma remove_all_nil (l : list Plugin) : remove_all [] l = l.
Proof.
  unfold SpyLifecycle.remove_all. induction l as [| x l IH]; [reflexivity|].
  cbn. f_equal. exact IH.
Qed.

Lemma unplug_cons (this : SpyId) (p : Plugin) (ps : list Plugin) (w : World) :
  unplug this (p :: ps) w = seq (unplug this [p]) (unplug this ps) w.
Proof.
  unfold SpyLifecycle.unplug. exact (forEach_app [p] ps _ w).
Qed.

(** What [unplug] does when the teardowns of the plugins return. *)
Lemma run_unplug (this : SpyId) (plugins : list Plugin) :
  (forall p, In p plugins -> tidy this (plugin_teardown p)) ->
  (forall ps, tidy this (pluginsSubject_next this ps)) ->
  forall w,
    exists w',
      unplug this plugins w = (Return tt, w') /\
      plugins_ w' this = remove_all plugins (plugins_ w this) /\
      undos_ w' this = remove_all plugins (undos_ w this).
Proof.
  intros Hp Hs.
  induction plugins as [| p ps IH]; intros w.
  - exists w. split; [reflexivity|]. rewrite !remove_all_nil. auto.
  - destruct (unplug_one this p w (Hp p (or_introl eq_refl)) Hs)
      as (w1 & H1 & Hp1 & Hu1).
    destruct (IH (fun q Hq => Hp q (or_intror Hq)) w1) as (w2 & H2 & Hp2 & Hu2).
    exists w2. rewrite unplug_cons. unfold seq, bind. rewrite H1.
    split; [exact H2|].
    rewrite Hp2, Hu2, Hp1, Hu1, !remove_all_cons. auto.
Qed.

(** X10. [unplug(...plugins)] removes the given plugins, every
    occurrence of them, from [plugins_] and from [undos_], and leaves
    the others in their order, provided the teardowns of the plugins
    and the observers of the plugin list return. *)
Theorem unplug_removes_the_given_plugins :
  forall (this : SpyId) (plugins : list Plugin) (w : World),
    (forall p, In p plugins -> tidy this (plugin_teardown p)) ->
    (forall ps, tidy this (pluginsSubject_next this ps)) ->
    exists w',
      unplug this plugins w = (Return tt, w') /\
      plugins_ w' this = remove_all plugins (plugins_ w this) /\
      undos_ w' this = remove_all plugins (undos_ w this).
Proof. intros this plugins w Hp Hs. exact (run_unplug this plugins Hp Hs w). Qed.

(** X11. A plugin whose teardown throws stays registered: [unplug]
    throws what the teardown threw, having removed the plugins before
    that one only. *)
Theorem unplug_stops_at_a_throwing_teardown :
  forall (this : SpyId) (before : list Plugin) (p : Plugin)
         (after : list Plugin) (e : @Exn Value) (w : World),
    (forall q, In q before -> tidy this (plugin_teardown q)) ->
    (forall ps, tidy this (pluginsSubject_next this ps)) ->
    throws e (plugin_teardown p) ->
    SpyLifecycle.keeps_registry this (plugin_teardown p) ->
    exists w',
      unplug this (before ++ p :: after) w = (Throw e, w') /\
      plugins_ w' this = remove_all before (plugins_ w this) /\
      undos_ w' this = remove_all before (undos_ w this).
Proof.
  intros this before p after e w Hb Hs Ht Hk.
  destruct (run_unplug this before Hb Hs w) as (w1 & H1 & Hp1 & Hu1).
  exists (snd (plugin_teardown p w1)).
  split.
  - unfold SpyLifecycle.unplug in *. rewrite forEach_app.
    unfold seq at 1. unfold bind at 1. rewrite H1.
    cbn [forEach]. unfold seq, bind.
    specialize (Ht w1).
    destruct (plugin_teardown p w1) as [[[] | e'] w2]; cbn in Ht;
      [discriminate|].
    inversion Ht. reflexivity.
  - destruct (Hk w1) as [-> ->]. auto.
Qed.

Lemma remove_all_app_disjoint
    (eqb_spec : forall a b, plugin_eqb a b = true <-> a = b)
    (ps l : list Plugin) :
  (forall p, In p ps -> ~ In p l) ->
  remove_all ps (l ++ ps) = l.
Proof.
  intros Hd. unfold SpyLifecycle.remove_all. rewrite filter_app.
  assert (H1 : filter (fun p => negb (existsb (plugin_eqb p) ps)) l = l).
  { assert (Hl : forall x, In x l -> ~ In x ps)
      by (intros x Hx Hin; exact (Hd x Hin Hx)).
    clear Hd. induction l as [| x l IH]; [reflexivity|].
    cbn [filter].
    destruct (existsb (plugin_eqb x) ps) eqn:E.
    - exfalso. apply existsb_exists in E. destruct E as (q & Hq & Hxq).
      apply eqb_spec in Hxq. subst q.
      exact (Hl x (or_introl eq_refl) Hq).
    - cbn [negb]. rewrite IH; [reflexivity|].
      intros y Hy. apply Hl. right. exact Hy. }
  assert (H2 : forall qs,
            (forall x, In x qs -> In x ps) ->
            filter (fun p => negb (existsb (plugin_eqb p) ps)) qs = []).
  { induction qs as [| x qs IH]; intros Hin; [reflexivity|].
    cbn [filter].
    assert (E : existsb (plugin_eqb x) ps = true).
    { apply existsb_exists. exists x. split.
      - apply Hin. left. reflexivity.
      - apply eqb_spec. reflexivity. }
    rewrite E. cbn [negb]. apply IH. intros y Hy. apply Hin. right. exact Hy. }
  rewrite H1, (H2 ps (fun x Hx => Hx)), app_nil_r. reflexivity.
Qed.

(** X12. [plug(...plugins)] appends the plugins to [plugins_] and to
    [undos_], in their order, and the Teardown it returns undoes it:
    called later, it restores both lists, provided the plugins were not
    registered before and the teardowns of the plugins and the
    observers of the plugin list return. *)
Theorem plug_returns_its_undo :
  forall (this : SpyId) (plugins : list Plugin) (w : World),
    (forall a b, plugin_eqb a b = true <-> a = b) ->
    (forall p, In p plugins -> tidy this (plugin_teardown p)) ->
    (forall ps, tidy this (pluginsSubject_next this ps)) ->
    (forall p, In p plugins ->
       ~ In p (plugins_ w this) /\ ~ In p (undos_ w this)) ->
    exists undo w1 w2,
      plug this plugins w = (Return undo, w1) /\
      plugins_ w1 this = plugins_ w this ++ plugins /\
      undos_ w1 this = undos_ w this ++ plugins /\
      undo w1 = (Return tt, w2) /\
      plugins_ w2 this = plugins_ w this /\
      undos_ w2 this = undos_ w this.
Proof.
  intros this plugins w Heq Hp Hs Hfresh.
  unfold SpyLifecycle.plug. unfold seq, bind, modify, gets, ret.
  set (w0 := set_plugins_ this (plugins_ w this ++ plugins) w).
  destruct (Hs (plugins_ w0 this)) as [Hr Hk].
  specialize (Hr w0). destruct (Hk w0) as [Hkp Hku].
  destruct (pluginsSubject_next this (plugins_ w0 this) w0) as [[[] | e] w1];
    cbn in Hr, Hkp, Hku; [| discriminate].
  set (w1' := SpyLifecycle.set_undos_ this _ w1).
  assert (Hp1 : plugins_ w1' this = plugins_ w this ++ plugins).
  { unfold w1', SpyLifecycle.set_undos_. cbn. rewrite Hkp. unfold w0. cbn.
    apply upd_same. }
  assert (Hu1 : undos_ w1' this = undos_ w this ++ plugins).
  { unfold w1', SpyLifecycle.set_undos_. cbn. rewrite upd_same, Hku.
    reflexivity. }
  destruct (run_unplug this plugins Hp Hs w1') as (w2 & H2 & Hp2 & Hu2).
  exists (unplug this plugins), w1', w2.
  split; [reflexivity|]. split; [exact Hp1|]. split; [exact Hu1|].
  split; [exact H2|].
  rewrite Hp2, Hu2, Hp1, Hu1.
  split; apply (remove_all_app_disjoint Heq); intros p Hin;
    apply (Hfresh p Hin).
Qed.

Lemma find_is_head_of_filter {A : Type} (f : A -> bool) (l : list A) :
  List.find f l = hd_error (filter f l).
Proof.
  induction l as [| x l IH]; [reflexivity|].
  cbn. destruct (f x); [reflexivity | exact IH].
Qed.

(** X13. [find(ctor)] is the first element of [findAll(ctor)], that is
    the first registered plugin that is an instance of [ctor], and
    [undefined] exactly when [findAll(ctor)] is empty; neither call
    changes anything. *)
Theorem find_is_the_first_of_findAll :
  forall (this : SpyId) (ctor : Ctor) (w : World),
    exists found : list Plugin,
      SpyLifecycle.findAll (Value := Value) instanceOf this (Some ctor) w
      = (Return found, w) /\
      SpyLifecycle.find (Value := Value) instanceOf this ctor w
      = (Return (hd_error found), w) /\
      (forall p, In p found <->
                 In p (plugins_ w this) /\ instanceOf p ctor = true) /\
      (hd_error found = None <-> found = []) /\
      SpyLifecycle.findAll (Value := Value) (Ctor := Ctor) instanceOf this None w
      = (Return (plugins_ w this), w).
Proof.
  intros this ctor w.
  exists (filter (fun plugin => instanceOf plugin ctor) (plugins_ w this)).
  split; [reflexivity|].
  split.
  - unfold SpyLifecycle.find, gets. rewrite find_is_head_of_filter.
    reflexivity.
  - split; [intros p; apply filter_In|].
    split; [| reflexivity].
    destruct (filter _ (plugins_ w this)); cbn; split; congruence.
Qed.

(** The teardown function, when nothing it calls throws. *)
Lemma run_teardown_function (this : SpyId) (w : World) :
  returns remove_hooks ->
  (forall p, returns (plugin_teardown p)) ->
  (forall ps, tidy this (pluginsSubject_next this ps)) ->
  exists w',
    teardown_function this w = (Return tt, w') /\
    spy_ w' = None /\
    subscribe w' = observableSubscribe /\
    plugins_ w' this = [] /\
    undos_ w' this = [].
Proof.
  intros Hh Hp Hs.
  unfold SpyLifecycle.teardown_function.
  rewrite (run_seq_returns _ _ _ (Hh w)).
  set (w1 := snd (remove_hooks w)).
  assert (Hall : forall ps w0, fst (forEach ps plugin_teardown w0) = Return tt).
  { induction ps as [| p ps IH]; intros w0; [reflexivity|].
    cbn [forEach]. rewrite (run_seq_returns _ _ _ (Hp p w0)). apply IH. }
  unfold seq at 1. rewrite run_bind.
  rewrite run_bind. cbn [gets fst snd].
  rewrite (Hall (plugins_ w1 this) w1).
  set (w2 := snd (forEach (plugins_ w1 this) plugin_teardown w1)).
  unfold seq, bind, modify, gets.
  set (w3 := set_plugins_ this [] w2).
  destruct (Hs (plugins_ w3 this)) as [Hr Hk].
  specialize (Hr w3). destruct (Hk w3) as [Hkp _].
  destruct (pluginsSubject_next this (plugins_ w3 this) w3) as [[[] | e] w4];
    cbn in Hr, Hkp; [| discriminate].
  eexists. split; [reflexivity|]. cbn.
  split; [reflexivity|]. split; [reflexivity|].
  split; [| apply upd_same].
  rewrite Hkp. unfold w3. cbn. apply upd_same.
Qed.

Lemma run_teardown (this : SpyId) (w : World) :
  teardown_ w this = true ->
  returns remove_hooks ->
  (forall p, returns (plugin_teardown p)) ->
  (forall ps, tidy this (pluginsSubject_next this ps)) ->
  exists w',
    teardown this w = (Return tt, w') /\
    spy_ w' = None /\
    subscribe w' = observableSubscribe /\
    plugins_ w' this = [] /\
    undos_ w' this = [] /\
    teardown_ w' this = false.
Proof.
  intros Hdef Hh Hp Hs.
  destruct (run_teardown_function this w Hh Hp Hs)
    as (w1 & H1 & Hspy & Hsub & Hpl & Hun).
  exists (SpyLifecycle.set_teardown_ this false w1).
  unfold SpyLifecycle.teardown. unfold bind at 1. cbn [gets].
  rewrite Hdef. unfold seq, bind. rewrite H1. cbn [modify].
  split; [reflexivity|].
  unfold SpyLifecycle.set_teardown_. cbn.
  repeat split; try assumption. apply upd_same.
Qed.

(** X14. [teardown()] uninstalls the spy, once: when the teardowns of
    the plugins and the host actions return, it leaves no active spy,
    the original [subscribe], no plugin and no undo; and a further
    [teardown()] does nothing at all. *)
Theorem teardown_uninstalls_once :
  forall (this : SpyId) (w : World),
    teardown_ w this = true ->
    returns remove_hooks ->
    (forall p, returns (plugin_teardown p)) ->
    (forall ps, tidy this (pluginsSubject_next this ps)) ->
    exists w',
      teardown this w = (Return tt, w') /\
      spy_ w' = None /\
      subscribe w' = observableSubscribe /\
      plugins_ w' this = [] /\
      undos_ w' this = [] /\
      teardown this w' = (Return tt, w').
Proof.
  intros this w Hdef Hh Hp Hs.
  destruct (run_teardown this w Hdef Hh Hp Hs)
    as (w' & H & Hspy & Hsub & Hpl & Hun & Htd).
  exists w'. repeat split; try assumption.
  unfold SpyLifecycle.teardown, bind. cbn [gets]. rewrite Htd. reflexivity.
Qed.

Lemma run_new_SpyCore (options : Options) (w : World) :
  spy_ w = None ->
  exists w',
    new_SpyCore options w = (Return (instances w), w') /\
    spy_ w' = Some (instances w) /\
    subscribe w' = coreSubscribe_ /\
    tick_ w' (instances w) = 0 /\
    undos_ w' (instances w) = [] /\
    teardown_ w' (instances w) = true /\
    instances w' = S (instances w).
Proof.
  intros Hnone. unfold SpyLifecycle.new_SpyCore, SpyCore.new_SpyCore.
  rewrite Hnone. eexists. split; [reflexivity|]. cbn.
  repeat split; apply upd_same.
Qed.

(** X15. After [teardown()] a spy can be created again: [new SpyCore]
    followed by [teardown()] and by a second [new SpyCore] returns a
    second instance, which is the active one, patches [subscribe] again
    and starts with its tick at 0. *)
Theorem teardown_allows_a_new_spy :
  forall (options options' : Options) (w : World),
    spy_ w = None ->
    returns remove_hooks ->
    (forall p, returns (plugin_teardown p)) ->
    (forall s ps, tidy s (pluginsSubject_next s ps)) ->
    exists this w1 w2 this' w3,
      new_SpyCore options w = (Return this, w1) /\
      teardown this w1 = (Return tt, w2) /\
      new_SpyCore options' w2 = (Return this', w3) /\
      spy_ w3 = Some this' /\
      subscribe w3 = coreSubscribe_ /\
      tick_ w3 this' = 0.
Proof.
  intros options options' w Hnone Hh Hp Hs.
  destruct (run_new_SpyCore options w Hnone)
    as (w1 & H1 & _ & _ & _ & _ & Htd & _).
  destruct (run_teardown (instances w) w1 Htd Hh Hp (Hs (instances w)))
    as (w2 & H2 & Hspy & _).
  destruct (run_new_SpyCore options' w2 Hspy)
    as (w3 & H3 & Hspy3 & Hsub3 & Ht3 & _).
  exists (instances w), w1, w2, (instances w2), w3.
  repeat split; assumption.
Qed.

Lemma run_ignore {R : Type} (this : SpyId) (block : M R) (w : World) :
  ignore this block w
  = (fst (block (set_spy_ None w)),
     set_spy_ (Some this) (snd (block (set_spy_ None w)))).
Proof.
  unfold ignore, seq, bind, modify, try_catch_finally. cbn. unfold throw.
  destruct (block (set_spy_ None w)) as [[r | e] w']; reflexivity.
Qed.

(** X16. [ignore] on an instance that has been torn down installs it
    again in [SpyCore.spy_]: after [teardown()] and a later
    [ignore(block)] of the same instance, [new SpyCore] throws "Already
    spying", although [subscribe] is the original one when the block
    has left it alone. *)
Theorem ignore_after_teardown_blocks_new_spy :
  forall (R : Type) (this : SpyId) (block : M R) (options : Options)
         (w : World),
    teardown_ w this = true ->
    returns remove_hooks ->
    (forall p, returns (plugin_teardown p)) ->
    (forall ps, tidy this (pluginsSubject_next this ps)) ->
    exists w1 w2,
      teardown this w = (Return tt, w1) /\
      spy_ w1 = None /\
      snd (ignore this block w1) = w2 /\
      spy_ w2 = Some this /\
      new_SpyCore options w2
      = (Throw (Error "Already spying on Observable.prototype.subscribe."%string),
         w2) /\
      (preserves subscribe block -> subscribe w2 = observableSubscribe).
Proof.
  intros R this block options w Hdef Hh Hp Hs.
  destruct (run_teardown this w Hdef Hh Hp Hs)
    as (w1 & H1 & Hspy & Hsub & _).
  exists w1, (snd (ignore this block w1)).
  split; [exact H1|]. split; [exact Hspy|]. split; [reflexivity|].
  rewrite run_ignore. cbn [snd].
  split; [reflexivity|].
  split.
  - unfold SpyLifecycle.new_SpyCore, SpyCore.new_SpyCore. reflexivity.
  - intros Hkeep. cbn. rewrite (Hkeep (set_spy_ None w1)). exact Hsub.
Qed.

(** X17. [ignore] does not nest: when an inner [ignore] returns, the
    rest of the block of the outer [ignore] runs with the spy active
    again. *)
Theorem ignore_does_not_nest :
  forall (R : Type) (this : SpyId) (inner : M unit) (rest : M R) (w : World),
    let wi := snd (inner (set_spy_ None w)) in
    ignore this (seq (ignore this inner) rest) w
    = match fst (inner (set_spy_ None w)) with
      | Return _ =>
          (fst (rest (set_spy_ (Some this) wi)),
           set_spy_ (Some this) (snd (rest (set_spy_ (Some this) wi))))
      | Throw e => (Throw e, set_spy_ (Some this) wi)
      end /\
    spy_ (set_spy_ (Some this) wi) = Some this.
Proof.
  intros R this inner rest w wi. split; [| reflexivity].
  rewrite run_ignore, run_seq, run_ignore. cbn [fst snd].
  assert (Hw : set_spy_ None (set_spy_ None w) = set_spy_ None w)
    by reflexivity.
  rewrite Hw. fold wi.
  destruct (fst (inner (set_spy_ None w))) as [[] | e]; [reflexivity|].
  cbn [fst snd]. reflexivity.
Qed.


(** X19. The plugin list is read again after the action: a plugin
    that the action of a notification plugs gets the after-callback of
    that notification, after those of the plugins registered before,
    without having got its before-callback. *)
Theorem plugin_plugged_by_the_action_gets_after_only :
  forall (this : SpyId) (ref : Ref) (k : nat)
         (before after : Plugin -> M unit) (p : Plugin) (w : World),
    (forall q, orderly this (before q)) ->
    (forall q, returns (after q) /\ silent (after q)) ->
    (forall ps, tidy this (pluginsSubject_next this ps) /\
                silent (pluginsSubject_next this ps)) ->
    let r := probed_notify_ this ref k before
               (seq (plug this [p]) (ret tt)) after w in
    fst r = Return tt /\
    exists l,
      observations (snd r) = observations w ++ l /\
      map point l
      = map BeforeCallback (plugins_ w this)
        ++ Action :: map AfterCallback (plugins_ w this ++ [p]).
Proof.
  intros this ref k before after p w Hb Ha Hs r. unfold r.
  rewrite probed_notify_unfold. cbn zeta.
  destruct (forEach_probed_returns this ref k BeforeCallback before
              (plugins_ w this)
              (fun q _ => conj (proj1 (Hb q)) (proj1 (proj2 (Hb q))))
              (set_tick_ this (increment (tick_ w this)) w)) as (Hrb & lb & Hlb & Hpts).
  fold (probed_before this ref k before) in Hrb, Hlb.
  set (wb := snd (forEach (plugins_ w this) (probed_before this ref k before)
                    (set_tick_ this (increment (tick_ w this)) w))) in *.
  rewrite Hrb.
  assert (Hpb : plugins_ wb this = plugins_ w this).
  { unfold wb.
    rewrite (probed_before_preserves (fun w => plugins_ w this) this ref k
               before (plugins_ w this) (fun _ _ => eq_refl)
               (fun q => proj2 (proj2 (Hb q)))).
    reflexivity. }
  assert (Hblk : exists wa,
             probe this ref k Action (seq (plug this [p]) (ret tt)) wb
             = (Return tt, wa) /\
             plugins_ wa this = plugins_ w this ++ [p] /\
             exists oa, observations wa = observations wb ++ [oa] /\
                        point oa = Action).
  { unfold probe, SpyLifecycle.plug, seq, bind, modify, gets, ret.
    set (oa := mkObservation k Action (tick_ wb this) (ref_unsubscribed wb ref)).
    set (w0 := set_plugins_ this _ (set_observations _ wb)).
    destruct (Hs (plugins_ w0 this)) as [[Hr Hk] Hsil].
    specialize (Hr w0). destruct (Hk w0) as [Hkp _]. specialize (Hsil w0).
    destruct (pluginsSubject_next this (plugins_ w0 this) w0)
      as [[[] | e] w1]; cbn in Hr, Hkp, Hsil; [| discriminate].
    eexists. split; [reflexivity|].
    unfold SpyLifecycle.set_undos_. cbn. split.
    - rewrite Hkp. unfold w0. cbn. rewrite upd_same, Hpb. reflexivity.
    - exists oa. split; [| reflexivity]. rewrite Hsil. reflexivity. }
  destruct Hblk as (wa & Hra & Hpa & oa & Hoa & Hpt).
  rewrite Hra. cbn [fst snd].
  destruct (forEach_probed_returns this ref k AfterCallback after
              (plugins_ wa this) (fun q _ => Ha q) wa)
    as (Hrc & la & Hla & Hptsa).
  fold (probed_after this ref k after) in Hrc, Hla.
  split; [exact Hrc|].
  exists (lb ++ oa :: la). split.
  - rewrite Hla, Hoa, Hlb, <- !app_assoc. reflexivity.
  - rewrite map_app. cbn [map]. rewrite Hpts, Hpt, Hptsa, Hpa. reflexivity.
Qed.

End SpyLifecycleProperties.

(** ** The concrete program *)

Lemma demo_record_tidy (s : SpyId) (n : nat) :
  SpyLifecycle.tidy s (LifecycleDemo.record n).
Proof. split; [intros w; reflexivity | intros w; split; reflexivity]. Qed.

Lemma demo_subject_tidy (s : SpyId) (ps : list nat) :
  SpyLifecycle.tidy s (LifecycleDemo.pluginsSubject_next s ps).
Proof. split; [intros w; reflexivity | intros w; split; reflexivity]. Qed.

Lemma demo_failing_before (s : SpyId) (q : nat) :
  In q [0%nat] -> SpyLifecycle.tidy s (LifecycleDemo.failing_teardown q).
Proof. intros [<- | []]. exact (demo_record_tidy s 0%nat). Qed.

Lemma unplug_removes_the_given_plugins_witness :
  exists w',
    SpyLifecycle.unplug Nat.eqb LifecycleDemo.plugin_teardown
      LifecycleDemo.pluginsSubject_next 0%nat [1%nat; 0%nat]
      LifecycleDemo.world1 = (Return tt, w') /\
    plugins_ w' 0%nat
    = SpyLifecycle.remove_all Nat.eqb [1%nat; 0%nat]
        (plugins_ LifecycleDemo.world1 0%nat) /\
    SpyLifecycle.undos_ (host w') 0%nat
    = SpyLifecycle.remove_all Nat.eqb [1%nat; 0%nat]
        (SpyLifecycle.undos_ (host LifecycleDemo.world1) 0%nat).
Proof.
  apply (unplug_removes_the_given_plugins (Value := nat) Nat.eqb
           LifecycleDemo.plugin_teardown LifecycleDemo.pluginsSubject_next
           0%nat [1%nat; 0%nat] LifecycleDemo.world1).
  - intros p _. exact (demo_record_tidy 0%nat p).
  - intros ps. exact (demo_subject_tidy 0%nat ps).
Defined.

(** Unplugging 1 and 0 from the default plugins 0, 1 and 2 leaves 2. *)
Example unplug_two_of_three :
  plugins_
    (snd (SpyLifecycle.unplug Nat.eqb LifecycleDemo.plugin_teardown
            LifecycleDemo.pluginsSubject_next 0%nat [1%nat; 0%nat]
            LifecycleDemo.world1)) 0%nat
  = [2%nat].
Proof. reflexivity. Qed.

Lemma unplug_stops_at_a_throwing_teardown_witness :
  throws (Raised 7%nat) (LifecycleDemo.failing_teardown 1%nat) /\
  exists w',
    SpyLifecycle.unplug Nat.eqb LifecycleDemo.failing_teardown
      LifecycleDemo.pluginsSubject_next 0%nat ([0%nat] ++ 1%nat :: [2%nat])
      LifecycleDemo.world1 = (Throw (Raised 7%nat), w') /\
    plugins_ w' 0%nat
    = SpyLifecycle.remove_all Nat.eqb [0%nat]
        (plugins_ LifecycleDemo.world1 0%nat) /\
    SpyLifecycle.undos_ (host w') 0%nat
    = SpyLifecycle.remove_all Nat.eqb [0%nat]
        (SpyLifecycle.undos_ (host LifecycleDemo.world1) 0%nat).
Proof.
  split; [intros w; reflexivity|].
  apply (unplug_stops_at_a_throwing_teardown (Value := nat) Nat.eqb
           LifecycleDemo.failing_teardown LifecycleDemo.pluginsSubject_next
           0%nat [0%nat] 1%nat [2%nat] (Raised 7%nat) LifecycleDemo.world1).
  - exact (demo_failing_before 0%nat).
  - intros ps. exact (demo_subject_tidy 0%nat ps).
  - intros w. reflexivity.
  - intros w. split; reflexivity.
Defined.

(** The plugins 1 and 2 are still registered after the failed unplug. *)
Example failed_unplug_keeps_the_rest :
  plugins_
    (snd (SpyLifecycle.unplug Nat.eqb LifecycleDemo.failing_teardown
            LifecycleDemo.pluginsSubject_next 0%nat [0%nat; 1%nat; 2%nat]
            LifecycleDemo.world1)) 0%nat
  = [1%nat; 2%nat].
Proof. reflexivity. Qed.

Lemma demo_fresh (p : nat) :
  In p [5%nat; 6%nat] ->
  ~ In p (plugins_ LifecycleDemo.world1 0%nat) /\
  ~ In p (SpyLifecycle.undos_ (host LifecycleDemo.world1) 0%nat).
Proof.
  intros [<- | [<- | []]]; split; cbn; intuition discriminate.
Qed.

Lemma plug_returns_its_undo_witness :
  exists undo w1 w2,
    SpyLifecycle.plug Nat.eqb LifecycleDemo.plugin_teardown
      LifecycleDemo.pluginsSubject_next 0%nat [5%nat; 6%nat]
      LifecycleDemo.world1 = (Return undo, w1) /\
    plugins_ w1 0%nat = plugins_ LifecycleDemo.world1 0%nat ++ [5%nat; 6%nat] /\
    SpyLifecycle.undos_ (host w1) 0%nat
    = SpyLifecycle.undos_ (host LifecycleDemo.world1) 0%nat
      ++ [5%nat; 6%nat] /\
    undo w1 = (Return tt, w2) /\
    plugins_ w2 0%nat = plugins_ LifecycleDemo.world1 0%nat /\
    SpyLifecycle.undos_ (host w2) 0%nat
    = SpyLifecycle.undos_ (host LifecycleDemo.world1) 0%nat.
Proof.
  apply (plug_returns_its_undo (Value := nat) Nat.eqb
           LifecycleDemo.plugin_teardown LifecycleDemo.pluginsSubject_next
           0%nat [5%nat; 6%nat] LifecycleDemo.world1).
  - exact Nat.eqb_eq.
  - intros p _. exact (demo_record_tidy 0%nat p).
  - intros ps. exact (demo_subject_tidy 0%nat ps).
  - exact demo_fresh.
Defined.

Lemma teardown_uninstalls_once_witness :
  SpyLifecycle.teardown_ (host LifecycleDemo.world1) 0%nat = true /\
  exists w',
    SpyLifecycle.teardown LifecycleDemo.plugin_teardown
      LifecycleDemo.pluginsSubject_next LifecycleDemo.remove_hooks 0%nat
      LifecycleDemo.world1 = (Return tt, w') /\
    spy_ w' = None /\
    subscribe w' = observableSubscribe /\
    plugins_ w' 0%nat = [] /\
    SpyLifecycle.undos_ (host w') 0%nat = [] /\
    SpyLifecycle.teardown LifecycleDemo.plugin_teardown
      LifecycleDemo.pluginsSubject_next LifecycleDemo.remove_hooks 0%nat w'
    = (Return tt, w').
Proof.
  split; [reflexivity|].
  apply (teardown_uninstalls_once (Value := nat)
           LifecycleDemo.plugin_teardown LifecycleDemo.pluginsSubject_next
           LifecycleDemo.remove_hooks 0%nat LifecycleDemo.world1).
  - reflexivity.
  - intros w. reflexivity.
  - intros p w. reflexivity.
  - intros ps. exact (demo_subject_tidy 0%nat ps).
Defined.

(** The teardown has called the teardowns of the plugins 0, 1 and 2, in
    that order. *)
Example teardown_calls_the_plugins :
  tracked
    (snd (SpyLifecycle.teardown LifecycleDemo.plugin_teardown
            LifecycleDemo.pluginsSubject_next LifecycleDemo.remove_hooks 0%nat
            LifecycleDemo.world1))
  = [0%nat; 1%nat; 2%nat].
Proof. reflexivity. Qed.

Lemma teardown_allows_a_new_spy_witness :
  spy_ LifecycleDemo.world0 = None /\
  exists this w1 w2 this' w3,
    SpyLifecycle.new_SpyCore (Value := nat) LifecycleDemo.install_hooks
      LifecycleDemo.default_plugins (mkOptions false true) LifecycleDemo.world0
    = (Return this, w1) /\
    SpyLifecycle.teardown LifecycleDemo.plugin_teardown
      LifecycleDemo.pluginsSubject_next LifecycleDemo.remove_hooks this w1
    = (Return tt, w2) /\
    SpyLifecycle.new_SpyCore (Value := nat) LifecycleDemo.install_hooks
      LifecycleDemo.default_plugins (mkOptions false false) w2
    = (Return this', w3) /\
    spy_ w3 = Some this' /\
    subscribe w3 = coreSubscribe_ /\
    tick_ w3 this' = 0.
Proof.
  split; [reflexivity|].
  apply (teardown_allows_a_new_spy (Value := nat)
           LifecycleDemo.plugin_teardown LifecycleDemo.pluginsSubject_next
           LifecycleDemo.install_hooks LifecycleDemo.remove_hooks
           LifecycleDemo.default_plugins
           (mkOptions false true) (mkOptions false false) LifecycleDemo.world0).
  - reflexivity.
  - intros w. reflexivity.
  - intros p w. reflexivity.
  - intros s ps. exact (demo_subject_tidy s ps).
Defined.

Lemma ignore_after_teardown_blocks_new_spy_witness :
  SpyLifecycle.teardown_ (host LifecycleDemo.world1) 0%nat = true /\
  exists w1 w2,
    SpyLifecycle.teardown LifecycleDemo.plugin_teardown
      LifecycleDemo.pluginsSubject_next LifecycleDemo.remove_hooks 0%nat
      LifecycleDemo.world1 = (Return tt, w1) /\
    spy_ w1 = None /\
    snd (ignore 0%nat (LifecycleDemo.record 9%nat) w1) = w2 /\
    spy_ w2 = Some 0%nat /\
    SpyLifecycle.new_SpyCore (Value := nat) LifecycleDemo.install_hooks
      LifecycleDemo.default_plugins (mkOptions false true) w2
    = (Throw (Error "Already spying on Observable.prototype.subscribe."%string),
       w2) /\
    (preserves subscribe (LifecycleDemo.record 9%nat) ->
     subscribe w2 = observableSubscribe).
Proof.
  split; [reflexivity|].
  apply (ignore_after_teardown_blocks_new_spy (Value := nat)
           LifecycleDemo.plugin_teardown LifecycleDemo.pluginsSubject_next
           LifecycleDemo.install_hooks LifecycleDemo.remove_hooks
           LifecycleDemo.default_plugins
           unit 0%nat (LifecycleDemo.record 9%nat) (mkOptions false true)
           LifecycleDemo.world1).
  - reflexivity.
  - intros w. reflexivity.
  - intros p w. reflexivity.
  - intros ps. exact (demo_subject_tidy 0%nat ps).
Defined.

Lemma demo_record_orderly (s : SpyId) (n : nat) :
  orderly s (LifecycleDemo.record n).
Proof. split; [| split]; intros w; reflexivity. Qed.

Lemma plugin_plugged_by_the_action_gets_after_only_witness :
  let r :=
    probed_notify_ 0%nat 5%nat 0%nat
      (fun q => LifecycleDemo.record (2 * q))
      (seq (SpyLifecycle.plug Nat.eqb LifecycleDemo.plugin_teardown
              LifecycleDemo.pluginsSubject_next 0%nat [7%nat])
           (ret tt))
      (fun q => LifecycleDemo.record (2 * q + 1))
      LifecycleDemo.world1 in
  fst r = Return tt /\
  exists l,
    observations (snd r) = observations LifecycleDemo.world1 ++ l /\
    map point l
    = map BeforeCallback (plugins_ LifecycleDemo.world1 0%nat)
      ++ Action
         :: map AfterCallback (plugins_ LifecycleDemo.world1 0%nat ++ [7%nat]).
Proof.
  apply (plugin_plugged_by_the_action_gets_after_only (Value := nat) Nat.eqb
           LifecycleDemo.plugin_teardown LifecycleDemo.pluginsSubject_next
           0%nat 5%nat 0%nat
           (fun q => LifecycleDemo.record (2 * q))
           (fun q => LifecycleDemo.record (2 * q + 1))
           7%nat LifecycleDemo.world1).
  - intros q. exact (demo_record_orderly 0%nat (2 * q)).
  - intros q. split; intros w; reflexivity.
  - intros ps. split; [exact (demo_subject_tidy 0%nat ps)|].
    intros w. reflexivity.
Defined.

(** The calls the plugins have recorded: the before-callbacks of 0, 1
    and 2, then the after-callbacks of 0, 1, 2 and of the plugin 7. *)
Example plugged_plugin_is_called_after :
  tracked
    (snd (probed_notify_ 0%nat 5%nat 0%nat
            (fun q => LifecycleDemo.record (2 * q))
            (seq (SpyLifecycle.plug Nat.eqb LifecycleDemo.plugin_teardown
                    LifecycleDemo.pluginsSubject_next 0%nat [7%nat])
                 (ret tt))
            (fun q => LifecycleDemo.record (2 * q + 1))
            LifecycleDemo.world1))
  = [0%nat; 2%nat; 4%nat; 1%nat; 3%nat; 5%nat; 15%nat].
Proof. reflexivity. Qed.
